(** * aftertone: the inventory function and its bearer-token verifier

    A shallow embedding of the inventory function of [netlify/functions]
    (the version guarded by [verifyAuth]); the upload function carries the
    same [verifyAuth], word for word.  Line numbers are those of the
    inventory function.

    Conventions of the embedding.
    - A JavaScript string is a [string]: one [ascii] per UTF-16 code unit,
      for the code units below 256 (Latin-1).  [toLowerCase] and [trim] are
      the ECMAScript functions restricted to that range.
    - A JavaScript value is a [value]; numbers are the integer-valued ones
      that print in plain decimal (those of magnitude below [10^21]).
      Objects are association lists in property order (the special
      ordering of integer-like property names is represented where the
      upload function assigns a property, not in the spreads of the
      inventory function).
    - [async]/[await] is sequential; a rejected promise is a [Throw].
    - The blob store is a finite map from keys to texts, with the calls made
      on it recorded, and with optional faults for its two operations.
    - [JSON.parse], [JSON.stringify] and jose's [jwtVerify] are outside the
      repository: they are the fields of a [Runtime]. *)

From Stdlib Require Import String Ascii List ZArith Lia Bool DecimalString.
From stdpp Require Import gmap strings.
Import ListNotations.

Local Open Scope string_scope.
Local Open Scope Z_scope.

(** ** Strings: the built-ins used by the handlers *)

Module JsString.

Definition code (c : ascii) : N := N_of_ascii c.

Definition between (lo hi : N) (c : ascii) : bool :=
  ((lo <=? code c) && (code c <=? hi))%N.

(** [[a-z0-9]] *)
Definition is_alnum (c : ascii) : bool :=
  between 97 122 c || between 48 57 c.

Definition is_hyphen (c : ascii) : bool := (code c =? 45)%N.

Definition is_space (c : ascii) : bool := (code c =? 32)%N.

(** WhiteSpace and LineTerminator code units below 256:
    TAB, LF, VT, FF, CR, SP, NBSP. *)
Definition is_white (c : ascii) : bool :=
  between 9 13 c || (code c =? 32)%N || (code c =? 160)%N.

(** A-Z, and the Latin-1 capitals U+00C0..U+00DE but U+00D7. *)
Definition is_upper (c : ascii) : bool :=
  between 65 90 c || (between 192 222 c && negb (code c =? 215)%N).

Definition lower_char (c : ascii) : ascii :=
  if is_upper c then ascii_of_N (code c + 32) else c.

Fixpoint toLowerCase (s : string) : string :=
  match s with
  | EmptyString => EmptyString
  | String c t => String (lower_char c) (toLowerCase t)
  end.

(** Drop the longest prefix of characters satisfying [p]. *)
Fixpoint drop_start (p : ascii -> bool) (s : string) : string :=
  match s with
  | EmptyString => EmptyString
  | String c t => if p c then drop_start p t else s
  end.

(** Drop the longest suffix of characters satisfying [p]. *)
Fixpoint drop_end (p : ascii -> bool) (s : string) : string :=
  match s with
  | EmptyString => EmptyString
  | String c t =>
      match drop_end p t with
      | EmptyString => if p c then EmptyString else String c EmptyString
      | t' => String c t'
      end
  end.

Definition trim (s : string) : string :=
  drop_end is_white (drop_start is_white s).

(** [.replace(/[^a-z0-9]+/g, '-')]: [in_run] tells that the previous
    character belonged to the run being replaced. *)
Fixpoint collapse (in_run : bool) (s : string) : string :=
  match s with
  | EmptyString => EmptyString
  | String c t =>
      if is_alnum c then String c (collapse false t)
      else if in_run then collapse true t
      else String "-" (collapse true t)
  end.

Definition replace_non_alnum_runs (s : string) : string := collapse false s.

(** [.replace(/^-+|-+$/g, '')]: the first alternative matches the hyphens
    at the start, the second the hyphens that reach the end. *)
Definition strip_hyphens (s : string) : string :=
  drop_end is_hyphen (drop_start is_hyphen s).

(** [s.startsWith(p)] *)
Fixpoint startsWith (p s : string) : bool :=
  match p, s with
  | EmptyString, _ => true
  | String a p', String b s' => Ascii.eqb a b && startsWith p' s'
  | String _ _, EmptyString => false
  end.

(** [s.split(' ')]: never empty; the pieces between the spaces. *)
Fixpoint split_space (s : string) : list string :=
  match s with
  | EmptyString => [EmptyString]
  | String c t =>
      if is_space c then EmptyString :: split_space t
      else match split_space t with
           | [] => [String c EmptyString]
           | w :: ws => String c w :: ws
           end
  end.

End JsString.
Import JsString.

(** [normalizeId], lines 17-23. *)
Definition normalizeId (str : string) : string :=
  strip_hyphens (replace_non_alnum_runs (trim (toLowerCase str))).

(** *** The normal form of identifiers *)

(** The strings over [[a-z0-9-]] in which no hyphen follows a hyphen;
    [after_hyphen] tells that the previous character was a hyphen (or that
    the string starts here), so that no hyphen may come next. *)
Fixpoint separated (after_hyphen : bool) (s : string) : bool :=
  match s with
  | EmptyString => true
  | String c t =>
      if is_alnum c then separated false t
      else is_hyphen c && negb after_hyphen && separated true t
  end.

(** The same, and the last character is not a hyphen. *)
Fixpoint closed (after_hyphen : bool) (s : string) : bool :=
  match s with
  | EmptyString => negb after_hyphen
  | String c t =>
      if is_alnum c then closed false t
      else is_hyphen c && negb after_hyphen && closed true t
  end.

(** An identifier in normal form: empty, or alphanumeric words joined by
    single hyphens. *)
Definition normal_form (s : string) : Prop :=
  s = EmptyString \/ closed true s = true.


(** ** Values, errors and completions *)

Set Warnings "-register-all".

Inductive value : Type :=
| JUndefined
| JNull
| JBool (b : bool)
| JNumber (n : Z)
| JString (s : string)
| JArray (elems : list value)
| JObject (fields : list (string * value)).

(** An [Error] object: its constructor name, its [message], and the
    [status] property the verifier attaches ([None] when it has none). *)
Record JsError : Type := mkError {
  err_name : string;
  message : string;
  status : option Z
}.

Definition TypeError (msg : string) : JsError := mkError "TypeError" msg None.

(** [const err = new Error(msg); err.status = code] *)
Definition ErrorWithStatus (msg : string) (code : Z) : JsError :=
  mkError "Error" msg (Some code).

Inductive Completion (A : Type) : Type :=
| Normal (a : A)
| Throw (e : JsError).

Arguments Normal {A} a.
Arguments Throw {A} e.

Definition andThen {A B : Type} (c : Completion A) (k : A -> Completion B)
  : Completion B :=
  match c with
  | Normal a => k a
  | Throw e => Throw e
  end.

Notation "'let*' x ':=' c 'in' k" := (andThen c (fun x => k))
  (at level 10, x name, c at level 100, k at level 200).

(** [l.map(f)] for a callback that may throw: left to right, the first
    exception ends the loop. *)
Fixpoint mapC {A B : Type} (f : A -> Completion B) (l : list A)
  : Completion (list B) :=
  match l with
  | [] => Normal []
  | x :: t =>
      let* y := f x in
      let* ys := mapC f t in
      Normal (y :: ys)
  end.

(** [l.filter(f)] for a callback that may throw. *)
Fixpoint filterC {A : Type} (f : A -> Completion bool) (l : list A)
  : Completion (list A) :=
  match l with
  | [] => Normal []
  | x :: t =>
      let* keep := f x in
      let* ys := filterC f t in
      Normal (if keep then x :: ys else ys)
  end.

(** ToBoolean *)
Definition truthy (v : value) : bool :=
  match v with
  | JUndefined | JNull => false
  | JBool b => b
  | JNumber n => negb (n =? 0)
  | JString s => negb (String.eqb s EmptyString)
  | JArray _ | JObject _ => true
  end.

Definition typeof (v : value) : string :=
  match v with
  | JUndefined => "undefined"
  | JBool _ => "boolean"
  | JNumber _ => "number"
  | JString _ => "string"
  | JNull | JArray _ | JObject _ => "object"
  end.

Definition string_of_nat (n : nat) : string :=
  NilZero.string_of_uint (Nat.to_uint n).

(** ToString where it cannot throw: on a primitive value.  (On an array
    and on an object it is what the conversion gives when no object met on
    the way has a property [toString] of its own; see [ToString].) *)
Fixpoint toString (v : value) : string :=
  match v with
  | JUndefined => "undefined"
  | JNull => "null"
  | JBool true => "true"
  | JBool false => "false"
  | JNumber n => NilZero.string_of_int (Z.to_int n)
  | JString s => s
  | JArray l =>
      String.concat ","
        (map (fun x => match x with
                       | JUndefined | JNull => EmptyString
                       | _ => toString x
                       end) l)
  | JObject _ => "[object Object]"
  end.

(** [v === 'lit'] *)
Definition is_string (lit : string) (v : value) : bool :=
  match v with
  | JString s => String.eqb s lit
  | _ => false
  end.

(** SameValueZero, the equality of [Map] keys and of [includes].  Two
    objects are the same only when they are the same reference; the objects
    met here are distinct nodes of a parsed document. *)
Definition sameValueZero (a b : value) : bool :=
  match a, b with
  | JUndefined, JUndefined => true
  | JNull, JNull => true
  | JBool x, JBool y => Bool.eqb x y
  | JNumber x, JNumber y => x =? y
  | JString x, JString y => String.eqb x y
  | _, _ => false
  end.

(** *** Objects *)

Section Fields.
Context {V : Type}.

Fixpoint lookupField (k : string) (fs : list (string * V)) : option V :=
  match fs with
  | [] => None
  | (k', v) :: t => if String.eqb k' k then Some v else lookupField k t
  end.

(** [o[k] = v]: an existing property keeps its place. *)
Fixpoint setField (k : string) (v : V) (fs : list (string * V))
  : list (string * V) :=
  match fs with
  | [] => [(k, v)]
  | (k', v') :: t =>
      if String.eqb k' k then (k', v) :: t else (k', v') :: setField k v t
  end.

Definition setFields (src fs : list (string * V)) : list (string * V) :=
  fold_left (fun acc kv => setField (fst kv) (snd kv) acc) src fs.

End Fields.

(** [o.k] on an object. *)
Definition getField (k : string) (fs : list (string * value)) : value :=
  match lookupField k fs with
  | Some v => v
  | None => JUndefined
  end.

(** ToString of a value of a parsed document, as a template literal and a
    computed property name apply it.  An object with a property [toString]
    of its own hides the method of [Object.prototype] behind a value that
    cannot be called, and [valueOf] gives the object back: the conversion
    throws.  An array joins the conversions of its elements. *)
Fixpoint ToString (v : value) : Completion string :=
  match v with
  | JObject fs =>
      match lookupField "toString" fs with
      | Some _ => Throw (TypeError "Cannot convert object to primitive value")
      | None => Normal "[object Object]"
      end
  | JArray l =>
      let* parts :=
        (fix join (l : list value) : Completion (list string) :=
           match l with
           | [] => Normal []
           | x :: t =>
               let* y := match x with
                         | JUndefined | JNull => Normal EmptyString
                         | _ => ToString x
                         end in
               let* ys := join t in
               Normal (y :: ys)
           end) l in
      Normal (String.concat "," parts)
  | _ => Normal (toString v)
  end.

(** [v.k] for the property names the handlers read ([id], [make], [model],
    [year], [status], [items], [item], [scope]): none of them is a property
    of a boolean, a number, a string or an array. *)
Definition getProp (v : value) (k : string) : Completion value :=
  match v with
  | JUndefined =>
      Throw (TypeError
        ("Cannot read properties of undefined (reading '" +:+ k +:+ "')"))
  | JNull =>
      Throw (TypeError
        ("Cannot read properties of null (reading '" +:+ k +:+ "')"))
  | JObject fs => Normal (getField k fs)
  | JBool _ | JNumber _ | JString _ | JArray _ => Normal JUndefined
  end.

Fixpoint indexed {A : Type} (i : nat) (l : list A) : list (nat * A) :=
  match l with
  | [] => []
  | x :: t => (i, x) :: indexed (S i) t
  end.

Fixpoint chars (s : string) : list string :=
  match s with
  | EmptyString => []
  | String c t => String c EmptyString :: chars t
  end.

(** The own enumerable properties that [{...v}] copies. *)
Definition ownProps (v : value) : list (string * value) :=
  match v with
  | JObject fs => fs
  | JArray l => map (fun ix => (string_of_nat (fst ix), snd ix)) (indexed 0 l)
  | JString s =>
      map (fun ix => (string_of_nat (fst ix), JString (snd ix)))
          (indexed 0 (chars s))
  | JUndefined | JNull | JBool _ | JNumber _ => []
  end.

(** [{...a, ...b}] *)
Definition spread2 (a b : value) : list (string * value) :=
  setFields (ownProps b) (setFields (ownProps a) []).

(** *** Map *)

(** A [Map]: its entries in insertion order. *)
Fixpoint map_set (k v : value) (m : list (value * value))
  : list (value * value) :=
  match m with
  | [] => [(k, v)]
  | (k', v') :: t =>
      if sameValueZero k' k then (k', v) :: t else (k', v') :: map_set k v t
  end.

Fixpoint map_get (k : value) (m : list (value * value)) : value :=
  match m with
  | [] => JUndefined
  | (k', v') :: t => if sameValueZero k' k then v' else map_get k t
  end.

(** [new Map(entries)] *)
Definition new_Map (entries : list (value * value)) : list (value * value) :=
  fold_left (fun m kv => map_set (fst kv) (snd kv) m) entries [].

(** [[...m.values()]] *)
Definition map_values (m : list (value * value)) : list value := map snd m.

(** ** Validation and id derivation *)

(** An item after the normalising [map] of line 85 is an object literal. *)

(** [validateItem], lines 5-15. *)
Definition validateItem (item : list (string * value)) : list string :=
  (if negb (truthy (getField "id" item))
      || negb (String.eqb (typeof (getField "id" item)) "string")
   then ["id is required string"] else [])
  ++ (if negb (truthy (getField "make" item))
      then ["make is required"] else [])
  ++ (if negb (truthy (getField "model" item))
      then ["model is required"] else [])
  ++ (if truthy (getField "year" item)
         && negb (String.eqb (typeof (getField "year" item)) "number")
      then ["year must be number"] else [])
  ++ (if truthy (getField "status" item)
         && negb (existsb (sameValueZero (getField "status" item))
                    [JString "Available"; JString "On Hold";
                     JString "Sold"; JString "Draft"])
      then ["status must be Available | On Hold | Sold | Draft"] else []).

(** [normalizeId(v)] for an argument of any type: the default parameter
    replaces [undefined]; anything else that is not a string has no
    [toLowerCase]. *)
Definition normalizeId_of (v : value) : Completion string :=
  match v with
  | JString s => Normal (normalizeId s)
  | JUndefined => Normal (normalizeId EmptyString)
  | JNull =>
      Throw (TypeError
        "Cannot read properties of null (reading 'toLowerCase')")
  | _ => Throw (TypeError "str.toLowerCase is not a function")
  end.

(** Line 87: the value of the [id] property of the normalised item.  The
    template literal converts its three values from left to right, and the
    first conversion that throws ends it. *)
Definition deriveId (item : value) : Completion string :=
  let* id := getProp item "id" in
  if truthy id then normalizeId_of id
  else
    let* make := getProp item "make" in
    let* make_text := ToString make in
    let* model := getProp item "model" in
    let* model_text := ToString model in
    let* year := getProp item "year" in
    let* year_text := ToString (if truthy year then year
                                else JString EmptyString) in
    Normal (normalizeId
      (make_text +:+ "-" +:+ model_text +:+ "-" +:+ year_text)).

(** Lines 85-88: [{ ...item, id: ... }]. *)
Definition normalizeItem (item : value) : Completion (list (string * value)) :=
  let* id := deriveId item in
  Normal (setField "id" (JString id) (setFields (ownProps item) [])).

(** Lines 90-92: [flatMap] with the index of each item. *)
Fixpoint validationErrorsFrom (idx : nat) (incoming : list (list (string * value)))
  : list string :=
  match incoming with
  | [] => []
  | item :: t =>
      map (fun msg => "item " +:+ string_of_nat idx +:+ ": " +:+ msg)
          (validateItem item)
      ++ validationErrorsFrom (S idx) t
  end.

Definition validationErrors (incoming : list (list (string * value)))
  : list string :=
  validationErrorsFrom 0 incoming.

(** Lines 78-82: the three accepted shapes; [None] is the final [else]. *)
Definition selectIncoming (payload : value) : Completion (option (list value)) :=
  match payload with
  | JArray l => Normal (Some l)
  | _ =>
      let* items := getProp payload "items" in
      match items with
      | JArray l => Normal (Some l)
      | _ =>
          let* item := getProp payload "item" in
          if truthy item then Normal (Some [item]) else Normal None
      end
  end.

(** Lines 104-106: the merge through a [Map] keyed by [id]. *)
Definition mergeStep (m : list (value * value)) (item : list (string * value))
  : list (value * value) :=
  map_set (getField "id" item)
          (JObject (spread2 (map_get (getField "id" item) m) (JObject item)))
          m.

Definition mergeInventory (existing : value)
    (incoming : list (list (string * value))) : Completion (list value) :=
  match existing with
  | JArray recs =>
      let* entries :=
        mapC (fun i => let* id := getProp i "id" in Normal (id, i)) recs in
      Normal (map_values (fold_left mergeStep incoming (new_Map entries)))
  | JNull =>
      Throw (TypeError "Cannot read properties of null (reading 'map')")
  | _ => Throw (TypeError "existing.map is not a function")
  end.

(** ** The environment *)

(** The built-ins and the jose verifier.  [jwtVerify token issuer audience]
    is [jwtVerify(token, JWKS, { issuer, audience })], where [JWKS] is the
    key set of the issuer; its result is the [payload] of the resolved
    object. *)
Class Runtime : Type := {
  JSON_parse : string -> Completion value;
  JSON_stringify : value -> string;
  JSON_stringify_indent2 : value -> string;
  jwtVerify : string -> string -> string -> Completion value
}.

(** [process.env] *)
Record Config : Type := {
  AUTH0_DOMAIN : option string;
  AUTH0_AUDIENCE : option string
}.

Definition truthy_env (v : option string) : bool :=
  match v with
  | Some s => negb (String.eqb s EmptyString)
  | None => false
  end.

Definition env_string (v : option string) : string :=
  match v with
  | Some s => s
  | None => EmptyString
  end.

(** Line 30 *)
Definition ISSUER (cfg : Config) : option string :=
  if truthy_env (AUTH0_DOMAIN cfg)
  then Some ("https://" +:+ env_string (AUTH0_DOMAIN cfg) +:+ "/")
  else None.

(** The blob store [getStore({ name: 'inventory' })]. *)
Inductive StoreCall : Type :=
| CallGet (key : string)
| CallSet (key text : string).

Record Store : Type := {
  blobs : gmap string string;
  getFault : option JsError;
  setFault : option JsError;
  calls : list StoreCall
}.

(** [store.get(key, { type: 'text' })]: the text, or [null]. *)
Definition store_get (key : string) (st : Store)
  : Completion (option string) * Store :=
  let st' := {| blobs := blobs st; getFault := getFault st;
                setFault := setFault st;
                calls := calls st ++ [CallGet key] |} in
  match getFault st with
  | Some e => (Throw e, st')
  | None => (Normal (blobs st !! key), st')
  end.

(** [store.set(key, text, ...)] *)
Definition store_set (key text : string) (st : Store)
  : Completion unit * Store :=
  match setFault st with
  | Some e =>
      (Throw e,
       {| blobs := blobs st; getFault := getFault st;
          setFault := setFault st;
          calls := calls st ++ [CallSet key text] |})
  | None =>
      (Normal tt,
       {| blobs := <[key := text]> (blobs st); getFault := getFault st;
          setFault := setFault st;
          calls := calls st ++ [CallSet key text] |})
  end.

Definition KEY : string := "inventory.json".

(** The part of the request the handlers read. *)
Record Event : Type := {
  httpMethod : string;
  authorization : option string;
  includeDrafts : option string;
  body : option string
}.

Record Response : Type := {
  statusCode : Z;
  headers : list (string * string);
  resp_body : option string
}.

(** Lines 118-125 *)
Definition corsHeaders (extra : list (string * string))
  : list (string * string) :=
  setFields extra
    [("Access-Control-Allow-Origin", "*");
     ("Access-Control-Allow-Methods", "GET,POST,OPTIONS");
     ("Access-Control-Allow-Headers", "Content-Type,Authorization")].

Definition noCache : list (string * string) := [("Cache-Control", "no-cache")].

Definition errorBody (msg : string) : value := JObject [("error", JString msg)].

Definition errorDetail (msg detail : string) : value :=
  JObject [("error", JString msg); ("detail", JString detail)].

(** [err.status || 401] *)
Definition status_or (e : JsError) (d : Z) : Z :=
  match status e with
  | Some n => if n =? 0 then d else n
  | None => d
  end.

(** [err.message || 'Unauthorized'] *)
Definition message_or (e : JsError) (d : string) : string :=
  if String.eqb (message e) EmptyString then d else message e.

(** ** The verifier and the handlers *)

Section Handlers.
Context {rt : Runtime} (cfg : Config).

(** Lines 127-133 *)
Definition resp (code : Z) (payload : value) (extraHeaders : list (string * string))
  : Response :=
  {| statusCode := code;
     headers := corsHeaders extraHeaders;
     resp_body := Some (JSON_stringify payload) |}.

(** [(payload.scope || '').split(' ')] *)
Definition scopesOf (payload : value) : Completion (list string) :=
  let* scope := getProp payload "scope" in
  match (if truthy scope then scope else JString EmptyString) with
  | JString s => Normal (split_space s)
  | _ => Throw (TypeError "(payload.scope || '').split is not a function")
  end.

(** Lines 148-160: the body of the [try] block. *)
Definition verifyToken (token : option string) (scopeNeeded : string)
  : Completion value :=
  let* payload :=
    match token with
    | Some t =>
        jwtVerify t (env_string (ISSUER cfg)) (env_string (AUTH0_AUDIENCE cfg))
    | None => Throw (TypeError "Compact JWS must be a string or Uint8Array")
    end in
  if negb (String.eqb scopeNeeded EmptyString) then
    let* scopes := scopesOf payload in
    if existsb (String.eqb scopeNeeded) scopes then Normal payload
    else Throw (ErrorWithStatus "Forbidden: missing scope" 403)
  else Normal payload.

(** [verifyAuth], lines 135-166. *)
Definition verifyAuth (authHeader : option string) (scopeNeeded : string)
  : Completion value :=
  if negb (truthy_env (AUTH0_DOMAIN cfg)) || negb (truthy_env (AUTH0_AUDIENCE cfg))
  then Throw (ErrorWithStatus "Auth not configured" 500)
  else if negb (truthy_env authHeader)
          || negb (startsWith "bearer " (toLowerCase (env_string authHeader)))
  then Throw (ErrorWithStatus "Unauthorized" 401)
  else
    match verifyToken (nth_error (split_space (env_string authHeader)) 1)
                      scopeNeeded with
    | Normal payload => Normal payload
    | Throw _ => Throw (ErrorWithStatus "Unauthorized" 401)
    end.

(** Lines 43-51: whether the caller sees the drafts. *)
Definition elevated (event : Event) : bool :=
  match includeDrafts event with
  | Some q =>
      if String.eqb q "1" && truthy_env (authorization event) then
        match verifyAuth (authorization event) "inventory:read" with
        | Normal _ => true
        | Throw _ => false
        end
      else false
  | None => false
  end.

(** [list.filter((i) => i.status !== 'Draft')] *)
Definition withoutDrafts (l : list value) : Completion (list value) :=
  filterC (fun i => let* st := getProp i "status" in
                    Normal (negb (is_string "Draft" st))) l.

Definition readFailure (err : JsError) : Response :=
  resp 500 (errorDetail "Failed to read inventory" (message err)) [].

(** [handleGet], lines 42-62. *)
Definition handleGet (event : Event) (st : Store) : Completion Response * Store :=
  let drafts := elevated event in
  match store_get KEY st with
  | (Throw err, st1) => (Normal (readFailure err), st1)
  | (Normal raw, st1) =>
      if negb (truthy_env raw) then (Normal (resp 200 (JArray []) noCache), st1)
      else
        match JSON_parse (env_string raw) with
        | Throw err => (Normal (readFailure err), st1)
        | Normal data =>
            let list := match data with JArray l => l | _ => [] end in
            if drafts then (Normal (resp 200 (JArray list) noCache), st1)
            else
              match withoutDrafts list with
              | Throw err => (Normal (readFailure err), st1)
              | Normal filtered =>
                  (Normal (resp 200 (JArray filtered) noCache), st1)
              end
        end
  end.

(** Lines 96-102: a failed read or parse leaves [existing] as [[]]. *)
Definition loadExisting (st : Store) : value * Store :=
  match store_get KEY st with
  | (Throw _, st1) => (JArray [], st1)
  | (Normal raw, st1) =>
      if truthy_env raw then
        match JSON_parse (env_string raw) with
        | Normal v => (v, st1)
        | Throw _ => (JArray [], st1)
        end
      else (JArray [], st1)
  end.

Definition bodyText (event : Event) : string :=
  if truthy_env (body event) then env_string (body event) else "{}".

(** Lines 108-115 *)
Definition persist (merged : list value) (st : Store)
  : Completion Response * Store :=
  match store_set KEY (JSON_stringify_indent2 (JArray merged)) st with
  | (Normal _, st2) => (Normal (resp 200 (JArray merged) noCache), st2)
  | (Throw err, st2) =>
      (Normal (resp 500 (errorDetail "Failed to write inventory" (message err)) []),
       st2)
  end.

(** [handlePost], lines 64-116. *)
Definition handlePost (event : Event) (st : Store) : Completion Response * Store :=
  match verifyAuth (authorization event) "inventory:write" with
  | Throw err =>
      (Normal (resp (status_or err 401)
                    (errorBody (message_or err "Unauthorized")) []), st)
  | Normal _ =>
      match JSON_parse (bodyText event) with
      | Throw _ => (Normal (resp 400 (errorBody "Invalid JSON") []), st)
      | Normal payload =>
          match selectIncoming payload with
          | Throw e => (Throw e, st)
          | Normal None =>
              (Normal (resp 400
                 (errorBody "Body must be array, {items:[]}, or {item:{}}") []),
               st)
          | Normal (Some items) =>
              match mapC normalizeItem items with
              | Throw e => (Throw e, st)
              | Normal incoming =>
                  match validationErrors incoming with
                  | (_ :: _) as errs =>
                      (Normal (resp 400
                         (JObject [("error", JString "Validation failed");
                                   ("details", JArray (map JString errs))]) []),
                       st)
                  | [] =>
                      let (existing, st1) := loadExisting st in
                      match mergeInventory existing incoming with
                      | Throw e => (Throw e, st1)
                      | Normal merged => persist merged st1
                      end
                  end
              end
          end
      end
  end.

(** [exports.handler], lines 33-40. *)
Definition handler (event : Event) (st : Store) : Completion Response * Store :=
  if String.eqb (httpMethod event) "OPTIONS" then
    (Normal {| statusCode := 200; headers := corsHeaders [];
               resp_body := None |}, st)
  else if String.eqb (httpMethod event) "GET" then handleGet event st
  else if String.eqb (httpMethod event) "POST" then handlePost event st
  else (Normal (resp 405 (errorBody "Method not allowed") []), st).

End Handlers.

(** ** Vocabulary of the statements *)

(** The call [c] appended to the record of the store. *)
Definition logged (c : StoreCall) (st : Store) : Store :=
  {| blobs := blobs st; getFault := getFault st; setFault := setFault st;
     calls := calls st ++ [c] |}.

(** The text [text] written under [key], and the call recorded. *)
Definition written (key text : string) (st : Store) : Store :=
  {| blobs := <[key := text]> (blobs st); getFault := getFault st;
     setFault := setFault st;
     calls := calls st ++ [CallSet key text] |}.

(** [fs] is the shallow merge of [efs] under [item]: the properties of
    [item] with the values of [item], the other properties of [efs] with
    the values of [efs], and nothing else. *)
Definition field_merge (efs item fs : list (string * value)) : Prop :=
  forall f,
    lookupField f fs
    = match lookupField f item with
      | Some v => Some v
      | None => lookupField f efs
      end.

(** [i.id], for a record whose properties can be read. *)
Definition idOf (v : value) : value :=
  match getProp v "id" with
  | Normal k => k
  | Throw _ => JUndefined
  end.

(** The records whose properties can be read: all but [null]. *)
Definition readable (v : value) : bool :=
  match v with
  | JUndefined | JNull => false
  | _ => true
  end.

Definition primitive (v : value) : bool :=
  match v with
  | JArray _ | JObject _ => false
  | _ => true
  end.

(** A record whose [status] is the string [Draft]. *)
Definition is_draft (v : value) : bool :=
  match v with
  | JObject fs => is_string "Draft" (getField "status" fs)
  | _ => false
  end.

(** The record [v] kept under the key [k], after the items of the batch
    that carry this key have been spread over it, in the order of the
    batch. *)
Definition absorb (k : value) (v : value) (incoming : list (list (string * value)))
  : value :=
  fold_left (fun acc item =>
               if sameValueZero k (getField "id" item)
               then JObject (spread2 acc (JObject item)) else acc)
            incoming v.

(** The ids of the batch that are not among [seen], each once, in the
    order of their first occurrence. *)
Fixpoint newIds (seen : list value) (incoming : list (list (string * value)))
  : list value :=
  match incoming with
  | [] => []
  | item :: t =>
      if existsb (fun k => sameValueZero k (getField "id" item)) seen
      then newIds seen t
      else getField "id" item :: newIds (seen ++ [getField "id" item]) t
  end.

(** The items of the batch whose id is [k]. *)
Definition withId (k : value) (incoming : list (list (string * value)))
  : list (list (string * value)) :=
  List.filter (fun item => sameValueZero k (getField "id" item)) incoming.

(** Keys that [Map] tells apart, each from all the later ones. *)
Definition distinct (keys : list value) : Prop :=
  ForallOrdPairs (fun a b => sameValueZero a b = false) keys.

(** What line 85 makes of an item: an object with each property once,
    whose [id] is a string. *)
Definition normalized (item : list (string * value)) : Prop :=
  List.NoDup (map fst item) /\ exists s, lookupField "id" item = Some (JString s).

(** The entries that line 104 hands to [new Map]. *)
Definition entriesOf (recs : list value) : list (value * value) :=
  map (fun i => (idOf i, i)) recs.

Section Requests.
Context {rt : Runtime} (cfg : Config).

(** An authenticated POST whose body has one of the accepted shapes and
    whose items, once their ids are normalised, pass the validation:
    [incoming] is the batch that reaches the merge. *)
Definition valid_post (event : Event) (incoming : list (list (string * value)))
  : Prop :=
  exists claims payload items,
    verifyAuth cfg (authorization event) "inventory:write" = Normal claims
    /\ JSON_parse (bodyText event) = Normal payload
    /\ selectIncoming payload = Normal (Some items)
    /\ mapC normalizeItem items = Normal incoming
    /\ validationErrors incoming = [].

(** The inventory document that a read of the store finds and parses. *)
Definition stored_document (st : Store) (doc : value) : Prop :=
  exists raw,
    getFault st = None
    /\ blobs st !! KEY = Some raw
    /\ raw <> EmptyString
    /\ JSON_parse raw = Normal doc.

End Requests.

(** ** A runtime to run the handlers on

    A serialiser in the manner of [JSON.stringify], a parser that knows the
    texts of a given list of documents, and a verifier that knows two
    tokens: enough to evaluate the handlers on concrete requests. *)

Module Demo.

Definition chr (n : N) : string := String (ascii_of_N n) EmptyString.

Definition hex (n : N) : string :=
  chr (if (n <? 10)%N then 48 + n else 87 + n)%N.

(** QuoteJSONString, one code unit. *)
Definition quote_char (c : ascii) : string :=
  let n := code c in
  if (n =? 34)%N then chr 92 +:+ chr 34
  else if (n =? 92)%N then chr 92 +:+ chr 92
  else if (n =? 8)%N then chr 92 +:+ "b"
  else if (n =? 9)%N then chr 92 +:+ "t"
  else if (n =? 10)%N then chr 92 +:+ "n"
  else if (n =? 12)%N then chr 92 +:+ "f"
  else if (n =? 13)%N then chr 92 +:+ "r"
  else if (n <? 32)%N then chr 92 +:+ "u00" +:+ hex (n / 16) +:+ hex (n mod 16)
  else String c EmptyString.

Fixpoint quote_body (s : string) : string :=
  match s with
  | EmptyString => EmptyString
  | String c t => quote_char c +:+ quote_body t
  end.

Definition quote (s : string) : string := chr 34 +:+ quote_body s +:+ chr 34.

Definition wrap (opening closing gap cur : string) (parts : list string)
  : string :=
  match parts with
  | [] => opening +:+ closing
  | _ =>
      if String.eqb gap EmptyString
      then opening +:+ String.concat "," parts +:+ closing
      else opening +:+ chr 10 +:+ cur +:+ gap
           +:+ String.concat ("," +:+ chr 10 +:+ cur +:+ gap) parts
           +:+ chr 10 +:+ cur +:+ closing
  end.

(** SerializeJSONProperty with indentation unit [gap] at indentation [cur];
    [None] is [undefined]. *)
Fixpoint serialize (gap cur : string) (v : value) : option string :=
  match v with
  | JUndefined => None
  | JNull => Some "null"
  | JBool b => Some (if b then "true" else "false")
  | JNumber n => Some (NilZero.string_of_int (Z.to_int n))
  | JString s => Some (quote s)
  | JArray l =>
      Some (wrap "[" "]" gap cur
        (map (fun x => match serialize gap (cur +:+ gap) x with
                       | Some t => t
                       | None => "null"
                       end) l))
  | JObject fs =>
      Some (wrap "{" "}" gap cur
        (flat_map (fun kv =>
           match kv with
           | (k, x) =>
               match serialize gap (cur +:+ gap) x with
               | Some t =>
                   [quote k +:+ ":"
                    +:+ (if String.eqb gap EmptyString then EmptyString else " ")
                    +:+ t]
               | None => []
               end
           end) fs))
  end.

Definition stringify (v : value) : string :=
  match serialize EmptyString EmptyString v with
  | Some t => t
  | None => "undefined"
  end.

Definition stringify_indent2 (v : value) : string :=
  match serialize "  " EmptyString v with
  | Some t => t
  | None => "undefined"
  end.

(** A parser for the texts of the documents [known]. *)
Definition parse_known (known : list value) (text : string) : Completion value :=
  match find (fun v => String.eqb (stringify v) text
                       || String.eqb (stringify_indent2 v) text) known with
  | Some v => Normal v
  | None => Throw (mkError "SyntaxError" "Unexpected token" None)
  end.

Definition issuer : string := "https://tenant.example/".
Definition audience : string := "inventory-api".

Definition claims (scope : string) : value :=
  JObject [("iss", JString issuer); ("aud", JString audience);
           ("scope", JString scope)].

(** The token [writer] carries both scopes, the token [reader] only
    [inventory:read]; nothing else verifies. *)
Definition verify (token iss aud : string) : Completion value :=
  if String.eqb iss issuer && String.eqb aud audience then
    if String.eqb token "writer" then
      Normal (claims "inventory:read inventory:write")
    else if String.eqb token "reader" then Normal (claims "inventory:read")
    else Throw (mkError "JWSInvalid" "Invalid Compact JWS" None)
  else Throw (mkError "JWTClaimValidationFailed" "unexpected claim value" None).

Definition runtime (known : list value) : Runtime :=
  {| JSON_parse := parse_known known;
     JSON_stringify := stringify;
     JSON_stringify_indent2 := stringify_indent2;
     jwtVerify := verify |}.

Definition config : Config :=
  {| AUTH0_DOMAIN := Some "tenant.example";
     AUTH0_AUDIENCE := Some audience |}.

(** A store that holds [doc] as the inventory document. *)
Definition store_with (doc : value) : Store :=
  {| blobs := {[ KEY := stringify_indent2 doc ]};
     getFault := None; setFault := None; calls := [] |}.

Definition empty_store : Store :=
  {| blobs := ∅; getFault := None; setFault := None; calls := [] |}.

Definition post (auth : option string) (payload : value) : Event :=
  {| httpMethod := "POST"; authorization := auth;
     includeDrafts := None; body := Some (stringify payload) |}.

Definition get (auth : option string) (drafts : option string) : Event :=
  {| httpMethod := "GET"; authorization := auth;
     includeDrafts := drafts; body := None |}.

Definition item (fields : list (string * string)) : value :=
  JObject (map (fun kv => (fst kv, JString (snd kv))) fields).

(** *** Requests and documents *)

Definition writer : option string := Some "Bearer writer".
Definition reader : option string := Some "Bearer reader".

Definition mustang : list (string * value) :=
  [("id", JString "a-1"); ("make", JString "Ford");
   ("model", JString "Mustang"); ("status", JString "Available")].

Definition civic : list (string * value) :=
  [("id", JString "honda-civic-2020"); ("make", JString "Honda");
   ("model", JString "Civic"); ("year", JNumber 2020);
   ("status", JString "Draft")].

Definition beetle : list (string * value) :=
  [("make", JString "VW"); ("model", JString "Beetle")].

Definition inventory : value := JArray [JObject mustang; JObject civic].

(** An update of the Mustang, with its id written loosely. *)
Definition mustang_sold : list (string * value) :=
  [("id", JString "A 1"); ("make", JString "Ford");
   ("model", JString "Mustang"); ("status", JString "Sold")].

Definition mustang_sold_normalized : list (string * value) :=
  [("id", JString "a-1"); ("make", JString "Ford");
   ("model", JString "Mustang"); ("status", JString "Sold")].

Definition update : value := JObject [("item", JObject mustang_sold)].

(** The update and a new record. *)
Definition update_and_new : value :=
  JArray [JObject beetle; JObject mustang_sold].

Definition beetle_normalized : list (string * value) :=
  [("make", JString "VW"); ("model", JString "Beetle");
   ("id", JString "vw-beetle")].

(** The example of the specification: an update with no make and no
    model. *)
Definition status_only : value :=
  JObject [("item", JObject [("id", JString "a-1"); ("status", JString "Sold")])].

(** Two items that lack [make]. *)
Definition two_without_make : value :=
  JArray [JObject [("id", JString "x"); ("model", JString "T")];
          JObject [("id", JString "y"); ("model", JString "S")]].

(** A numeric id. *)
Definition numeric_id : value :=
  JArray [JObject [("id", JNumber 5); ("make", JString "Ford");
                   ("model", JString "T")]].

(** Two items of one batch with the same id. *)
Definition red_mustang : list (string * value) :=
  [("id", JString "a-1"); ("make", JString "Ford");
   ("model", JString "Mustang"); ("color", JString "red")].

Definition blue_item : list (string * value) :=
  [("id", JString "a-1"); ("make", JString "Ford");
   ("model", JString "Mustang"); ("color", JString "blue")].

Definition plain_item : list (string * value) :=
  [("id", JString "a-1"); ("make", JString "Ford");
   ("model", JString "Mustang")].

Definition twice : value := JArray [JObject blue_item; JObject plain_item].

(** A stored collection in which an id occurs twice. *)
Definition first_a : value :=
  JObject [("id", JString "a"); ("make", JString "Ford");
           ("model", JString "T"); ("note", JString "first")].

Definition record_b : value :=
  JObject [("id", JString "b"); ("make", JString "Ford"); ("model", JString "A")].

Definition second_a : value :=
  JObject [("id", JString "a"); ("make", JString "Ford");
           ("model", JString "T"); ("note", JString "second")].

Definition repeated : list value := [first_a; record_b; second_a].

(** A stored collection in which two records have the empty array as
    their id. *)
Definition array_ids : list value :=
  [JObject [("id", JArray []); ("n", JNumber 1)];
   JObject [("id", JArray []); ("n", JNumber 2)]].

Definition new_beetle : value := JArray [JObject beetle].

(** An update of the stored Civic that says nothing of its year. *)
Definition civic_available : list (string * value) :=
  [("id", JString "Honda Civic 2020"); ("make", JString "Honda");
   ("model", JString "Civic"); ("status", JString "Available")].

Definition civic_available_normalized : list (string * value) :=
  [("id", JString "honda-civic-2020"); ("make", JString "Honda");
   ("model", JString "Civic"); ("status", JString "Available")].

Definition publish : value := JArray [JObject civic_available].

(** An item with no id whose make cannot be converted to a string, and a
    batch whose first item hides such a make in an array. *)
Definition odd_make : value :=
  JArray [JObject [("make", JObject [("toString", JNumber 1)]);
                   ("model", JString "T")]].

Definition odd_make_nested : value :=
  JArray [JObject [("make", JArray [JObject [("toString", JNull)]])];
          JObject [("model", JString "T")]].

(** The documents whose texts the runtime can parse. *)
Definition documents : list value :=
  [inventory; update; update_and_new; status_only; two_without_make;
   numeric_id; twice; JArray repeated; JArray array_ids; new_beetle;
   JArray [JObject red_mustang]; publish; odd_make; odd_make_nested; JNull;
   JObject []].

Definition rt : Runtime := runtime documents.

End Demo.

(** ** The upload function

    [netlify/functions/upload.js]: its handler, lines 13-33.  The function
    has its own copies of [corsHeaders], [resp] and [verifyAuth], the same
    as those of the inventory function, and opens the same store under
    another key. *)

Definition UPLOADS_KEY : string := "uploads.json".

(** [arr[name] = v] on an array, as the serialisation that follows sees
    the array (an index may grow it, [length] may cut it or be refused, any
    other name leaves its elements alone): a built-in of the engine. *)
Class ArrayAssign : Type := {
  array_assign : list value -> string -> value -> Completion value
}.

(** [const { filename, url } = body], line 21.  Neither name is a property
    of a boolean, a number, a string or an array. *)
Definition destructure (body : value) : Completion (value * value) :=
  match body with
  | JUndefined =>
      Throw (TypeError
        "Cannot destructure property 'filename' of 'body' as it is undefined.")
  | JNull =>
      Throw (TypeError
        "Cannot destructure property 'filename' of 'body' as it is null.")
  | JObject fs => Normal (getField "filename" fs, getField "url" fs)
  | JBool _ | JNumber _ | JString _ | JArray _ => Normal (JUndefined, JUndefined)
  end.

(** ToPropertyKey of a value of a parsed document: no value of it is a
    symbol, so the key is its ToString. *)
Definition toPropertyKey (v : value) : Completion string := ToString v.

(** The array index that a property name is, if it is one: the canonical
    decimal form of an integer below [2^32 - 1]. *)
Definition array_index (name : string) : option N :=
  match NilEmpty.uint_of_string name with
  | Some d =>
      if String.eqb (NilZero.string_of_uint (N.to_uint (N.of_uint d))) name
         && (N.of_uint d <? 4294967295)%N
      then Some (N.of_uint d) else None
  | None => None
  end.

(** A new property whose name is the array index [i]: the object lists
    such properties first, by ascending index. *)
Fixpoint insert_index (i : N) (name : string) (v : value)
    (fs : list (string * value)) : list (string * value) :=
  match fs with
  | [] => [(name, v)]
  | (k, w) :: t =>
      match array_index k with
      | Some j =>
          if (j <? i)%N then (k, w) :: insert_index i name v t
          else (name, v) :: fs
      | None => (name, v) :: fs
      end
  end.

(** [o[name] = v] on a plain object.  A property that exists keeps its
    place; a new one comes last, or among the array indices.  The name
    [__proto__] reaches the accessor of [Object.prototype] unless the object
    has a property of its own with this name: the object then gets no new
    property. *)
Definition assignField (name : string) (v : value) (fs : list (string * value))
  : list (string * value) :=
  match lookupField name fs with
  | Some _ => setField name v fs
  | None =>
      if String.eqb name "__proto__" then fs
      else match array_index name with
           | Some i => insert_index i name v fs
           | None => setField name v fs
           end
  end.

Section Upload.
Context {rt : Runtime} {aa : ArrayAssign} (cfg : Config).

(** [target[key] = v], line 30: the target is checked before the key is
    converted (the message is the one of V8 for a string key).  The file has
    no strict-mode directive, so the assignment to a property of a primitive
    is dropped in silence. *)
Definition assignProperty (target key v : value) : Completion value :=
  match target with
  | JUndefined =>
      Throw (TypeError
        ("Cannot set properties of undefined (setting '"
         +:+ toString key +:+ "')"))
  | JNull =>
      Throw (TypeError
        ("Cannot set properties of null (setting '" +:+ toString key +:+ "')"))
  | JObject fs =>
      let* name := toPropertyKey key in
      Normal (JObject (assignField name v fs))
  | JArray l =>
      let* name := toPropertyKey key in
      array_assign l name v
  | JBool _ | JNumber _ | JString _ =>
      let* name := toPropertyKey key in
      Normal target
  end.

(** Lines 24-28: a failed read or parse leaves [uploads] as [{}]. *)
Definition loadUploads (st : Store) : value * Store :=
  match store_get UPLOADS_KEY st with
  | (Throw _, st1) => (JObject [], st1)
  | (Normal raw, st1) =>
      if truthy_env raw then
        match JSON_parse (env_string raw) with
        | Normal v => (v, st1)
        | Throw _ => (JObject [], st1)
        end
      else (JObject [], st1)
  end.

(** Lines 30-32: nothing catches what the assignment or the write throws. *)
Definition recordUpload (filename url : value) (st : Store)
  : Completion Response * Store :=
  let (uploads, st1) := loadUploads st in
  match assignProperty uploads filename url with
  | Throw e => (Throw e, st1)
  | Normal uploads' =>
      match store_set UPLOADS_KEY (JSON_stringify_indent2 uploads') st1 with
      | (Throw e, st2) => (Throw e, st2)
      | (Normal _, st2) =>
          (Normal (resp 200 (JObject [("ok", JBool true); ("url", url)]) []),
           st2)
      end
  end.

(** [exports.handler] of the upload function, lines 13-33. *)
Definition uploadHandler (event : Event) (st : Store)
  : Completion Response * Store :=
  if String.eqb (httpMethod event) "OPTIONS" then
    (Normal {| statusCode := 200; headers := corsHeaders [];
               resp_body := None |}, st)
  else
    match verifyAuth cfg (authorization event) "inventory:write" with
    | Throw err =>
        (Normal (resp (status_or err 401)
                      (errorBody (message_or err "Unauthorized")) []), st)
    | Normal _ =>
        if negb (String.eqb (httpMethod event) "POST") then
          (Normal (resp 405 (errorBody "Method not allowed") []), st)
        else
          match JSON_parse (bodyText event) with
          | Throw _ => (Normal (resp 400 (errorBody "Invalid JSON") []), st)
          | Normal payload =>
              match destructure payload with
              | Throw e => (Throw e, st)
              | Normal (filename, url) =>
                  if negb (truthy filename) || negb (truthy url) then
                    (Normal (resp 400 (errorBody "filename and url required") []),
                     st)
                  else recordUpload filename url st
              end
          end
    end.

End Upload.

(** ** Vocabulary of the further statements *)

(** The pieces of a string between its characters outside [[a-z0-9]]
    (some of them empty), and its words: the pieces that are not. *)
Fixpoint pieces (s : string) : list string :=
  match s with
  | EmptyString => [EmptyString]
  | String c t =>
      if is_alnum c then
        match pieces t with
        | [] => [String c EmptyString]
        | w :: ws => String c w :: ws
        end
      else EmptyString :: pieces t
  end.

Definition nonempty (s : string) : bool := negb (String.eqb s EmptyString).

Definition alnum_words (s : string) : list string :=
  List.filter nonempty (pieces s).

(** A record of the collection that the validation accepts: an object,
    each property once, no message from [validateItem]. *)
Definition valid_record (r : value) : Prop :=
  exists fs, r = JObject fs /\ List.NoDup (map fst fs) /\ validateItem fs = [].

(** The three headers of [corsHeaders]. *)
Definition has_cors (r : Response) : Prop :=
  lookupField "Access-Control-Allow-Origin" (headers r) = Some "*"
  /\ lookupField "Access-Control-Allow-Methods" (headers r)
     = Some "GET,POST,OPTIONS"
  /\ lookupField "Access-Control-Allow-Headers" (headers r)
     = Some "Content-Type,Authorization".

(** The request of a caller who sends no token and asks for no draft. *)
Definition anonymous (event : Event) : Event :=
  {| httpMethod := httpMethod event; authorization := None;
     includeDrafts := None; body := body event |}.

(** ** A runtime to run the upload function on *)

Module UploadDemo.

Fixpoint put_at (i : nat) (v : value) (l : list value) : list value :=
  match i, l with
  | O, [] => [v]
  | O, _ :: t => v :: t
  | S j, [] => JUndefined :: put_at j v []
  | S j, x :: t => x :: put_at j v t
  end.

(** Array assignment for an index (a hole serialises like [undefined]),
    for a number as the new [length], and for the other names; any other
    new [length] is refused here. *)
Definition assign (l : list value) (name : string) (v : value)
  : Completion value :=
  match array_index name with
  | Some i => Normal (JArray (put_at (N.to_nat i) v l))
  | None =>
      if String.eqb name "length" then
        match v with
        | JNumber n =>
            if (0 <=? n) && (n <? 4294967296)
            then Normal (JArray (firstn (Z.to_nat n) l
                                 ++ repeat JUndefined (Z.to_nat n - List.length l)))
            else Throw (mkError "RangeError" "Invalid array length" None)
        | _ => Throw (mkError "RangeError" "Invalid array length" None)
        end
      else Normal (JArray l)
  end.

Definition arrays : ArrayAssign := {| array_assign := assign |}.

Definition photo : value :=
  JObject [("filename", JString "front.jpg");
           ("url", JString "https://cdn.example/front.jpg")].

Definition photo_again : value :=
  JObject [("filename", JString "front.jpg");
           ("url", JString "https://cdn.example/front-2.jpg")].

Definition no_url : value := JObject [("filename", JString "front.jpg")].

Definition uploads : value :=
  JObject [("rear.jpg", JString "https://cdn.example/rear.jpg");
           ("front.jpg", JString "https://cdn.example/old.jpg")].

Definition proto_photo : value :=
  JObject [("filename", JString "__proto__");
           ("url", JString "https://cdn.example/front.jpg")].

Definition numbered : value :=
  JObject [("filename", JNumber 7);
           ("url", JString "https://cdn.example/7.jpg")].

Definition odd_name : value :=
  JObject [("filename", JObject [("toString", JNumber 1)]);
           ("url", JString "https://cdn.example/front.jpg")].

Definition numbered_uploads : value :=
  JObject [("3", JString "https://cdn.example/3.jpg");
           ("12", JString "https://cdn.example/12.jpg");
           ("rear.jpg", JString "https://cdn.example/rear.jpg")].

Definition documents : list value :=
  [photo; photo_again; no_url; proto_photo; numbered; odd_name; uploads;
   numbered_uploads; Demo.inventory; JNull; JObject []].

Definition rt : Runtime := Demo.runtime documents.

(** A store that holds [doc] as the uploads document and the demo
    inventory as the inventory document. *)
Definition store_with (doc : value) : Store :=
  {| blobs := <[UPLOADS_KEY := Demo.stringify_indent2 doc]>
                {[ KEY := Demo.stringify_indent2 Demo.inventory ]};
     getFault := None; setFault := None; calls := [] |}.

Definition request (method : string) (auth : option string) (payload : value)
  : Event :=
  {| httpMethod := method; authorization := auth;
     includeDrafts := None; body := Some (Demo.stringify payload) |}.

End UploadDemo.

(** * Properties *)

(** ** Identifier normalisation *)

Example normalizeId_ford : normalizeId "Ford  Mustang!" = "ford-mustang".
Proof. reflexivity. Qed.

Example normalizeId_spaces : normalizeId "  --A_1--  " = "a-1".
Proof. reflexivity. Qed.

Example normalizeId_punct : normalizeId "!!!" = EmptyString.
Proof. reflexivity. Qed.

Example normalizeId_latin1 :
  normalizeId (String (ascii_of_N 201) "t" +:+ String (ascii_of_N 160) "X") = "t-x".
Proof. reflexivity. Qed.

Example split_space_ex : split_space "Bearer  x" = ["Bearer"; EmptyString; "x"].
Proof. reflexivity. Qed.

Module NormalForm.

Ltac by_char_cases c :=
  destruct c as [[|] [|] [|] [|] [|] [|] [|] [|]];
  vm_compute; intros; congruence.

Lemma hyphen_is (c : ascii) : is_hyphen c = true -> c = "-"%char.
Proof. by_char_cases c. Qed.

Lemma alnum_not_hyphen (c : ascii) : is_alnum c = true -> is_hyphen c = false.
Proof. by_char_cases c. Qed.

Lemma alnum_not_white (c : ascii) : is_alnum c = true -> is_white c = false.
Proof. by_char_cases c. Qed.

Lemma alnum_not_upper (c : ascii) : is_alnum c = true -> is_upper c = false.
Proof. by_char_cases c. Qed.

Lemma hyphen_not_upper (c : ascii) : is_hyphen c = true -> is_upper c = false.
Proof. by_char_cases c. Qed.

Lemma hyphen_not_white (c : ascii) : is_hyphen c = true -> is_white c = false.
Proof. by_char_cases c. Qed.

Lemma closed_separated (a : bool) (s : string) :
  closed a s = true -> separated a s = true.
Proof.
  revert a. induction s as [|c t IH]; intros a H; simpl in *; [reflexivity|].
  destruct (is_alnum c); [now apply IH|].
  apply andb_true_iff in H as [H1 H2]. rewrite H1. now apply IH.
Qed.

(** What each step of [normalizeId] produces. *)

Lemma collapse_separated (b : bool) (s : string) :
  separated b (collapse b s) = true.
Proof.
  revert b. induction s as [|c t IH]; intros b; simpl; [reflexivity|].
  destruct (is_alnum c) eqn:Ec; simpl.
  - rewrite Ec. apply IH.
  - destruct b; [apply IH|]. simpl. apply IH.
Qed.

Lemma drop_start_separated (a : bool) (s : string) :
  separated a s = true -> separated true (drop_start is_hyphen s) = true.
Proof.
  revert a. induction s as [|c t IH]; intros a H; simpl in *; [reflexivity|].
  destruct (is_alnum c) eqn:Ec.
  - rewrite (alnum_not_hyphen c Ec). simpl. now rewrite Ec.
  - apply andb_true_iff in H as [H1 H2]. apply andb_true_iff in H1 as [Hh _].
    rewrite Hh. now apply (IH true).
Qed.

Lemma drop_end_closed (a : bool) (s : string) :
  separated a s = true ->
  drop_end is_hyphen s = EmptyString \/ closed a (drop_end is_hyphen s) = true.
Proof.
  revert a. induction s as [|c t IH]; intros a H; simpl in *; [now left|].
  destruct (is_alnum c) eqn:Ec.
  - right. destruct (IH false H) as [E|E].
    + rewrite E, (alnum_not_hyphen c Ec). simpl. now rewrite Ec.
    + destruct (drop_end is_hyphen t) eqn:Et.
      * rewrite (alnum_not_hyphen c Ec). simpl. now rewrite Ec.
      * simpl in *. now rewrite Ec.
  - apply andb_true_iff in H as [H1 H2]. apply andb_true_iff in H1 as [Hh Ha].
    destruct (IH true H2) as [E|E].
    + left. now rewrite E, Hh.
    + right. destruct (drop_end is_hyphen t) eqn:Et; simpl in *; [discriminate|].
      rewrite Ec, Hh, Ha. simpl. exact E.
Qed.

Lemma normalizeId_normal_form (s : string) : normal_form (normalizeId s).
Proof.
  unfold normal_form, normalizeId, strip_hyphens, replace_non_alnum_runs.
  apply drop_end_closed.
  apply (drop_start_separated false), collapse_separated.
Qed.

(** Each step of [normalizeId] leaves a normal form as it is. *)

Lemma closed_toLowerCase (a : bool) (s : string) :
  closed a s = true -> toLowerCase s = s.
Proof.
  revert a. induction s as [|c t IH]; intros a H; simpl in *; [reflexivity|].
  unfold lower_char. destruct (is_alnum c) eqn:Ec.
  - rewrite (alnum_not_upper c Ec). f_equal. now apply (IH false).
  - apply andb_true_iff in H as [H1 H2]. apply andb_true_iff in H1 as [Hh _].
    rewrite (hyphen_not_upper c Hh). f_equal. now apply (IH true).
Qed.

Lemma closed_drop_start (p : ascii -> bool) (s : string) :
  (forall c, is_alnum c = true -> p c = false) ->
  closed true s = true -> drop_start p s = s.
Proof.
  intros Hp H. destruct s as [|c t]; simpl in *; [reflexivity|].
  destruct (is_alnum c) eqn:Ec; [now rewrite (Hp c Ec)|].
  rewrite andb_false_r in H. discriminate.
Qed.

Lemma closed_drop_end (p : ascii -> bool) (a : bool) (s : string) :
  (forall c, is_alnum c = true -> p c = false) ->
  closed a s = true -> drop_end p s = s.
Proof.
  intros Hp. revert a. induction s as [|c t IH]; intros a H; simpl in *;
    [reflexivity|].
  destruct (is_alnum c) eqn:Ec.
  - rewrite (IH false H). destruct t; [now rewrite (Hp c Ec)|reflexivity].
  - apply andb_true_iff in H as [H1 H2].
    rewrite (IH true H2). destruct t; [discriminate H2|reflexivity].
Qed.

Lemma closed_collapse (a : bool) (s : string) :
  closed a s = true -> collapse a s = s.
Proof.
  revert a. induction s as [|c t IH]; intros a H; simpl in *; [reflexivity|].
  destruct (is_alnum c) eqn:Ec.
  - f_equal. now apply IH.
  - apply andb_true_iff in H as [H1 H2]. apply andb_true_iff in H1 as [Hh Ha].
    destruct a; [discriminate Ha|].
    rewrite (hyphen_is c Hh). f_equal. now apply IH.
Qed.

Lemma closed_weaken (s : string) : closed true s = true -> closed false s = true.
Proof.
  destruct s as [|c t]; simpl; [discriminate|].
  destruct (is_alnum c); [easy|]. rewrite andb_false_r. discriminate.
Qed.

Lemma normal_form_fixed (s : string) : normal_form s -> normalizeId s = s.
Proof.
  intros [->|H]; [reflexivity|].
  unfold normalizeId, strip_hyphens, replace_non_alnum_runs, trim.
  rewrite (closed_toLowerCase true s H).
  rewrite (closed_drop_start is_white s alnum_not_white H).
  rewrite (closed_drop_end is_white true s alnum_not_white H).
  rewrite (closed_collapse false s (closed_weaken s H)).
  rewrite (closed_drop_start is_hyphen s alnum_not_hyphen H).
  apply (closed_drop_end is_hyphen true s alnum_not_hyphen H).
Qed.

End NormalForm.

(** C6. [normalizeId] is idempotent: normalising a normalised identifier
    gives it back, for every string. *)
Theorem normalizeId_idempotent (s : string) :
  normalizeId (normalizeId s) = normalizeId s.
Proof.
  apply NormalForm.normal_form_fixed, NormalForm.normalizeId_normal_form.
Qed.

(** ** The verifier *)

Section VerifierProperties.
Context {rt : Runtime} (cfg : Config).

(** Whatever goes wrong, the verifier fails with one of two errors. *)
Lemma verifyAuth_failures (authHeader : option string) (scopeNeeded : string)
    (err : JsError) :
  verifyAuth cfg authHeader scopeNeeded = Throw err ->
  err = ErrorWithStatus "Auth not configured" 500
  \/ err = ErrorWithStatus "Unauthorized" 401.
Proof.
  unfold verifyAuth. intros H.
  destruct (negb (truthy_env (AUTH0_DOMAIN cfg))
            || negb (truthy_env (AUTH0_AUDIENCE cfg))).
  - left. congruence.
  - right.
    destruct (negb (truthy_env authHeader)
              || negb (startsWith "bearer " (toLowerCase (env_string authHeader)))).
    + congruence.
    + destruct (verifyToken cfg _ scopeNeeded); congruence.
Qed.

Lemma verifyAuth_not_configured (authHeader : option string) (scopeNeeded : string) :
  truthy_env (AUTH0_DOMAIN cfg) = false \/ truthy_env (AUTH0_AUDIENCE cfg) = false ->
  verifyAuth cfg authHeader scopeNeeded
  = Throw (ErrorWithStatus "Auth not configured" 500).
Proof.
  unfold verifyAuth. intros [-> | ->]; [reflexivity|].
  now rewrite orb_true_r.
Qed.

Lemma verifyAuth_missing_header (scopeNeeded : string) :
  truthy_env (AUTH0_DOMAIN cfg) = true ->
  truthy_env (AUTH0_AUDIENCE cfg) = true ->
  verifyAuth cfg None scopeNeeded = Throw (ErrorWithStatus "Unauthorized" 401).
Proof. unfold verifyAuth. now intros -> ->. Qed.

Lemma verifyAuth_malformed_header (h scopeNeeded : string) :
  truthy_env (AUTH0_DOMAIN cfg) = true ->
  truthy_env (AUTH0_AUDIENCE cfg) = true ->
  startsWith "bearer " (toLowerCase h) = false ->
  verifyAuth cfg (Some h) scopeNeeded = Throw (ErrorWithStatus "Unauthorized" 401).
Proof.
  unfold verifyAuth. intros -> -> Hb. cbn [env_string negb orb].
  rewrite Hb. now rewrite orb_true_r.
Qed.

Lemma verifyAuth_invalid_token (h scopeNeeded token : string) (e : JsError) :
  truthy_env (AUTH0_DOMAIN cfg) = true ->
  truthy_env (AUTH0_AUDIENCE cfg) = true ->
  startsWith "bearer " (toLowerCase h) = true ->
  nth_error (split_space h) 1 = Some token ->
  jwtVerify token (env_string (ISSUER cfg)) (env_string (AUTH0_AUDIENCE cfg))
  = Throw e ->
  verifyAuth cfg (Some h) scopeNeeded = Throw (ErrorWithStatus "Unauthorized" 401).
Proof.
  unfold verifyAuth. intros -> -> Hb Ht Hv. cbn [env_string negb orb].
  rewrite Hb. cbn [negb]. rewrite orb_false_r.
  destruct (negb (truthy_env (Some h))); [reflexivity|].
  unfold verifyToken. now rewrite Ht, Hv.
Qed.

(** C1. A token that passes the verification of jose but whose [scope]
    claim lacks the required scope: the [403] error is thrown inside the
    [try] block, whose [catch] replaces it, so that the verifier fails
    with [Unauthorized] and status [401]. *)
Theorem verifyAuth_missing_scope_is_401 (h scopeNeeded token : string)
    (payload : value) (scopes : list string) :
  truthy_env (AUTH0_DOMAIN cfg) = true ->
  truthy_env (AUTH0_AUDIENCE cfg) = true ->
  h <> EmptyString ->
  startsWith "bearer " (toLowerCase h) = true ->
  nth_error (split_space h) 1 = Some token ->
  jwtVerify token (env_string (ISSUER cfg)) (env_string (AUTH0_AUDIENCE cfg))
  = Normal payload ->
  scopeNeeded <> EmptyString ->
  scopesOf payload = Normal scopes ->
  ~ In scopeNeeded scopes ->
  verifyToken cfg (Some token) scopeNeeded
  = Throw (ErrorWithStatus "Forbidden: missing scope" 403)
  /\ verifyAuth cfg (Some h) scopeNeeded
     = Throw (ErrorWithStatus "Unauthorized" 401).
Proof.
  intros Hd Ha Hh Hb Ht Hv Hs Hp Hn.
  assert (Hx : existsb (String.eqb scopeNeeded) scopes = false).
  { apply not_true_is_false. intros Hx. apply existsb_exists in Hx as [x [Hx1 Hx2]].
    apply String.eqb_eq in Hx2. now subst x. }
  assert (Htok : verifyToken cfg (Some token) scopeNeeded
                 = Throw (ErrorWithStatus "Forbidden: missing scope" 403)).
  { unfold verifyToken. rewrite Hv. simpl.
    apply String.eqb_neq in Hs. rewrite Hs. simpl.
    rewrite Hp. simpl. now rewrite Hx. }
  split; [exact Htok|].
  unfold verifyAuth. rewrite Hd, Ha. cbn [env_string truthy_env negb orb].
  rewrite Hb. apply String.eqb_neq in Hh. rewrite Hh. cbn [negb orb].
  now rewrite Ht, Htok.
Qed.

End VerifierProperties.

(** The token [reader] verifies and carries [inventory:read] only. *)
Lemma verifyAuth_missing_scope_is_401_witness :
  verifyToken (rt := Demo.rt) Demo.config (Some "reader") "inventory:write"
  = Throw (ErrorWithStatus "Forbidden: missing scope" 403)
  /\ verifyAuth (rt := Demo.rt) Demo.config (Some "Bearer reader")
       "inventory:write"
     = Throw (ErrorWithStatus "Unauthorized" 401).
Proof.
  apply (verifyAuth_missing_scope_is_401 (rt := Demo.rt) Demo.config
           "Bearer reader" "inventory:write" "reader"
           (Demo.claims "inventory:read") ["inventory:read"]);
    try reflexivity; try discriminate.
  simpl. intros [H|[]]. discriminate H.
Defined.

(** ** Validation *)

(** The messages of a batch are the messages of its items, each with the
    position of its item, and no others. *)
Lemma validationErrorsFrom_In (idx : nat)
    (incoming : list (list (string * value))) (m : string) :
  In m (validationErrorsFrom idx incoming)
  <-> exists i item msg,
        nth_error incoming i = Some item
        /\ In msg (validateItem item)
        /\ m = "item " +:+ string_of_nat (idx + i) +:+ ": " +:+ msg.
Proof.
  revert idx. induction incoming as [|item t IH]; intros idx; cbn [validationErrorsFrom].
  - split; [intros []|]. intros (i & it & msg & H & _). now destruct i.
  - rewrite List.in_app_iff, List.in_map_iff, IH. split.
    + intros [(msg & <- & Hmsg)|(i & it & msg & Hn & Hmsg & ->)].
      * exists 0%nat, item, msg. rewrite Nat.add_0_r. now repeat split.
      * exists (S i), it, msg. rewrite Nat.add_succ_r. now repeat split.
    + intros (i & it & msg & Hn & Hmsg & ->). destruct i as [|i]; simpl in Hn.
      * injection Hn as <-. left. exists msg. rewrite Nat.add_0_r. now split.
      * right. exists i, it, msg. rewrite Nat.add_succ_r. now repeat split.
Qed.

Lemma validationErrors_In (incoming : list (list (string * value))) (m : string) :
  In m (validationErrors incoming)
  <-> exists i item msg,
        nth_error incoming i = Some item
        /\ In msg (validateItem item)
        /\ m = "item " +:+ string_of_nat i +:+ ": " +:+ msg.
Proof. apply (validationErrorsFrom_In 0). Qed.

(** One message for each violation. *)
Lemma validationErrorsFrom_length (idx : nat)
    (incoming : list (list (string * value))) :
  List.length (validationErrorsFrom idx incoming)
  = list_sum (map (fun item => List.length (validateItem item)) incoming).
Proof.
  revert idx. induction incoming as [|item t IH]; intros idx; [reflexivity|].
  cbn [validationErrorsFrom map list_sum].
  now rewrite List.length_app, List.length_map, IH.
Qed.

(** ** Routing *)

Section RoutingProperties.
Context {rt : Runtime} (cfg : Config).

Lemma handler_POST (event : Event) (st : Store) :
  httpMethod event = "POST" -> handler cfg event st = handlePost cfg event st.
Proof. intros H. unfold handler. now rewrite H. Qed.

Lemma handler_GET (event : Event) (st : Store) :
  httpMethod event = "GET" -> handler cfg event st = handleGet cfg event st.
Proof. intros H. unfold handler. now rewrite H. Qed.

Lemma handler_other (event : Event) (st : Store) :
  httpMethod event <> "OPTIONS" -> httpMethod event <> "GET" ->
  httpMethod event <> "POST" ->
  handler cfg event st
  = (Normal (resp 405 (errorBody "Method not allowed") []), st).
Proof.
  intros H1 H2 H3. unfold handler.
  apply String.eqb_neq in H1, H2, H3. now rewrite H1, H2, H3.
Qed.

End RoutingProperties.

(** ** The handlers: requests that are turned away *)

Section RejectionProperties.
Context {rt : Runtime} (cfg : Config).

(** C2. A POST whose authorization fails, for whatever reason, is answered
    with the status of the failure; the store is left as it was and no
    call is made on it. *)
Theorem handlePost_unauthorized_keeps_store (event : Event) (st : Store)
    (err : JsError) :
  verifyAuth cfg (authorization event) "inventory:write" = Throw err ->
  exists code,
    status err = Some code
    /\ handlePost cfg event st
       = (Normal (resp code (errorBody (message err)) []), st)
    /\ statusCode (resp code (errorBody (message err)) []) = code.
Proof.
  intros H. unfold handlePost. rewrite H.
  destruct (verifyAuth_failures cfg _ _ _ H) as [-> | ->].
  - exists 500. repeat split.
  - exists 401. repeat split.
Qed.

Lemma handlePost_invalid_json (event : Event) (st : Store)
    (claims : value) (e : JsError) :
  verifyAuth cfg (authorization event) "inventory:write" = Normal claims ->
  JSON_parse (bodyText event) = Throw e ->
  handlePost cfg event st = (Normal (resp 400 (errorBody "Invalid JSON") []), st).
Proof. intros Ha Hp. unfold handlePost. now rewrite Ha, Hp. Qed.

(** Every parsed body but [null] is either accepted or refused. *)
Lemma selectIncoming_returns (payload : value) :
  readable payload = true -> exists r, selectIncoming payload = Normal r.
Proof.
  destruct payload; try discriminate; intros _; simpl; eauto.
  destruct (getField "items" fields); simpl; eauto;
    destruct (truthy (getField "item" fields)); eauto.
Qed.

Lemma handlePost_other_shape (event : Event) (st : Store)
    (claims payload : value) :
  verifyAuth cfg (authorization event) "inventory:write" = Normal claims ->
  JSON_parse (bodyText event) = Normal payload ->
  selectIncoming payload = Normal None ->
  handlePost cfg event st
  = (Normal (resp 400
       (errorBody "Body must be array, {items:[]}, or {item:{}}") []), st).
Proof. intros Ha Hp Hs. unfold handlePost. now rewrite Ha, Hp, Hs. Qed.

(** C9. The body [null] parses, has none of the three shapes, and is not
    answered with [400]: reading [payload.items] throws a [TypeError] that
    nothing catches. *)
Theorem handlePost_null_body_throws (event : Event) (st : Store)
    (claims : value) :
  verifyAuth cfg (authorization event) "inventory:write" = Normal claims ->
  JSON_parse (bodyText event) = Normal JNull ->
  handlePost cfg event st
  = (Throw (TypeError "Cannot read properties of null (reading 'items')"), st).
Proof. intros Ha Hp. unfold handlePost. now rewrite Ha, Hp. Qed.

(** The batch that fails the validation is answered with [400] and with
    every message of every item; the store is not touched. *)
Lemma handlePost_validation_failed (event : Event) (st : Store)
    (claims payload : value) (items : list value)
    (incoming : list (list (string * value))) :
  verifyAuth cfg (authorization event) "inventory:write" = Normal claims ->
  JSON_parse (bodyText event) = Normal payload ->
  selectIncoming payload = Normal (Some items) ->
  mapC normalizeItem items = Normal incoming ->
  validationErrors incoming <> [] ->
  handlePost cfg event st
  = (Normal (resp 400
       (JObject [("error", JString "Validation failed");
                 ("details", JArray (map JString (validationErrors incoming)))])
       []), st).
Proof.
  intros Ha Hp Hs Hn Hv. unfold handlePost. rewrite Ha, Hp, Hs, Hn.
  destruct (validationErrors incoming); [contradiction|reflexivity].
Qed.

(** C7. An item whose [id] is a number other than zero is invalid, yet the
    batch is not answered with [400]: [normalizeId] is applied to the id
    before [validateItem] can look at its type, and throws. *)
Theorem handlePost_numeric_id_throws (event : Event) (st : Store)
    (claims : value) (fields : list (string * value)) (n : Z)
    (others : list value) :
  verifyAuth cfg (authorization event) "inventory:write" = Normal claims ->
  JSON_parse (bodyText event) = Normal (JArray (JObject fields :: others)) ->
  getField "id" fields = JNumber n ->
  n <> 0 ->
  validateItem fields <> []
  /\ handlePost cfg event st
     = (Throw (TypeError "str.toLowerCase is not a function"), st).
Proof.
  intros Ha Hp Hid Hn. split.
  - unfold validateItem. rewrite Hid. simpl.
    apply Z.eqb_neq in Hn. rewrite Hn. discriminate.
  - unfold handlePost. rewrite Ha, Hp. simpl.
    unfold normalizeItem, deriveId. simpl. rewrite Hid. simpl.
    apply Z.eqb_neq in Hn. now rewrite Hn.
Qed.

End RejectionProperties.

(** ** The handlers: reading the stored document *)

Section ReadingProperties.
Context {rt : Runtime} (cfg : Config).

Lemma store_get_logged (key : string) (st : Store) :
  snd (store_get key st) = logged (CallGet key) st.
Proof. unfold store_get, logged. now destruct (getFault st). Qed.

Lemma store_get_found (st : Store) (raw : string) :
  getFault st = None ->
  blobs st !! KEY = Some raw ->
  store_get KEY st = (Normal (Some raw), logged (CallGet KEY) st).
Proof. intros Hf Hb. unfold store_get, logged. now rewrite Hf, Hb. Qed.

Lemma loadExisting_stored (st : Store) (doc : value) :
  stored_document st doc ->
  loadExisting st = (doc, logged (CallGet KEY) st).
Proof.
  intros (raw & Hf & Hb & Hne & Hp). unfold loadExisting.
  rewrite (store_get_found st raw Hf Hb). cbn [truthy_env env_string].
  apply String.eqb_neq in Hne. rewrite Hne. cbn [negb]. now rewrite Hp.
Qed.

(** What [handlePost] does once the batch is accepted. *)
Lemma handlePost_valid (event : Event) (st : Store)
    (incoming : list (list (string * value))) :
  valid_post cfg event incoming ->
  handlePost cfg event st
  = match mergeInventory (fst (loadExisting st)) incoming with
    | Throw e => (Throw e, snd (loadExisting st))
    | Normal merged => persist merged (snd (loadExisting st))
    end.
Proof.
  intros (claims & payload & items & Ha & Hp & Hs & Hn & Hv).
  unfold handlePost. rewrite Ha, Hp, Hs, Hn, Hv.
  now destruct (loadExisting st).
Qed.

Lemma mergeInventory_not_array (doc : value)
    (incoming : list (list (string * value))) :
  (forall l, doc <> JArray l) ->
  exists e, mergeInventory doc incoming = Throw e /\ err_name e = "TypeError".
Proof.
  intros H.
  destruct doc as [| | | | |l|]; simpl; try (eexists; split; reflexivity).
  now contradiction (H l).
Qed.

(** C10. When the stored document is valid JSON but not an array, an
    authenticated valid POST ends in a [TypeError] that nothing catches,
    after the read of the store; every GET on the same store is answered
    with [200] and the empty list. *)
Theorem handlePost_non_array_document_throws (event get_event : Event)
    (st : Store) (incoming : list (list (string * value))) (doc : value) :
  valid_post cfg event incoming ->
  stored_document st doc ->
  (forall l, doc <> JArray l) ->
  (exists e, handlePost cfg event st = (Throw e, logged (CallGet KEY) st)
             /\ err_name e = "TypeError")
  /\ handleGet cfg get_event st
     = (Normal (resp 200 (JArray []) noCache), logged (CallGet KEY) st).
Proof.
  intros Hv Hd Hna. split.
  - destruct (mergeInventory_not_array doc incoming Hna) as (e & Hm & He).
    exists e. split; [|exact He].
    rewrite (handlePost_valid event st incoming Hv).
    rewrite (loadExisting_stored st doc Hd). cbn [fst snd]. now rewrite Hm.
  - destruct Hd as (raw & Hf & Hb & Hne & Hp). unfold handleGet.
    rewrite (store_get_found st raw Hf Hb). cbn [truthy_env env_string].
    apply String.eqb_neq in Hne. rewrite Hne. cbn [negb]. rewrite Hp.
    assert (Hl : match doc with JArray l => l | _ => [] end = []).
    { destruct doc as [| | | | |l|]; try reflexivity.
      now contradiction (Hna l). }
    rewrite Hl. now destruct (elevated cfg get_event).
Qed.

(** The filter of the public view. *)

Lemma withoutDrafts_readable (l : list value) :
  forallb readable l = true ->
  withoutDrafts l = Normal (List.filter (fun i => negb (is_draft i)) l).
Proof.
  unfold withoutDrafts. induction l as [|i t IH]; intros H; [reflexivity|].
  simpl in H. apply andb_true_iff in H as [Hi Ht].
  cbn [filterC List.filter]. rewrite (IH Ht).
  destruct i; try discriminate; cbn; try reflexivity.
  all: now destruct (is_string "Draft" _).
Qed.

Lemma withoutDrafts_no_draft (l filtered : list value) :
  withoutDrafts l = Normal filtered ->
  Forall (fun i => is_draft i = false) filtered.
Proof.
  unfold withoutDrafts. revert filtered.
  induction l as [|i t IH]; intros filtered H; cbn [filterC] in H.
  - injection H as <-. constructor.
  - destruct (getProp i "status") as [s|e] eqn:Hs; cbn [andThen] in H;
      [|discriminate].
    destruct (filterC _ t) as [ys|e] eqn:Ht; cbn [andThen] in H; [|discriminate].
    injection H as <-. specialize (IH ys eq_refl).
    destruct (is_string "Draft" s) eqn:Hd; cbn [negb]; [exact IH|].
    constructor; [|exact IH].
    destruct i; try reflexivity. simpl in Hs. injection Hs as <-. exact Hd.
Qed.

Lemma elevated_iff (event : Event) :
  elevated cfg event = true
  <-> includeDrafts event = Some "1"
      /\ exists claims,
           verifyAuth cfg (authorization event) "inventory:read" = Normal claims.
Proof.
  unfold elevated. split.
  - destruct (includeDrafts event) as [q|]; [|discriminate].
    destruct (String.eqb q "1") eqn:Eq; [|discriminate].
    apply String.eqb_eq in Eq. subst q.
    destruct (truthy_env (authorization event)); [|discriminate]. cbn [andb].
    destruct (verifyAuth cfg _ _) as [claims|]; [|discriminate]. eauto.
  - intros [-> [claims Hc]]. rewrite Hc. cbn [String.eqb Ascii.eqb Bool.eqb andb].
    destruct (truthy_env (authorization event)) eqn:Ht; [reflexivity|].
    exfalso. unfold verifyAuth in Hc. rewrite Ht in Hc. cbn [negb orb] in Hc.
    destruct (negb _ || negb _) in Hc; discriminate.
Qed.

Lemma not_elevated (event : Event) :
  includeDrafts event <> Some "1"
  \/ (exists err,
        verifyAuth cfg (authorization event) "inventory:read" = Throw err) ->
  elevated cfg event = false.
Proof.
  intros H. apply not_true_is_false. intros He.
  apply elevated_iff in He as [Hq [c Hc]].
  destruct H as [H|[err H]]; [contradiction|congruence].
Qed.

(** C8. A GET that does not carry [includeDrafts=1], or whose token the
    verifier refuses, is answered either with an error or with a list that
    holds no draft, namely the stored records but the drafts (a record with
    no status stays); with [includeDrafts=1] and a token verified for
    [inventory:read], it is answered with the stored list as it is. *)
Theorem handleGet_draft_filtering (event : Event) (st : Store) :
  (includeDrafts event <> Some "1"
   \/ (exists err,
         verifyAuth cfg (authorization event) "inventory:read" = Throw err) ->
   exists r,
     handleGet cfg event st = (Normal r, logged (CallGet KEY) st)
     /\ (statusCode r = 500
         \/ exists l, r = resp 200 (JArray l) noCache
                      /\ Forall (fun i => is_draft i = false) l))
  /\ (forall records,
        stored_document st (JArray records) ->
        (includeDrafts event <> Some "1"
         \/ (exists err,
               verifyAuth cfg (authorization event) "inventory:read"
               = Throw err) ->
         forallb readable records = true ->
         handleGet cfg event st
         = (Normal (resp 200 (JArray (List.filter (fun i => negb (is_draft i)) records))
                      noCache),
            logged (CallGet KEY) st))
        /\ (includeDrafts event = Some "1" ->
            (exists claims,
               verifyAuth cfg (authorization event) "inventory:read"
               = Normal claims) ->
            handleGet cfg event st
            = (Normal (resp 200 (JArray records) noCache),
               logged (CallGet KEY) st))).
Proof.
  split.
  - intros Hn. unfold handleGet. rewrite (not_elevated event Hn).
    pose proof (store_get_logged KEY st) as Hs.
    destruct (store_get KEY st) as [[raw|err] st1]; cbn [snd] in Hs; subst st1;
      [|eexists; split; [reflexivity|now left]].
    destruct (negb (truthy_env raw)).
    { eexists. split; [reflexivity|]. right. eexists. split; eauto. }
    destruct (JSON_parse _) as [data|err];
      [|eexists; split; [reflexivity|now left]].
    destruct (withoutDrafts _) as [filtered|err] eqn:Hw;
      [|eexists; split; [reflexivity|now left]].
    eexists. split; [reflexivity|]. right. eexists. split; [reflexivity|].
    exact (withoutDrafts_no_draft _ _ Hw).
  - intros records (raw & Hf & Hb & Hne & Hp).
    assert (Hget :
      handleGet cfg event st
      = if elevated cfg event
        then (Normal (resp 200 (JArray records) noCache), logged (CallGet KEY) st)
        else match withoutDrafts records with
             | Throw err => (Normal (readFailure err), logged (CallGet KEY) st)
             | Normal filtered =>
                 (Normal (resp 200 (JArray filtered) noCache),
                  logged (CallGet KEY) st)
             end).
    { unfold handleGet. rewrite (store_get_found st raw Hf Hb).
      cbn [truthy_env env_string]. apply String.eqb_neq in Hne. rewrite Hne.
      cbn [negb]. now rewrite Hp. }
    split.
    + intros Hn Hr. rewrite Hget, (not_elevated event Hn).
      now rewrite (withoutDrafts_readable _ Hr).
    + intros Hq Hc. rewrite Hget.
      assert (He : elevated cfg event = true) by (apply elevated_iff; now split).
      now rewrite He.
Qed.

End ReadingProperties.

(** ** Objects and maps *)

Section ObjectProperties.
Context {V : Type}.

Lemma lookupField_setField (f k : string) (v : V) (fs : list (string * V)) :
  lookupField f (setField k v fs)
  = if String.eqb k f then Some v else lookupField f fs.
Proof.
  induction fs as [|[k' v'] t IH]; simpl.
  - reflexivity.
  - destruct (String.eqb k' k) eqn:Ek; simpl.
    + apply String.eqb_eq in Ek. subst k'. now destruct (String.eqb k f).
    + destruct (String.eqb k' f) eqn:Ef.
      * apply String.eqb_eq in Ef. subst k'.
        rewrite String.eqb_sym in Ek. now rewrite Ek.
      * exact IH.
Qed.

Lemma keys_setField (k : string) (v : V) (fs : list (string * V)) :
  map fst (setField k v fs)
  = if existsb (fun k' => String.eqb k' k) (map fst fs)
    then map fst fs else (map fst fs ++ [k])%list.
Proof.
  induction fs as [|[k' v'] t IH]; simpl; [reflexivity|].
  destruct (String.eqb k' k) eqn:Ek; simpl; [reflexivity|].
  rewrite IH. now destruct (existsb _ (map fst t)).
Qed.

Lemma setField_NoDup (k : string) (v : V) (fs : list (string * V)) :
  List.NoDup (map fst fs) -> List.NoDup (map fst (setField k v fs)).
Proof.
  intros H. rewrite keys_setField.
  destruct (existsb _ (map fst fs)) eqn:E; [exact H|].
  apply List.NoDup_app; [exact H|repeat constructor; intros []|].
  intros x Hx [Hk|[]]. subst x.
  assert (existsb (fun k' => String.eqb k' k) (map fst fs) = true); [|congruence].
  apply existsb_exists. exists k. split; [exact Hx|apply String.eqb_refl].
Qed.

Lemma setFields_NoDup (src fs : list (string * V)) :
  List.NoDup (map fst fs) -> List.NoDup (map fst (setFields src fs)).
Proof.
  unfold setFields. revert fs.
  induction src as [|[k v] t IH]; intros fs H; simpl; [exact H|].
  apply IH, setField_NoDup, H.
Qed.

Lemma lookupField_In (f : string) (v : V) (fs : list (string * V)) :
  lookupField f fs = Some v -> In f (map fst fs).
Proof.
  induction fs as [|[k' v'] t IH]; simpl; [discriminate|].
  destruct (String.eqb k' f) eqn:E; [left; now apply String.eqb_eq|right; auto].
Qed.

(** Spreading an object whose properties are distinct: its properties win,
    the others stay. *)
Lemma lookupField_setFields (f : string) (src fs : list (string * V)) :
  List.NoDup (map fst src) ->
  lookupField f (setFields src fs)
  = match lookupField f src with
    | Some v => Some v
    | None => lookupField f fs
    end.
Proof.
  unfold setFields. revert fs.
  induction src as [|[k v] t IH]; intros fs H; simpl; [reflexivity|].
  apply List.NoDup_cons_iff in H as [Hk Ht].
  rewrite (IH _ Ht), lookupField_setField.
  destruct (String.eqb k f) eqn:Ek; [|reflexivity].
  apply String.eqb_eq in Ek. subst f.
  destruct (lookupField k t) eqn:El; [|reflexivity].
  contradiction (Hk (lookupField_In _ _ _ El)).
Qed.

End ObjectProperties.

(** *** SameValueZero *)

Lemma sameValueZero_eq (a b : value) : sameValueZero a b = true -> a = b.
Proof.
  destruct a, b; simpl; try discriminate; intros H; try reflexivity.
  - f_equal. now apply Bool.eqb_prop.
  - f_equal. now apply Z.eqb_eq.
  - f_equal. now apply String.eqb_eq.
Qed.

Lemma sameValueZero_refl (a : value) :
  primitive a = true -> sameValueZero a a = true.
Proof.
  destruct a; simpl; try discriminate; intros _; try reflexivity.
  - apply Bool.eqb_reflx.
  - apply Z.eqb_refl.
  - apply String.eqb_refl.
Qed.

Lemma sameValueZero_sym (a b : value) : sameValueZero a b = sameValueZero b a.
Proof.
  destruct a, b; simpl; try reflexivity.
  - now destruct b, b0.
  - apply Z.eqb_sym.
  - apply String.eqb_sym.
Qed.

Lemma sameValueZero_neq (a b : value) : a <> b -> sameValueZero a b = false.
Proof.
  intros H. apply not_true_is_false. intros E. exact (H (sameValueZero_eq a b E)).
Qed.

Lemma NoDup_distinct (l : list value) : List.NoDup l -> distinct l.
Proof.
  induction 1 as [|a l Ha _ IH]; constructor; [|exact IH].
  apply List.Forall_forall. intros b Hb. apply sameValueZero_neq.
  intros ->. exact (Ha Hb).
Qed.

Lemma distinct_NoDup (l : list value) :
  distinct l -> Forall (fun k => primitive k = true) l -> List.NoDup l.
Proof.
  induction 1 as [|a l Ha _ IH]; intros Hp; constructor.
  - intros Hin. apply List.Forall_inv in Hp.
    rewrite List.Forall_forall in Ha. specialize (Ha a Hin).
    rewrite (sameValueZero_refl a Hp) in Ha. discriminate.
  - apply IH. exact (List.Forall_inv_tail Hp).
Qed.

Lemma distinct_snoc (l : list value) (k : value) :
  distinct l ->
  existsb (fun k' => sameValueZero k' k) l = false ->
  distinct (l ++ [k]).
Proof.
  induction 1 as [|a l Ha _ IH]; simpl; intros E.
  - repeat constructor.
  - apply orb_false_iff in E as [E1 E2]. constructor; [|exact (IH E2)].
    apply List.Forall_app. split; [exact Ha|]. repeat constructor. exact E1.
Qed.

(** *** Map *)

Lemma keys_map_set (k v : value) (m : list (value * value)) :
  map fst (map_set k v m)
  = if existsb (fun k' => sameValueZero k' k) (map fst m)
    then map fst m else (map fst m ++ [k])%list.
Proof.
  induction m as [|[k' v'] t IH]; simpl; [reflexivity|].
  destruct (sameValueZero k' k); simpl; [reflexivity|].
  rewrite IH. now destruct (existsb _ (map fst t)).
Qed.

Lemma map_set_distinct (k v : value) (m : list (value * value)) :
  distinct (map fst m) -> distinct (map fst (map_set k v m)).
Proof.
  intros H. rewrite keys_map_set.
  destruct (existsb _ (map fst m)) eqn:E; [exact H|].
  now apply distinct_snoc.
Qed.

Lemma map_get_set (k k' v : value) (m : list (value * value)) :
  map_get k (map_set k' v m)
  = if sameValueZero k' k then v else map_get k m.
Proof.
  induction m as [|[ke ve] t IH]; simpl.
  - reflexivity.
  - destruct (sameValueZero ke k') eqn:E1; simpl.
    + apply sameValueZero_eq in E1. subst ke.
      now destruct (sameValueZero k' k).
    + destruct (sameValueZero ke k) eqn:E2; [|exact IH].
      destruct (sameValueZero k' k) eqn:E3; [|reflexivity].
      apply sameValueZero_eq in E3. subst k'. congruence.
Qed.

Lemma map_get_absent (k : value) (m : list (value * value)) :
  existsb (fun k' => sameValueZero k' k) (map fst m) = false ->
  map_get k m = JUndefined.
Proof.
  induction m as [|[ke ve] t IH]; simpl; [reflexivity|].
  intros E. apply orb_false_iff in E as [E1 E2]. rewrite E1. exact (IH E2).
Qed.

Lemma map_get_In (k v : value) (m : list (value * value)) :
  map_get k m = v -> v <> JUndefined -> In (k, v) m.
Proof.
  induction m as [|[ke ve] t IH]; simpl; intros H Hv; [congruence|].
  destruct (sameValueZero ke k) eqn:E.
  - left. apply sameValueZero_eq in E. congruence.
  - right. now apply IH.
Qed.

(** The entry under a key that is present is replaced where it stands. *)
Lemma map_set_present (f : value -> value) (k : value)
    (m : list (value * value)) :
  distinct (map fst m) ->
  existsb (fun k' => sameValueZero k' k) (map fst m) = true ->
  map_set k (f (map_get k m)) m
  = map (fun e => (fst e, if sameValueZero (fst e) k then f (snd e) else snd e)) m.
Proof.
  induction m as [|[ke ve] t IH]; simpl; intros Hd E; [discriminate|].
  inversion Hd as [|? ? Ha Ht]; subst.
  destruct (sameValueZero ke k) eqn:E1.
  - f_equal. symmetry. rewrite <- (List.map_id t) at 2.
    apply List.map_ext_in. intros [k2 v2] Hin. simpl.
    apply sameValueZero_eq in E1. subst ke.
    rewrite List.Forall_forall in Ha.
    rewrite sameValueZero_sym, (Ha k2); [reflexivity|].
    apply List.in_map_iff. now exists (k2, v2).
  - f_equal. simpl in E. exact (IH Ht E).
Qed.

(** A key that is absent is added at the end. *)
Lemma map_set_absent (k v : value) (m : list (value * value)) :
  existsb (fun k' => sameValueZero k' k) (map fst m) = false ->
  map_set k v m = (m ++ [(k, v)])%list.
Proof.
  induction m as [|[ke ve] t IH]; simpl; [reflexivity|].
  intros E. apply orb_false_iff in E as [E1 E2]. rewrite E1. f_equal. exact (IH E2).
Qed.

Lemma new_Map_from (entries m : list (value * value)) :
  distinct (map fst (m ++ entries)) ->
  fold_left (fun m kv => map_set (fst kv) (snd kv) m) entries m
  = (m ++ entries)%list.
Proof.
  revert m. induction entries as [|[k v] t IH]; intros m H; simpl.
  - now rewrite List.app_nil_r.
  - assert (E : existsb (fun k' => sameValueZero k' k) (map fst m) = false).
    { rewrite List.map_app in H. simpl in H. clear -H.
      induction m as [|[ke ve] m IHm]; simpl in *; [reflexivity|].
      inversion H as [|? ? Ha Hm]; subst. apply orb_false_iff. split.
      - rewrite List.Forall_forall in Ha. apply Ha.
        apply List.in_app_iff. right. now left.
      - exact (IHm Hm). }
    rewrite (map_set_absent k v m E).
    rewrite IH; rewrite <- List.app_assoc; [reflexivity|exact H].
Qed.

(** With ids that differ, the map holds the records as they come. *)
Lemma new_Map_distinct_keys (entries : list (value * value)) :
  List.NoDup (map fst entries) -> new_Map entries = entries.
Proof.
  intros H. unfold new_Map. apply (new_Map_from entries []).
  now apply NoDup_distinct.
Qed.

Lemma new_Map_distinct (entries : list (value * value)) :
  distinct (map fst (new_Map entries)).
Proof.
  unfold new_Map.
  assert (G : forall m, distinct (map fst m) ->
    distinct (map fst (fold_left (fun m kv => map_set (fst kv) (snd kv) m)
                                 entries m))).
  { induction entries as [|[k v] t IH]; intros m Hm; simpl; [exact Hm|].
    apply IH, map_set_distinct, Hm. }
  apply G. constructor.
Qed.

(** ** The merge *)

Section MergeProperties.

Local Abbreviation batch := (list (list (string * value))).

Lemma absorb_cons (k v : value) (item : list (string * value)) (t : batch) :
  absorb k v (item :: t)
  = absorb k (if sameValueZero k (getField "id" item)
              then JObject (spread2 v (JObject item)) else v) t.
Proof. reflexivity. Qed.

(** Only the items that carry the key count. *)
Lemma absorb_withId (k v : value) (incoming : batch) :
  absorb k v incoming
  = fold_left (fun acc item => JObject (spread2 acc (JObject item)))
              (withId k incoming) v.
Proof.
  revert v. induction incoming as [|item t IH]; intros v; [reflexivity|].
  rewrite absorb_cons. unfold withId. simpl.
  destruct (sameValueZero k (getField "id" item)); simpl; apply IH.
Qed.

Lemma newIds_fresh (seen : list value) (incoming : batch) (k s : value) :
  In k (newIds seen incoming) -> In s seen -> sameValueZero s k = false.
Proof.
  revert seen. induction incoming as [|item t IH]; intros seen Hk Hs; simpl in Hk;
    [contradiction|].
  destruct (existsb _ seen) eqn:E.
  - exact (IH seen Hk Hs).
  - destruct Hk as [<-|Hk].
    + apply not_true_is_false. intros Es.
      assert (existsb (fun k => sameValueZero k (getField "id" item)) seen = true);
        [|congruence].
      apply existsb_exists. now exists s.
    + apply (IH (seen ++ [getField "id" item])%list Hk).
      apply List.in_app_iff. now left.
Qed.

Lemma mergeStep_present (m : list (value * value)) (item : list (string * value)) :
  distinct (map fst m) ->
  existsb (fun k' => sameValueZero k' (getField "id" item)) (map fst m) = true ->
  mergeStep m item
  = map (fun e => (fst e, if sameValueZero (fst e) (getField "id" item)
                          then JObject (spread2 (snd e) (JObject item))
                          else snd e)) m.
Proof.
  intros Hd E. unfold mergeStep.
  exact (map_set_present (fun old => JObject (spread2 old (JObject item)))
           (getField "id" item) m Hd E).
Qed.

Lemma mergeStep_absent (m : list (value * value)) (item : list (string * value)) :
  existsb (fun k' => sameValueZero k' (getField "id" item)) (map fst m) = false ->
  mergeStep m item
  = (m ++ [(getField "id" item, JObject (spread2 JUndefined (JObject item)))])%list.
Proof.
  intros E. unfold mergeStep. rewrite (map_get_absent _ m E).
  now apply map_set_absent.
Qed.

(** The map after the loop of line 105: the entries it had, each with the
    items of its key spread over it, then one entry for each new key. *)
Lemma merge_fold (incoming : batch) (m : list (value * value)) :
  distinct (map fst m) ->
  Forall (fun item => primitive (getField "id" item) = true) incoming ->
  fold_left mergeStep incoming m
  = (map (fun e => (fst e, absorb (fst e) (snd e) incoming)) m
     ++ map (fun k => (k, absorb k JUndefined incoming))
            (newIds (map fst m) incoming))%list.
Proof.
  revert m. induction incoming as [|item t IH]; intros m Hd Hp.
  - simpl. rewrite List.app_nil_r. clear.
    induction m as [|[k v] m IHm]; simpl; [reflexivity|]. now rewrite <- IHm.
  - apply List.Forall_cons_iff in Hp as [Hk Hp]. cbn [fold_left newIds].
    destruct (existsb _ (map fst m)) eqn:E.
    + rewrite (mergeStep_present m item Hd E).
      rewrite IH; [|now rewrite List.map_map|exact Hp].
      rewrite !List.map_map. cbn [fst snd]. f_equal.
      apply List.map_ext_in. intros k Hin. rewrite absorb_cons.
      apply existsb_exists in E as [k0 [Hk0 Ek0]].
      apply sameValueZero_eq in Ek0. subst k0.
      rewrite (sameValueZero_sym k), (newIds_fresh _ _ _ _ Hin Hk0).
      reflexivity.
    + rewrite (mergeStep_absent m item E).
      assert (Hd' : distinct (map fst (m ++ [(getField "id" item,
                      JObject (spread2 JUndefined (JObject item)))]))).
      { rewrite List.map_app. now apply distinct_snoc. }
      rewrite (IH _ Hd' Hp). rewrite !List.map_app. cbn [map fst snd].
      rewrite <- List.app_assoc. f_equal.
      * apply List.map_ext_in. intros [k v] Hin. cbn [fst snd].
        rewrite absorb_cons.
        assert (Ek : sameValueZero k (getField "id" item) = false).
        { apply not_true_is_false. intros Ek.
          assert (existsb (fun k' => sameValueZero k' (getField "id" item))
                          (map fst m) = true); [|congruence].
          apply existsb_exists. exists k. split; [|exact Ek].
          apply List.in_map_iff. now exists (k, v). }
        now rewrite Ek.
      * cbn [app]. f_equal.
        -- rewrite absorb_cons. now rewrite (sameValueZero_refl _ Hk).
        -- apply List.map_ext_in. intros k Hin. rewrite absorb_cons.
           rewrite (sameValueZero_sym k).
           rewrite (newIds_fresh _ _ k (getField "id" item) Hin);
             [reflexivity|].
           apply List.in_app_iff. right. now left.
Qed.

(** Reading the ids of the stored records. *)
Lemma mapC_entries (recs : list value) :
  forallb readable recs = true ->
  mapC (fun i => let* id := getProp i "id" in Normal (id, i)) recs
  = Normal (entriesOf recs).
Proof.
  induction recs as [|r t IH]; intros H; [reflexivity|].
  simpl in H. apply andb_true_iff in H as [Hr Ht].
  cbn [mapC]. rewrite (IH Ht). unfold entriesOf, idOf.
  destruct r; try discriminate; reflexivity.
Qed.

Lemma mapC_unreadable (recs : list value) :
  forallb readable recs = false ->
  exists e, mapC (fun i => let* id := getProp i "id" in Normal (id, i)) recs
            = Throw e.
Proof.
  induction recs as [|r t IH]; intros H; [discriminate|].
  simpl in H. cbn [mapC]. destruct (readable r) eqn:Hr.
  - destruct (IH H) as [e He]. rewrite He.
    destruct r; try discriminate; simpl; eauto.
  - destruct r; try discriminate; simpl; eauto.
Qed.

Lemma keys_entriesOf (recs : list value) : map fst (entriesOf recs) = map idOf recs.
Proof. unfold entriesOf. rewrite List.map_map. reflexivity. Qed.

Lemma values_entriesOf (recs : list value) : map snd (entriesOf recs) = recs.
Proof. unfold entriesOf. rewrite List.map_map. apply List.map_id. Qed.

(** What the normalisation of line 85 guarantees. *)
Lemma normalizeItem_normalized (v : value) (item : list (string * value)) :
  normalizeItem v = Normal item -> normalized item.
Proof.
  unfold normalizeItem. destruct (deriveId v) as [id|e]; simpl; [|discriminate].
  intros H. injection H as <-. split.
  - apply setField_NoDup, setFields_NoDup. constructor.
  - exists id. rewrite lookupField_setField. now rewrite String.eqb_refl.
Qed.

Lemma mapC_normalized (items : list value) (incoming : batch) :
  mapC normalizeItem items = Normal incoming -> Forall normalized incoming.
Proof.
  revert incoming. induction items as [|v t IH]; intros incoming H; cbn [mapC] in H.
  - injection H as <-. constructor.
  - destruct (normalizeItem v) as [item|e] eqn:Hv; cbn [andThen] in H; [|discriminate].
    destruct (mapC normalizeItem t) as [rest|e]; cbn [andThen] in H; [|discriminate].
    injection H as <-. constructor; [exact (normalizeItem_normalized v item Hv)|].
    now apply IH.
Qed.

Lemma normalized_id (item : list (string * value)) :
  normalized item -> exists s, getField "id" item = JString s.
Proof. intros [_ [s Hs]]. exists s. unfold getField. now rewrite Hs. Qed.

Lemma normalized_primitive (incoming : batch) :
  Forall normalized incoming ->
  Forall (fun item => primitive (getField "id" item) = true) incoming.
Proof.
  apply List.Forall_impl. intros item H.
  destruct (normalized_id item H) as [s ->]. reflexivity.
Qed.

(** Under a key, the map built from the stored records holds the last
    record that has this key. *)
Lemma map_get_fold_set (k : value) (entries m : list (value * value)) :
  map_get k (fold_left (fun m kv => map_set (fst kv) (snd kv) m) entries m)
  = fold_left (fun acc e => if sameValueZero (fst e) k then snd e else acc)
              entries (map_get k m).
Proof.
  revert m. induction entries as [|[k' v'] t IH]; intros m; [reflexivity|].
  cbn [fold_left fst snd]. now rewrite IH, map_get_set.
Qed.

Lemma map_get_new_Map_last (k e : value) (before after : list value) :
  sameValueZero (idOf e) k = true ->
  Forall (fun r => idOf r <> k) after ->
  map_get k (new_Map (entriesOf (before ++ e :: after))) = e.
Proof.
  intros He Ha. unfold new_Map. rewrite map_get_fold_set.
  unfold entriesOf. rewrite List.map_app, List.fold_left_app. cbn [map fold_left fst snd].
  rewrite He. induction Ha as [|r t Hr _ IH]; [reflexivity|].
  cbn [map fold_left fst snd]. now rewrite (sameValueZero_neq _ _ Hr).
Qed.

(** The merged list when the stored ids differ. *)
Lemma merge_in_order (recs : list value) (incoming : batch) :
  List.NoDup (map idOf recs) ->
  Forall normalized incoming ->
  map snd (fold_left mergeStep incoming (new_Map (entriesOf recs)))
  = (map (fun r => absorb (idOf r) r incoming) recs
     ++ map (fun k => absorb k JUndefined incoming)
            (newIds (map idOf recs) incoming))%list.
Proof.
  intros Hd Hn.
  rewrite new_Map_distinct_keys; [|now rewrite keys_entriesOf].
  rewrite merge_fold;
    [|rewrite keys_entriesOf; now apply NoDup_distinct
     |now apply normalized_primitive].
  rewrite List.map_app, !List.map_map, keys_entriesOf. cbn [fst snd].
  unfold entriesOf. now rewrite List.map_map.
Qed.

Lemma absorb_untouched (k v : value) (incoming : batch) :
  withId k incoming = [] -> absorb k v incoming = v.
Proof. intros H. now rewrite absorb_withId, H. Qed.

Lemma absorb_once (k v : value) (item : list (string * value)) (incoming : batch) :
  withId k incoming = [item] ->
  absorb k v incoming = JObject (spread2 v (JObject item)).
Proof. intros H. now rewrite absorb_withId, H. Qed.

(** The record that the merge leaves under the key of a stored record. *)
Lemma merge_holds_absorbed (recs : list value) (incoming : batch) (k e : value) :
  Forall normalized incoming ->
  map_get k (new_Map (entriesOf recs)) = e ->
  e <> JUndefined ->
  In (absorb k e incoming)
     (map snd (fold_left mergeStep incoming (new_Map (entriesOf recs)))).
Proof.
  intros Hn Hg He.
  rewrite merge_fold; [|apply new_Map_distinct|now apply normalized_primitive].
  rewrite List.map_app. apply List.in_app_iff. left.
  rewrite List.map_map. cbn [snd]. apply List.in_map_iff.
  exists (k, e). split; [reflexivity|]. exact (map_get_In k e _ Hg He).
Qed.

(** Spreading a normalised item over an object with distinct properties. *)
Lemma spread2_field_merge (efs item : list (string * value)) :
  List.NoDup (map fst efs) ->
  List.NoDup (map fst item) ->
  field_merge efs item (spread2 (JObject efs) (JObject item)).
Proof.
  intros He Hi f. unfold spread2. cbn [ownProps].
  rewrite (lookupField_setFields f item _ Hi).
  destruct (lookupField f item); [reflexivity|].
  rewrite (lookupField_setFields f efs _ He).
  now destruct (lookupField f efs).
Qed.

Lemma spread2_id (old : value) (item : list (string * value)) :
  normalized item ->
  idOf (JObject (spread2 old (JObject item))) = getField "id" item.
Proof.
  intros [Hi [s Hs]]. unfold idOf, getProp, getField, spread2. cbn [ownProps].
  now rewrite (lookupField_setFields "id" item _ Hi), Hs.
Qed.

(** The invariant of the map: keys told apart, each the id of its record,
    none of them an object. *)
Lemma map_set_keeps_ids (k v : value) (m : list (value * value)) :
  Forall (fun e => idOf (snd e) = fst e /\ primitive (fst e) = true) m ->
  idOf v = k -> primitive k = true ->
  Forall (fun e => idOf (snd e) = fst e /\ primitive (fst e) = true)
         (map_set k v m).
Proof.
  intros Hm Hv Hk. induction Hm as [|[ke ve] t [H1 H2] Ht IH]; simpl.
  - repeat constructor; assumption.
  - destruct (sameValueZero ke k) eqn:E.
    + apply sameValueZero_eq in E. subst ke. constructor; [now split|assumption].
    + constructor; [now split|exact IH].
Qed.

Lemma new_Map_keeps_ids (recs : list value) :
  Forall (fun r => primitive (idOf r) = true) recs ->
  Forall (fun e => idOf (snd e) = fst e /\ primitive (fst e) = true)
         (new_Map (entriesOf recs)).
Proof.
  intros H. unfold new_Map.
  assert (G : forall m,
    Forall (fun e => idOf (snd e) = fst e /\ primitive (fst e) = true) m ->
    Forall (fun e => idOf (snd e) = fst e /\ primitive (fst e) = true)
      (fold_left (fun m kv => map_set (fst kv) (snd kv) m) (entriesOf recs) m)).
  { induction H as [|r t Hr _ IH]; intros m Hm; [exact Hm|].
    cbn [entriesOf map fold_left fst snd]. apply IH.
    now apply map_set_keeps_ids. }
  apply G. constructor.
Qed.

Lemma merge_keeps_ids (incoming : batch) (m : list (value * value)) :
  Forall normalized incoming ->
  distinct (map fst m)
  /\ Forall (fun e => idOf (snd e) = fst e /\ primitive (fst e) = true) m ->
  distinct (map fst (fold_left mergeStep incoming m))
  /\ Forall (fun e => idOf (snd e) = fst e /\ primitive (fst e) = true)
            (fold_left mergeStep incoming m).
Proof.
  intros Hn. revert m. induction Hn as [|item t Hi _ IH]; intros m [Hd Hm];
    [now split|].
  cbn [fold_left]. apply IH. unfold mergeStep. split.
  - now apply map_set_distinct.
  - apply map_set_keeps_ids; [exact Hm|now apply spread2_id|].
    destruct (normalized_id item Hi) as [s ->]. reflexivity.
Qed.

(** The ids of the merged records differ, when no stored id is an object. *)
Lemma merge_ids_NoDup (recs : list value) (incoming : batch) :
  Forall (fun r => primitive (idOf r) = true) recs ->
  Forall normalized incoming ->
  List.NoDup (map idOf
    (map snd (fold_left mergeStep incoming (new_Map (entriesOf recs))))).
Proof.
  intros Hr Hn.
  destruct (merge_keeps_ids incoming (new_Map (entriesOf recs)) Hn) as [Hd Hm].
  { split; [apply new_Map_distinct|now apply new_Map_keeps_ids]. }
  set (m := fold_left mergeStep incoming (new_Map (entriesOf recs))) in *.
  assert (E : map idOf (map snd m) = map fst m).
  { rewrite List.map_map. apply List.map_ext_in. intros e He.
    rewrite List.Forall_forall in Hm. now destruct (Hm e He). }
  rewrite E. apply distinct_NoDup; [exact Hd|].
  apply List.Forall_forall. intros k Hk. apply List.in_map_iff in Hk as [e [<- He]].
  rewrite List.Forall_forall in Hm. now destruct (Hm e He).
Qed.

End MergeProperties.

(** ** The handlers: the upsert *)

Section UpsertProperties.
Context {rt : Runtime} (cfg : Config).

Local Abbreviation batch := (list (list (string * value))).

Lemma loadExisting_logged (st : Store) :
  snd (loadExisting st) = logged (CallGet KEY) st.
Proof.
  unfold loadExisting, store_get, logged.
  destruct (getFault st); [reflexivity|].
  destruct (truthy_env (blobs st !! KEY)); [|reflexivity].
  now destruct (JSON_parse _).
Qed.

Lemma persist_succeeds (merged : list value) (st : Store) :
  setFault st = None ->
  persist merged st
  = (Normal (resp 200 (JArray merged) noCache),
     written KEY (JSON_stringify_indent2 (JArray merged)) st).
Proof. intros H. unfold persist, store_set, written. now rewrite H. Qed.

(** The accepted batch, merged into readable records. *)
Lemma handlePost_merges (event : Event) (st : Store) (incoming : batch)
    (recs : list value) :
  valid_post cfg event incoming ->
  fst (loadExisting st) = JArray recs ->
  forallb readable recs = true ->
  handlePost cfg event st
  = persist (map snd (fold_left mergeStep incoming (new_Map (entriesOf recs))))
            (logged (CallGet KEY) st).
Proof.
  intros Hv He Hr. rewrite (handlePost_valid cfg event st incoming Hv).
  rewrite He, loadExisting_logged. unfold mergeInventory.
  now rewrite (mapC_entries recs Hr).
Qed.

Lemma valid_post_normalized (event : Event) (incoming : batch) :
  valid_post cfg event incoming -> Forall normalized incoming.
Proof.
  intros (claims & payload & items & _ & _ & _ & Hn & _).
  exact (mapC_normalized items incoming Hn).
Qed.

Lemma handlePost_stores (event : Event) (st : Store) (incoming : batch)
    (recs : list value) :
  valid_post cfg event incoming ->
  fst (loadExisting st) = JArray recs ->
  forallb readable recs = true ->
  setFault st = None ->
  handlePost cfg event st
  = (Normal (resp 200
       (JArray (map snd (fold_left mergeStep incoming (new_Map (entriesOf recs)))))
       noCache),
     written KEY
       (JSON_stringify_indent2
          (JArray (map snd (fold_left mergeStep incoming (new_Map (entriesOf recs))))))
       (logged (CallGet KEY) st)).
Proof.
  intros Hv He Hr Hf. rewrite (handlePost_merges event st incoming recs Hv He Hr).
  now apply persist_succeeds.
Qed.

(** C3, amended. An accepted batch holds one item with the id [k], and only
    one; the last stored record with the id [k] is the object [efs].  Then
    the collection that is stored and returned holds the shallow merge of
    [efs] under the item: the properties of the item with the values of
    the item, the other properties of [efs] with their values. *)
Theorem handlePost_field_merge (event : Event) (st : Store) (incoming : batch)
    (before after : list value) (efs item : list (string * value)) (k : string) :
  valid_post cfg event incoming ->
  fst (loadExisting st) = JArray (before ++ JObject efs :: after) ->
  forallb readable (before ++ JObject efs :: after) = true ->
  setFault st = None ->
  List.NoDup (map fst efs) ->
  getField "id" efs = JString k ->
  Forall (fun r => idOf r <> JString k) after ->
  withId (JString k) incoming = [item] ->
  exists merged,
    handlePost cfg event st
    = (Normal (resp 200 (JArray merged) noCache),
       written KEY (JSON_stringify_indent2 (JArray merged))
               (logged (CallGet KEY) st))
    /\ In (JObject (spread2 (JObject efs) (JObject item))) merged
    /\ field_merge efs item (spread2 (JObject efs) (JObject item)).
Proof.
  intros Hv He Hr Hf Hd Hk Ha Hw.
  pose proof (valid_post_normalized event incoming Hv) as Hn.
  eexists. split; [exact (handlePost_stores event st incoming _ Hv He Hr Hf)|].
  assert (Hi : normalized item).
  { rewrite List.Forall_forall in Hn. apply Hn.
    assert (Hin : In item (withId (JString k) incoming)) by (rewrite Hw; now left).
    unfold withId in Hin. now apply List.filter_In in Hin. }
  split.
  - rewrite <- (absorb_once (JString k) (JObject efs) item incoming Hw).
    apply merge_holds_absorbed; [exact Hn| |discriminate].
    apply map_get_new_Map_last; [|exact Ha].
    unfold idOf. cbn [getProp]. rewrite Hk. apply String.eqb_refl.
  - apply spread2_field_merge; [exact Hd|apply Hi].
Qed.

(** C4, amended. When the stored records are readable and their ids
    differ, the collection that an accepted batch stores and returns is the
    stored records in their order, each with the items of its id spread
    over it (and as it was when no item has its id), followed by one record
    for each new id, in the order in which the new ids first occur in the
    batch. *)
Theorem handlePost_keeps_order (event : Event) (st : Store) (incoming : batch)
    (recs : list value) :
  valid_post cfg event incoming ->
  fst (loadExisting st) = JArray recs ->
  forallb readable recs = true ->
  setFault st = None ->
  List.NoDup (map idOf recs) ->
  handlePost cfg event st
  = (Normal (resp 200
       (JArray (map (fun r => absorb (idOf r) r incoming) recs
                ++ map (fun k => absorb k JUndefined incoming)
                       (newIds (map idOf recs) incoming)))
       noCache),
     written KEY
       (JSON_stringify_indent2
          (JArray (map (fun r => absorb (idOf r) r incoming) recs
                   ++ map (fun k => absorb k JUndefined incoming)
                          (newIds (map idOf recs) incoming))))
       (logged (CallGet KEY) st))
  /\ (forall r, In r recs -> withId (idOf r) incoming = [] ->
                absorb (idOf r) r incoming = r).
Proof.
  intros Hv He Hr Hf Hd. split.
  - rewrite (handlePost_stores event st incoming recs Hv He Hr Hf).
    now rewrite (merge_in_order recs incoming Hd
                   (valid_post_normalized event incoming Hv)).
  - intros r _ Hw. now apply absorb_untouched.
Qed.

End UpsertProperties.

(** ** The handlers on concrete requests *)

Example post_update :
  handlePost (rt := Demo.rt) Demo.config (Demo.post Demo.writer Demo.update)
    (Demo.store_with Demo.inventory)
  = (Normal (resp (rt := Demo.rt) 200
       (JArray [JObject Demo.mustang_sold_normalized; JObject Demo.civic])
       noCache),
     written KEY
       (Demo.stringify_indent2
          (JArray [JObject Demo.mustang_sold_normalized; JObject Demo.civic]))
       (logged (CallGet KEY) (Demo.store_with Demo.inventory))).
Proof. vm_compute. reflexivity. Qed.

(** The example of the specification is turned away: the validation asks
    every item for a make and a model. *)
Example post_status_only :
  handlePost (rt := Demo.rt) Demo.config (Demo.post Demo.writer Demo.status_only)
    (Demo.store_with Demo.inventory)
  = (Normal (resp (rt := Demo.rt) 400
       (JObject [("error", JString "Validation failed");
                 ("details", JArray [JString "item 0: make is required";
                                     JString "item 0: model is required"])])
       []),
     Demo.store_with Demo.inventory).
Proof. vm_compute. reflexivity. Qed.

Example post_two_without_make :
  handlePost (rt := Demo.rt) Demo.config
    (Demo.post Demo.writer Demo.two_without_make) (Demo.store_with Demo.inventory)
  = (Normal (resp (rt := Demo.rt) 400
       (JObject [("error", JString "Validation failed");
                 ("details", JArray [JString "item 0: make is required";
                                     JString "item 1: make is required"])])
       []),
     Demo.store_with Demo.inventory).
Proof. vm_compute. reflexivity. Qed.

(** A make that cannot be converted to a string ends the request at line
    87, before the validation and before the store is read. *)
Example post_odd_make :
  handlePost (rt := Demo.rt) Demo.config (Demo.post Demo.writer Demo.odd_make)
    (Demo.store_with Demo.inventory)
  = (Throw (TypeError "Cannot convert object to primitive value"),
     Demo.store_with Demo.inventory).
Proof. vm_compute. reflexivity. Qed.

Example post_odd_make_nested :
  handlePost (rt := Demo.rt) Demo.config
    (Demo.post Demo.writer Demo.odd_make_nested) (Demo.store_with Demo.inventory)
  = (Throw (TypeError "Cannot convert object to primitive value"),
     Demo.store_with Demo.inventory).
Proof. vm_compute. reflexivity. Qed.

Lemma odd_make_not_valid (incoming : list (list (string * value))) :
  ~ valid_post (rt := Demo.rt) Demo.config
      (Demo.post Demo.writer Demo.odd_make) incoming.
Proof.
  intros (claims & payload & items & _ & Hp & Hs & Hn & _).
  vm_compute in Hp. injection Hp as <-.
  vm_compute in Hs. injection Hs as <-.
  vm_compute in Hn. discriminate Hn.
Qed.

Example ToString_ex :
  ToString (JArray [JNumber 1; JNull; JArray [JString "a"; JBool true];
                    JObject [("valueOf", JNumber 0)]])
  = Normal "1,,a,true,[object Object]".
Proof. reflexivity. Qed.

Example post_derives_id :
  mapC normalizeItem [JObject Demo.civic; JObject Demo.beetle]
  = Normal [Demo.civic; Demo.beetle_normalized].
Proof. reflexivity. Qed.

Example post_derives_honda :
  normalizeItem (JObject [("make", JString "Honda"); ("model", JString "Civic");
                          ("year", JNumber 2020)])
  = Normal [("make", JString "Honda"); ("model", JString "Civic");
            ("year", JNumber 2020); ("id", JString "honda-civic-2020")].
Proof. reflexivity. Qed.

Example validate_leased :
  validationErrors
    [[("id", JString "x"); ("make", JString "Ford"); ("model", JString "T")];
     [("id", JString "y"); ("make", JString "Ford"); ("model", JString "A");
      ("status", JString "Leased")]]
  = ["item 1: status must be Available | On Hold | Sold | Draft"].
Proof. reflexivity. Qed.

Example get_public :
  handleGet (rt := Demo.rt) Demo.config (Demo.get None None)
    (Demo.store_with Demo.inventory)
  = (Normal (resp (rt := Demo.rt) 200 (JArray [JObject Demo.mustang]) noCache),
     logged (CallGet KEY) (Demo.store_with Demo.inventory)).
Proof. vm_compute. reflexivity. Qed.

Example get_empty_store :
  handleGet (rt := Demo.rt) Demo.config (Demo.get None None) Demo.empty_store
  = (Normal (resp (rt := Demo.rt) 200 (JArray []) noCache),
     logged (CallGet KEY) Demo.empty_store).
Proof. vm_compute. reflexivity. Qed.

(** The requests of the scenarios are accepted. *)

Lemma update_valid :
  valid_post (rt := Demo.rt) Demo.config (Demo.post Demo.writer Demo.update)
    [Demo.mustang_sold_normalized].
Proof. eexists _, _, _. repeat split; reflexivity. Qed.

Lemma update_and_new_valid :
  valid_post (rt := Demo.rt) Demo.config
    (Demo.post Demo.writer Demo.update_and_new)
    [Demo.beetle_normalized; Demo.mustang_sold_normalized].
Proof. eexists _, _, _. repeat split; reflexivity. Qed.

Lemma publish_valid :
  valid_post (rt := Demo.rt) Demo.config (Demo.post Demo.writer Demo.publish)
    [Demo.civic_available_normalized].
Proof. eexists _, _, _. repeat split; reflexivity. Qed.

Lemma twice_valid :
  valid_post (rt := Demo.rt) Demo.config (Demo.post Demo.writer Demo.twice)
    [Demo.blue_item; Demo.plain_item].
Proof. eexists _, _, _. repeat split; reflexivity. Qed.

Lemma new_beetle_valid :
  valid_post (rt := Demo.rt) Demo.config (Demo.post Demo.writer Demo.new_beetle)
    [Demo.beetle_normalized].
Proof. eexists _, _, _. repeat split; reflexivity. Qed.

Lemma store_with_stored (doc : value) :
  JSON_parse (Runtime := Demo.rt) (Demo.stringify_indent2 doc) = Normal doc ->
  Demo.stringify_indent2 doc <> EmptyString ->
  stored_document (rt := Demo.rt) (Demo.store_with doc) doc.
Proof.
  intros Hp Hne. exists (Demo.stringify_indent2 doc).
  split; [reflexivity|]. split; [apply lookup_singleton_eq|].
  split; [exact Hne|exact Hp].
Qed.

(** ** Instances of the theorems *)

Lemma handlePost_unauthorized_keeps_store_witness :
  exists code,
    status (ErrorWithStatus "Unauthorized" 401) = Some code
    /\ handlePost (rt := Demo.rt) Demo.config
         (Demo.post Demo.reader Demo.update) (Demo.store_with Demo.inventory)
       = (Normal (resp (rt := Demo.rt) code
            (errorBody (message (ErrorWithStatus "Unauthorized" 401))) []),
          Demo.store_with Demo.inventory)
    /\ statusCode (resp (rt := Demo.rt) code
         (errorBody (message (ErrorWithStatus "Unauthorized" 401))) []) = code.
Proof.
  apply (handlePost_unauthorized_keeps_store (rt := Demo.rt) Demo.config).
  vm_compute. reflexivity.
Defined.

Lemma handlePost_null_body_throws_witness :
  handlePost (rt := Demo.rt) Demo.config (Demo.post Demo.writer JNull)
    (Demo.store_with Demo.inventory)
  = (Throw (TypeError "Cannot read properties of null (reading 'items')"),
     Demo.store_with Demo.inventory).
Proof.
  apply (handlePost_null_body_throws (rt := Demo.rt) Demo.config _ _
           (Demo.claims "inventory:read inventory:write"));
    vm_compute; reflexivity.
Defined.

Lemma handlePost_numeric_id_throws_witness :
  validateItem [("id", JNumber 5); ("make", JString "Ford"); ("model", JString "T")]
  <> []
  /\ handlePost (rt := Demo.rt) Demo.config
       (Demo.post Demo.writer Demo.numeric_id) (Demo.store_with Demo.inventory)
     = (Throw (TypeError "str.toLowerCase is not a function"),
        Demo.store_with Demo.inventory).
Proof.
  apply (handlePost_numeric_id_throws (rt := Demo.rt) Demo.config _ _
           (Demo.claims "inventory:read inventory:write") _ 5 []);
    try (vm_compute; reflexivity).
  discriminate.
Defined.

Lemma handlePost_non_array_document_throws_witness :
  (exists e,
     handlePost (rt := Demo.rt) Demo.config (Demo.post Demo.writer Demo.update)
       (Demo.store_with (JObject []))
     = (Throw e, logged (CallGet KEY) (Demo.store_with (JObject [])))
     /\ err_name e = "TypeError")
  /\ handleGet (rt := Demo.rt) Demo.config (Demo.get None None)
       (Demo.store_with (JObject []))
     = (Normal (resp (rt := Demo.rt) 200 (JArray []) noCache),
        logged (CallGet KEY) (Demo.store_with (JObject []))).
Proof.
  apply (handlePost_non_array_document_throws (rt := Demo.rt) Demo.config
           _ _ _ _ (JObject []) update_valid).
  - apply store_with_stored; [reflexivity|discriminate].
  - discriminate.
Defined.

Lemma handleGet_draft_filtering_witness :
  handleGet (rt := Demo.rt) Demo.config
    (Demo.get (Some "Bearer forged") (Some "1"))
    (Demo.store_with Demo.inventory)
  = (Normal (resp (rt := Demo.rt) 200
       (JArray [JObject Demo.mustang]) noCache),
     logged (CallGet KEY) (Demo.store_with Demo.inventory))
  /\ handleGet (rt := Demo.rt) Demo.config (Demo.get Demo.reader (Some "1"))
       (Demo.store_with Demo.inventory)
     = (Normal (resp (rt := Demo.rt) 200
          (JArray [JObject Demo.mustang; JObject Demo.civic]) noCache),
        logged (CallGet KEY) (Demo.store_with Demo.inventory)).
Proof.
  assert (Hs : stored_document (rt := Demo.rt) (Demo.store_with Demo.inventory)
                 (JArray [JObject Demo.mustang; JObject Demo.civic])).
  { apply (store_with_stored Demo.inventory); [reflexivity|discriminate]. }
  split.
  - apply (proj2 (handleGet_draft_filtering (rt := Demo.rt) Demo.config
                    (Demo.get (Some "Bearer forged") (Some "1"))
                    (Demo.store_with Demo.inventory)) _ Hs);
      [|reflexivity].
    right. eexists. vm_compute. reflexivity.
  - apply (proj2 (handleGet_draft_filtering (rt := Demo.rt) Demo.config
                    (Demo.get Demo.reader (Some "1"))
                    (Demo.store_with Demo.inventory)) _ Hs);
      [reflexivity|]. eexists. vm_compute. reflexivity.
Defined.

Lemma handlePost_field_merge_witness :
  exists merged,
    handlePost (rt := Demo.rt) Demo.config (Demo.post Demo.writer Demo.publish)
      (Demo.store_with Demo.inventory)
    = (Normal (resp (rt := Demo.rt) 200 (JArray merged) noCache),
       written KEY (Demo.stringify_indent2 (JArray merged))
               (logged (CallGet KEY) (Demo.store_with Demo.inventory)))
    /\ In (JObject [("id", JString "honda-civic-2020");
                    ("make", JString "Honda"); ("model", JString "Civic");
                    ("year", JNumber 2020); ("status", JString "Available")])
          merged
    /\ field_merge Demo.civic Demo.civic_available_normalized
         [("id", JString "honda-civic-2020");
          ("make", JString "Honda"); ("model", JString "Civic");
          ("year", JNumber 2020); ("status", JString "Available")].
Proof.
  apply (handlePost_field_merge (rt := Demo.rt) Demo.config
           (Demo.post Demo.writer Demo.publish) (Demo.store_with Demo.inventory)
           [Demo.civic_available_normalized] [JObject Demo.mustang] []
           Demo.civic Demo.civic_available_normalized "honda-civic-2020"
           publish_valid);
    try reflexivity.
  - repeat (constructor; [simpl; intuition discriminate|]). constructor.
  - constructor.
Defined.

Lemma handlePost_keeps_order_witness :
  handlePost (rt := Demo.rt) Demo.config
    (Demo.post Demo.writer Demo.update_and_new) (Demo.store_with Demo.inventory)
  = (Normal (resp (rt := Demo.rt) 200
       (JArray [JObject Demo.mustang_sold_normalized; JObject Demo.civic;
                JObject Demo.beetle_normalized])
       noCache),
     written KEY
       (Demo.stringify_indent2
          (JArray [JObject Demo.mustang_sold_normalized; JObject Demo.civic;
                   JObject Demo.beetle_normalized]))
       (logged (CallGet KEY) (Demo.store_with Demo.inventory))).
Proof.
  refine (proj1 (handlePost_keeps_order (rt := Demo.rt) Demo.config
            (Demo.post Demo.writer Demo.update_and_new)
            (Demo.store_with Demo.inventory)
            [Demo.beetle_normalized; Demo.mustang_sold_normalized]
            [JObject Demo.mustang; JObject Demo.civic]
            update_and_new_valid _ _ _ _)); try reflexivity.
  repeat (constructor; [simpl; intuition discriminate|]). constructor.
Defined.

(** ** Where the statements of the specification stop *)

(** C3 as stated fails for a batch that carries an id twice.  The stored
    Mustang is red; the batch first paints it blue, then sends an item with
    no colour.  The colour is a property of the stored record only, as far
    as the second item goes, yet the merged record is blue. *)
Lemma handlePost_field_merge_counterexample :
  valid_post (rt := Demo.rt) Demo.config (Demo.post Demo.writer Demo.twice)
    [Demo.blue_item; Demo.plain_item]
  /\ fst (loadExisting (rt := Demo.rt)
            (Demo.store_with (JArray [JObject Demo.red_mustang])))
     = JArray [JObject Demo.red_mustang]
  /\ getField "id" Demo.plain_item = getField "id" Demo.red_mustang
  /\ handlePost (rt := Demo.rt) Demo.config (Demo.post Demo.writer Demo.twice)
       (Demo.store_with (JArray [JObject Demo.red_mustang]))
     = (Normal (resp (rt := Demo.rt) 200 (JArray [JObject Demo.blue_item]) noCache),
        written KEY (Demo.stringify_indent2 (JArray [JObject Demo.blue_item]))
          (logged (CallGet KEY)
             (Demo.store_with (JArray [JObject Demo.red_mustang]))))
  /\ ~ (exists fs, In (JObject fs) [JObject Demo.blue_item]
                   /\ field_merge Demo.red_mustang Demo.plain_item fs).
Proof.
  split; [exact twice_valid|].
  split; [reflexivity|]. split; [reflexivity|].
  split; [vm_compute; reflexivity|].
  intros (fs & [Hfs|[]] & Hm). injection Hfs as <-.
  specialize (Hm "color"). discriminate Hm.
Qed.

(** C4 as stated fails for a stored collection that carries an id twice.
    Of the two stored records with the id [a], the second takes the place
    of the first, and the first is gone. *)
Lemma handlePost_keeps_order_counterexample :
  valid_post (rt := Demo.rt) Demo.config (Demo.post Demo.writer Demo.new_beetle)
    [Demo.beetle_normalized]
  /\ fst (loadExisting (rt := Demo.rt) (Demo.store_with (JArray Demo.repeated)))
     = JArray Demo.repeated
  /\ handlePost (rt := Demo.rt) Demo.config
       (Demo.post Demo.writer Demo.new_beetle)
       (Demo.store_with (JArray Demo.repeated))
     = (Normal (resp (rt := Demo.rt) 200
          (JArray [Demo.second_a; Demo.record_b; JObject Demo.beetle_normalized])
          noCache),
        written KEY
          (Demo.stringify_indent2
             (JArray [Demo.second_a; Demo.record_b;
                      JObject Demo.beetle_normalized]))
          (logged (CallGet KEY) (Demo.store_with (JArray Demo.repeated))))
  /\ [Demo.second_a; Demo.record_b; JObject Demo.beetle_normalized]
     <> (map (fun r => absorb (idOf r) r [Demo.beetle_normalized]) Demo.repeated
         ++ map (fun k => absorb k JUndefined [Demo.beetle_normalized])
                (newIds (map idOf Demo.repeated) [Demo.beetle_normalized]))%list
  /\ ~ In Demo.first_a
          [Demo.second_a; Demo.record_b; JObject Demo.beetle_normalized].
Proof.
  split; [exact new_beetle_valid|].
  split; [reflexivity|].
  split; [vm_compute; reflexivity|].
  split; [discriminate|].
  intros [H|[H|[H|[]]]]; discriminate H.
Qed.

(** C5 as stated fails for stored records whose ids are arrays (or
    objects): a [Map] tells two such keys apart, though they are written
    alike, and both records are stored again. *)
Lemma handlePost_distinct_ids_counterexample :
  valid_post (rt := Demo.rt) Demo.config (Demo.post Demo.writer Demo.new_beetle)
    [Demo.beetle_normalized]
  /\ handlePost (rt := Demo.rt) Demo.config
       (Demo.post Demo.writer Demo.new_beetle)
       (Demo.store_with (JArray Demo.array_ids))
     = (Normal (resp (rt := Demo.rt) 200
          (JArray (Demo.array_ids ++ [JObject Demo.beetle_normalized])) noCache),
        written KEY
          (Demo.stringify_indent2
             (JArray (Demo.array_ids ++ [JObject Demo.beetle_normalized])))
          (logged (CallGet KEY) (Demo.store_with (JArray Demo.array_ids))))
  /\ ~ List.NoDup
         (map idOf (Demo.array_ids ++ [JObject Demo.beetle_normalized])).
Proof.
  split; [exact new_beetle_valid|].
  split; [vm_compute; reflexivity|].
  intros H. apply List.NoDup_cons_iff in H as [H _]. apply H. now left.
Qed.


(** * Further properties *)

(** ** Identifier normalisation, word by word *)

Module Words.

Local Abbreviation split_eq a b :=
  (hd EmptyString (pieces a) = hd EmptyString (pieces b)
   /\ List.filter nonempty (tl (pieces a)) = List.filter nonempty (tl (pieces b))).

Lemma hyphen_not_alnum (c : ascii) : is_hyphen c = true -> is_alnum c = false.
Proof. NormalForm.by_char_cases c. Qed.

Lemma white_not_alnum (c : ascii) : is_white c = true -> is_alnum c = false.
Proof. NormalForm.by_char_cases c. Qed.

Lemma pieces_split (s : string) :
  pieces s = hd EmptyString (pieces s) :: tl (pieces s).
Proof.
  destruct s as [|c t]; [reflexivity|]. simpl.
  destruct (is_alnum c); [|reflexivity]. now destruct (pieces t).
Qed.

Lemma pieces_alnum (c : ascii) (t : string) :
  is_alnum c = true ->
  pieces (String c t) = String c (hd EmptyString (pieces t)) :: tl (pieces t).
Proof. intros H. simpl. rewrite H, (pieces_split t). reflexivity. Qed.

Lemma pieces_separator (c : ascii) (t : string) :
  is_alnum c = false -> pieces (String c t) = EmptyString :: pieces t.
Proof. intros H. simpl. now rewrite H. Qed.

Lemma words_separator (c : ascii) (t : string) :
  is_alnum c = false -> alnum_words (String c t) = alnum_words t.
Proof. intros H. unfold alnum_words. now rewrite (pieces_separator c t H). Qed.

Lemma split_eq_words (a b : string) : split_eq a b -> alnum_words a = alnum_words b.
Proof.
  intros [Hh Ht]. unfold alnum_words.
  rewrite (pieces_split a), (pieces_split b). simpl. now rewrite Hh, Ht.
Qed.

Lemma split_eq_cons (c : ascii) (a b : string) :
  split_eq a b -> split_eq (String c a) (String c b).
Proof.
  intros H. destruct (is_alnum c) eqn:Ec.
  - rewrite !(pieces_alnum c _ Ec). simpl. destruct H as [-> ->]. now split.
  - rewrite !(pieces_separator c _ Ec). simpl. split; [reflexivity|].
    exact (split_eq_words a b H).
Qed.

(** The steps of [normalizeId] keep the words. *)

Lemma collapse_split (t : string) :
  split_eq (collapse false t) t /\ alnum_words (collapse true t) = alnum_words t.
Proof.
  induction t as [|c t [IH1 IH2]]; [now repeat split|].
  cbn [collapse]. destruct (is_alnum c) eqn:Ec.
  - split; [now apply split_eq_cons|].
    apply split_eq_words. now apply split_eq_cons.
  - split.
    + rewrite (pieces_separator "-" _ eq_refl), (pieces_separator c _ Ec).
      simpl. split; [reflexivity|exact IH2].
    + now rewrite (words_separator c t Ec).
Qed.

Lemma drop_start_words (p : ascii -> bool) (s : string) :
  (forall c, p c = true -> is_alnum c = false) ->
  alnum_words (drop_start p s) = alnum_words s.
Proof.
  intros Hp. induction s as [|c t IH]; [reflexivity|]. cbn [drop_start].
  destruct (p c) eqn:Ec; [|reflexivity].
  now rewrite IH, (words_separator c t (Hp c Ec)).
Qed.

Lemma drop_end_split (p : ascii -> bool) (s : string) :
  (forall c, p c = true -> is_alnum c = false) -> split_eq (drop_end p s) s.
Proof.
  intros Hp. induction s as [|c t IH]; [now split|]. cbn [drop_end].
  destruct (drop_end p t) as [|d u] eqn:Ed.
  - destruct (p c) eqn:Ec.
    + rewrite (pieces_separator c t (Hp c Ec)). simpl.
      split; [reflexivity|].
      change (alnum_words EmptyString = alnum_words t).
      exact (split_eq_words _ _ IH).
    + now apply split_eq_cons.
  - now apply split_eq_cons.
Qed.

Lemma normalizeId_keeps_words (s : string) :
  alnum_words (normalizeId s) = alnum_words (toLowerCase s).
Proof.
  unfold normalizeId, strip_hyphens, replace_non_alnum_runs, trim.
  rewrite (split_eq_words _ _ (drop_end_split is_hyphen _ hyphen_not_alnum)).
  rewrite (drop_start_words is_hyphen _ hyphen_not_alnum).
  rewrite (split_eq_words _ _ (proj1 (collapse_split _))).
  rewrite (split_eq_words _ _ (drop_end_split is_white _ white_not_alnum)).
  apply (drop_start_words is_white _ white_not_alnum).
Qed.

(** A normal form is its words joined by hyphens. *)

Lemma concat_cons (c : ascii) (w : string) (ws : list string) :
  String.concat "-" (String c w :: ws) = String c (String.concat "-" (w :: ws)).
Proof. now destruct ws. Qed.

Lemma concat_empty (w : string) (ws : list string) :
  String.concat "-" (EmptyString :: w :: ws)
  = String "-" (String.concat "-" (w :: ws)).
Proof. reflexivity. Qed.

Lemma separated_concat (b : bool) (a : string) :
  separated b a = true -> String.concat "-" (pieces a) = a.
Proof.
  revert b. induction a as [|c t IH]; intros b H; [reflexivity|].
  simpl in H. destruct (is_alnum c) eqn:Ec.
  - rewrite (pieces_alnum c t Ec), concat_cons, <- (pieces_split t).
    f_equal. exact (IH false H).
  - apply andb_true_iff in H as [H1 H2]. apply andb_true_iff in H1 as [Hh _].
    rewrite (pieces_separator c t Ec), (pieces_split t), concat_empty.
    rewrite <- (pieces_split t), (IH true H2), (NormalForm.hyphen_is c Hh).
    reflexivity.
Qed.

Lemma closed_pieces (b : bool) (a : string) :
  closed b a = true ->
  forallb nonempty (tl (pieces a)) = true
  /\ (b = true -> nonempty (hd EmptyString (pieces a)) = true).
Proof.
  revert b. induction a as [|c t IH]; intros b H.
  - simpl in *. split; [reflexivity|]. intros ->. discriminate.
  - simpl in H. destruct (is_alnum c) eqn:Ec.
    + rewrite (pieces_alnum c t Ec). simpl. split; [|reflexivity].
      exact (proj1 (IH false H)).
    + apply andb_true_iff in H as [H1 H2]. apply andb_true_iff in H1 as [_ Hb].
      destruct b; [discriminate|].
      rewrite (pieces_separator c t Ec). simpl. split; [|discriminate].
      rewrite (pieces_split t). simpl.
      destruct (IH true H2) as [Ht Hh]. now rewrite Ht, (Hh eq_refl).
Qed.

Lemma filter_all {A : Type} (f : A -> bool) (l : list A) :
  forallb f l = true -> List.filter f l = l.
Proof.
  induction l as [|x t IH]; [reflexivity|]. simpl. intros H.
  apply andb_true_iff in H as [Hx Ht]. now rewrite Hx, IH.
Qed.

Lemma normal_form_words (a : string) :
  normal_form a -> String.concat "-" (alnum_words a) = a.
Proof.
  intros [->|H]; [reflexivity|].
  destruct (closed_pieces true a H) as [Ht Hh].
  unfold alnum_words. rewrite filter_all.
  - exact (separated_concat true a (NormalForm.closed_separated true a H)).
  - rewrite (pieces_split a). simpl. now rewrite Ht, (Hh eq_refl).
Qed.

Lemma normalizeId_concat (s : string) :
  normalizeId s = String.concat "-" (alnum_words (toLowerCase s)).
Proof.
  rewrite <- (normalizeId_keeps_words s).
  symmetry. apply normal_form_words, NormalForm.normalizeId_normal_form.
Qed.

Lemma words_nil (s : string) :
  alnum_words (toLowerCase s) = []
  <-> forallb (fun c => negb (is_alnum (lower_char c))) (list_ascii_of_string s)
      = true.
Proof.
  induction s as [|c t IH]; [now split|].
  cbn [toLowerCase list_ascii_of_string forallb].
  destruct (is_alnum (lower_char c)) eqn:Ec; cbn [negb andb].
  - split; [|discriminate]. unfold alnum_words.
    rewrite (pieces_alnum _ _ Ec). discriminate.
  - now rewrite (words_separator _ _ Ec).
Qed.

End Words.

(** X1. The id that [normalizeId] gives is the words of the lower-cased
    string, joined by single hyphens; a word is a longest run of characters
    in [[a-z0-9]]. *)
Theorem normalizeId_joins_words (s : string) :
  normalizeId s = String.concat "-" (alnum_words (toLowerCase s)).
Proof. apply Words.normalizeId_concat. Qed.

Example alnum_words_ex :
  alnum_words "  ford--mustang! gt 500 " = ["ford"; "mustang"; "gt"; "500"].
Proof. reflexivity. Qed.

(** X2. The id that [normalizeId] gives is in normal form: it is empty,
    or made of characters in [[a-z0-9]] and of single hyphens between
    them, with no hyphen at either end. *)
Theorem normalizeId_in_normal_form (s : string) : normal_form (normalizeId s).
Proof. apply NormalForm.normalizeId_normal_form. Qed.

(** X3. Two strings get the same id exactly when their lower-cased forms
    have the same words: letter case, and what stands between the words
    and around them, make no difference, and nothing else is lost. *)
Theorem normalizeId_collides (s t : string) :
  normalizeId s = normalizeId t
  <-> alnum_words (toLowerCase s) = alnum_words (toLowerCase t).
Proof.
  split; intros H.
  - now rewrite <- !Words.normalizeId_keeps_words, H.
  - now rewrite !Words.normalizeId_concat, H.
Qed.

(** X4. The id is empty exactly when the string has no character that
    lower-cases into [[a-z0-9]]: such an id is the one the validation
    reports as missing. *)
Theorem normalizeId_empty (s : string) :
  normalizeId s = EmptyString
  <-> forallb (fun c => negb (is_alnum (lower_char c))) (list_ascii_of_string s)
      = true.
Proof.
  rewrite <- Words.words_nil. split; intros H.
  - rewrite <- Words.normalizeId_keeps_words, H. reflexivity.
  - now rewrite Words.normalizeId_concat, H.
Qed.

(** ** Validation after normalisation *)

Section ValidationFacts.

Local Abbreviation item_t := (list (string * value)).

Lemma app_nil_inv {A : Type} (l1 l2 : list A) :
  (l1 ++ l2)%list = [] -> l1 = [] /\ l2 = [].
Proof. destruct l1; [now split|discriminate]. Qed.

Lemma cond_nil (b : bool) (msg : string) :
  (if b then [msg] else []) = [] <-> b = false.
Proof. destruct b; split; intros H; try reflexivity; discriminate. Qed.

(** No message: each of the five tests passes. *)
Lemma validateItem_nil (item : item_t) :
  validateItem item = []
  <-> (negb (truthy (getField "id" item))
       || negb (String.eqb (typeof (getField "id" item)) "string") = false)
      /\ truthy (getField "make" item) = true
      /\ truthy (getField "model" item) = true
      /\ (truthy (getField "year" item)
          && negb (String.eqb (typeof (getField "year" item)) "number") = false)
      /\ (truthy (getField "status" item)
          && negb (existsb (sameValueZero (getField "status" item))
                     [JString "Available"; JString "On Hold";
                      JString "Sold"; JString "Draft"]) = false).
Proof.
  unfold validateItem. split.
  - intros H.
    apply app_nil_inv in H as [H1 H]. apply app_nil_inv in H as [H2 H].
    apply app_nil_inv in H as [H3 H]. apply app_nil_inv in H as [H4 H5].
    apply cond_nil in H1, H2, H3, H4, H5.
    apply negb_false_iff in H2, H3. now repeat split.
  - intros (H1 & H2 & H3 & H4 & H5). now rewrite H1, H2, H3, H4, H5.
Qed.

Lemma truthy_present (f : string) (item : item_t) :
  truthy (getField f item) = true ->
  exists v, lookupField f item = Some v /\ getField f item = v.
Proof.
  unfold getField. destruct (lookupField f item) as [v|]; [eauto|discriminate].
Qed.

(** What the validation sees of a shallow merge. *)
Lemma field_merge_getField (old item m : item_t) (f : string) :
  field_merge old item m ->
  getField f m = match lookupField f item with
                 | Some v => v
                 | None => getField f old
                 end.
Proof. intros H. unfold getField. rewrite (H f). now destruct (lookupField f item). Qed.

Lemma validateItem_merge (old item m : item_t) :
  field_merge old item m ->
  validateItem old = [] -> validateItem item = [] -> validateItem m = [].
Proof.
  intros Hm Ho Hi. apply validateItem_nil in Ho, Hi. apply validateItem_nil.
  destruct Ho as (_ & _ & _ & Ho4 & Ho5).
  destruct Hi as (Hi1 & Hi2 & Hi3 & Hi4 & Hi5).
  assert (Hid : truthy (getField "id" item) = true).
  { apply orb_false_iff in Hi1 as [Hi1 _]. now apply negb_false_iff in Hi1. }
  destruct (truthy_present "id" item Hid) as (v1 & L1 & G1).
  destruct (truthy_present "make" item Hi2) as (v2 & L2 & G2).
  destruct (truthy_present "model" item Hi3) as (v3 & L3 & G3).
  rewrite !(field_merge_getField old item m _ Hm), L1, L2, L3.
  rewrite <- G1, <- G2, <- G3. repeat split; try assumption.
  - unfold getField in Hi4. now destruct (lookupField "year" item).
  - unfold getField in Hi5. now destruct (lookupField "status" item).
Qed.

Lemma validateItem_new (item : item_t) :
  List.NoDup (map fst item) ->
  validateItem (spread2 JUndefined (JObject item)) = validateItem item.
Proof.
  intros Hn. unfold validateItem, getField, spread2. cbn [ownProps setFields fold_left].
  rewrite !(lookupField_setFields _ item [] Hn).
  now destruct (lookupField "id" item), (lookupField "make" item),
    (lookupField "model" item), (lookupField "year" item),
    (lookupField "status" item).
Qed.

Lemma validationErrorsFrom_nil (idx : nat) (incoming : list item_t) :
  validationErrorsFrom idx incoming = [] ->
  Forall (fun item => validateItem item = []) incoming.
Proof.
  revert idx. induction incoming as [|item t IH]; intros idx H; [constructor|].
  cbn [validationErrorsFrom] in H. apply app_nil_inv in H as [H1 H2].
  constructor; [|exact (IH _ H2)].
  now destruct (validateItem item).
Qed.

End ValidationFacts.

(** X5. Once an item is normalised its id is a string, so the message
    [id is required string] is given exactly when the normalised id is
    empty: the test on the type of the id never decides. *)
Theorem validateItem_id_after_normalizeItem (v : value)
    (item : list (string * value)) :
  normalizeItem v = Normal item ->
  (exists s, getField "id" item = JString s /\ normal_form s)
  /\ (In "id is required string" (validateItem item)
      <-> getField "id" item = JString EmptyString).
Proof.
  intros H.
  assert (Hs : exists s, getField "id" item = JString s /\ normal_form s).
  { unfold normalizeItem in H. destruct (deriveId v) as [id|e] eqn:Hd;
      cbn [andThen] in H; [|discriminate]. injection H as <-.
    exists id. split.
    - unfold getField. rewrite lookupField_setField. now rewrite String.eqb_refl.
    - unfold deriveId in Hd. destruct (getProp v "id") as [i|e]; cbn [andThen] in Hd;
        [|discriminate].
      destruct (truthy i).
      + destruct i; simpl in Hd; try discriminate; injection Hd as <-;
          apply NormalForm.normalizeId_normal_form.
      + destruct (getProp v "make") as [make|]; cbn [andThen] in Hd;
          [|discriminate].
        destruct (ToString make); cbn [andThen] in Hd; [|discriminate].
        destruct (getProp v "model") as [model|]; cbn [andThen] in Hd;
          [|discriminate].
        destruct (ToString model); cbn [andThen] in Hd; [|discriminate].
        destruct (getProp v "year") as [year|]; cbn [andThen] in Hd;
          [|discriminate].
        destruct (ToString _); cbn [andThen] in Hd; [|discriminate].
        injection Hd as <-. apply NormalForm.normalizeId_normal_form. }
  split; [exact Hs|]. destruct Hs as (s & Hs & _).
  unfold validateItem. rewrite Hs. cbn [truthy typeof].
  rewrite (String.eqb_refl "string"). cbn [negb]. rewrite orb_false_r.
  destruct (String.eqb s EmptyString) eqn:Es; cbn [negb].
  - apply String.eqb_eq in Es. subst s. split; [reflexivity|]. intros _. now left.
  - apply String.eqb_neq in Es. split; [|intros E; injection E; contradiction].
    intros Hin. exfalso. cbn [app] in Hin.
    repeat match type of Hin with
           | In _ (_ ++ _) => apply List.in_app_iff in Hin as [Hin|Hin]
           | In _ (if ?b then _ else _) => destruct b
           | In _ [_] => destruct Hin as [Hin|[]]; discriminate Hin
           | In _ [] => destruct Hin
           end.
Qed.

Lemma validateItem_id_after_normalizeItem_witness :
  (exists s, getField "id" [("id", JString EmptyString)] = JString s
             /\ normal_form s)
  /\ (In "id is required string" (validateItem [("id", JString EmptyString)])
      <-> getField "id" [("id", JString EmptyString)] = JString EmptyString).
Proof.
  apply (validateItem_id_after_normalizeItem (JObject [("id", JString "?!")])).
  reflexivity.
Defined.

(** ** What the upsert keeps *)

Section MapValues.
Variable P : value -> Prop.

Lemma map_get_cases (k : value) (m : list (value * value)) :
  map_get k m = JUndefined \/ In (map_get k m) (map snd m).
Proof.
  induction m as [|[ke ve] t IH]; [now left|]. simpl.
  destruct (sameValueZero ke k); [right; now left|].
  destruct IH as [IH|IH]; [now left|right; now right].
Qed.

Lemma map_set_values (k v : value) (m : list (value * value)) :
  Forall P (map snd m) -> P v -> Forall P (map snd (map_set k v m)).
Proof.
  intros Hm Hv. induction m as [|[ke ve] t IH]; simpl.
  - now repeat constructor.
  - apply List.Forall_cons_iff in Hm as [He Ht].
    destruct (sameValueZero ke k); simpl; constructor; auto.
Qed.

Lemma new_Map_values (entries : list (value * value)) :
  Forall P (map snd entries) -> Forall P (map snd (new_Map entries)).
Proof.
  intros H. unfold new_Map.
  assert (G : forall m, Forall P (map snd m) ->
    Forall P (map snd (fold_left (fun m kv => map_set (fst kv) (snd kv) m)
                                 entries m))).
  { induction entries as [|[k v] t IH]; intros m Hm; [exact Hm|].
    apply List.Forall_cons_iff in H as [Hv Ht]. cbn [fold_left fst snd].
    apply (IH Ht). now apply map_set_values. }
  apply G. constructor.
Qed.

End MapValues.

Lemma mergeStep_valid (m : list (value * value)) (item : list (string * value)) :
  Forall valid_record (map snd m) ->
  normalized item -> validateItem item = [] ->
  Forall valid_record (map snd (mergeStep m item)).
Proof.
  intros Hm Hn Hv. unfold mergeStep. apply map_set_values; [exact Hm|].
  destruct Hn as [Hd _].
  destruct (map_get_cases (getField "id" item) m) as [->|Hin].
  - eexists. split; [reflexivity|]. split.
    + apply setFields_NoDup, setFields_NoDup. constructor.
    + now rewrite (validateItem_new item Hd).
  - rewrite List.Forall_forall in Hm.
    destruct (Hm _ Hin) as (ofs & -> & Hod & Hov).
    eexists. split; [reflexivity|]. split.
    + apply setFields_NoDup, setFields_NoDup. constructor.
    + exact (validateItem_merge ofs item _ (spread2_field_merge ofs item Hod Hd)
               Hov Hv).
Qed.

Lemma merge_valid (incoming : list (list (string * value)))
    (m : list (value * value)) :
  Forall normalized incoming ->
  Forall (fun item => validateItem item = []) incoming ->
  Forall valid_record (map snd m) ->
  Forall valid_record (map snd (fold_left mergeStep incoming m)).
Proof.
  intros Hn. revert m. induction Hn as [|item t Hi _ IH]; intros m Hv Hm;
    [exact Hm|].
  apply List.Forall_cons_iff in Hv as [Hv1 Hv2]. cbn [fold_left].
  apply (IH _ Hv2). now apply mergeStep_valid.
Qed.

Lemma valid_record_readable (recs : list value) :
  Forall valid_record recs -> forallb readable recs = true.
Proof.
  induction 1 as [|r t (fs & -> & _) _ IH]; [reflexivity|]. exact IH.
Qed.

Section KeptByUpsert.
Context {rt : Runtime} (cfg : Config).

(** X6. The upsert keeps the collection valid: when every stored record
    is an object that [validateItem] accepts, so is every record of the
    collection that an accepted batch hands to the store. *)
Theorem handlePost_keeps_records_valid (event : Event) (st : Store)
    (incoming : list (list (string * value))) (recs : list value) :
  valid_post cfg event incoming ->
  fst (loadExisting st) = JArray recs ->
  Forall valid_record recs ->
  exists merged,
    handlePost cfg event st = persist merged (logged (CallGet KEY) st)
    /\ Forall valid_record merged.
Proof.
  intros Hv He Hr. eexists. split.
  - exact (handlePost_merges cfg event st incoming recs Hv He
             (valid_record_readable recs Hr)).
  - apply merge_valid.
    + exact (valid_post_normalized cfg event incoming Hv).
    + destruct Hv as (_ & _ & _ & _ & _ & _ & _ & Hnil).
      exact (validationErrorsFrom_nil 0 incoming Hnil).
    + apply new_Map_values. now rewrite values_entriesOf.
Qed.

End KeptByUpsert.

Lemma handlePost_keeps_records_valid_witness :
  exists merged,
    handlePost (rt := Demo.rt) Demo.config
      (Demo.post Demo.writer Demo.update_and_new) (Demo.store_with Demo.inventory)
    = persist (rt := Demo.rt) merged
        (logged (CallGet KEY) (Demo.store_with Demo.inventory))
    /\ Forall valid_record merged.
Proof.
  apply (handlePost_keeps_records_valid (rt := Demo.rt) Demo.config _ _ _
           [JObject Demo.mustang; JObject Demo.civic] update_and_new_valid);
    [reflexivity|].
  repeat constructor; eexists; (split; [reflexivity|]); (split; [|reflexivity]);
    repeat (constructor; [simpl; intuition discriminate|]); constructor.
Defined.

(** ** What the handlers do to the store *)

Section StoreEffects.
Context {rt : Runtime} (cfg : Config).

Lemma persist_blobs (merged : list value) (st : Store) :
  blobs (snd (persist merged st)) = blobs st
  \/ persist merged st
     = (Normal (resp 200 (JArray merged) noCache),
        written KEY (JSON_stringify_indent2 (JArray merged)) st).
Proof.
  unfold persist, store_set, written. destruct (setFault st) as [e|];
    [now left|now right].
Qed.

Lemma handlePost_blobs (event : Event) (st : Store) :
  blobs (snd (handlePost cfg event st)) = blobs st
  \/ exists merged,
       fst (handlePost cfg event st) = Normal (resp 200 (JArray merged) noCache)
       /\ blobs (snd (handlePost cfg event st))
          = <[KEY := JSON_stringify_indent2 (JArray merged)]> (blobs st).
Proof.
  unfold handlePost.
  destruct (verifyAuth cfg _ _); [|now left].
  destruct (JSON_parse (bodyText event)); [|now left].
  destruct (selectIncoming _) as [[items|]|]; [|now left|now left].
  destruct (mapC normalizeItem items) as [incoming|]; [|now left].
  destruct (validationErrors incoming); [|now left].
  pose proof (loadExisting_logged st) as Hl.
  destruct (loadExisting st) as [existing st1]. cbn [snd] in Hl. subst st1.
  destruct (mergeInventory existing incoming) as [merged|]; [|now left].
  destruct (persist_blobs merged (logged (CallGet KEY) st)) as [Hs|Hp].
  - left. exact Hs.
  - right. exists merged. now rewrite Hp.
Qed.

(** X7. A POST is all or nothing: whatever the request and the state of
    the store, either no stored text changes, or the answer is [200] with
    the merged collection and the only change is the inventory document,
    replaced by that collection.  No other key is ever written. *)
Theorem handlePost_all_or_nothing (event : Event) (st : Store) :
  blobs (snd (handlePost cfg event st)) = blobs st
  \/ exists merged,
       fst (handlePost cfg event st) = Normal (resp 200 (JArray merged) noCache)
       /\ blobs (snd (handlePost cfg event st))
          = <[KEY := JSON_stringify_indent2 (JArray merged)]> (blobs st).
Proof. apply handlePost_blobs. Qed.

(** X8. A GET always answers, with [200] or [500]; it reads the
    inventory document once and writes nothing. *)
Theorem handleGet_answers (event : Event) (st : Store) :
  exists r,
    handleGet cfg event st = (Normal r, logged (CallGet KEY) st)
    /\ (statusCode r = 200 \/ statusCode r = 500).
Proof.
  unfold handleGet. pose proof (store_get_logged KEY st) as Hs.
  destruct (store_get KEY st) as [[raw|err] st1]; cbn [snd] in Hs; subst st1;
    [|eexists; split; [reflexivity|now right]].
  destruct (negb (truthy_env raw)); [eexists; split; [reflexivity|now left]|].
  destruct (JSON_parse _); [|eexists; split; [reflexivity|now right]].
  destruct (elevated cfg event); [eexists; split; [reflexivity|now left]|].
  destruct (withoutDrafts _); eexists; (split; [reflexivity|]);
    [now left|now right].
Qed.

(** X9. A GET that does not ask for the drafts with [includeDrafts=1], or
    whose token the verifier refuses for any reason, gets the very answer
    of a GET with no token and no query: the failure is not reported. *)
Theorem handleGet_failed_auth_is_anonymous (event : Event) (st : Store) :
  includeDrafts event <> Some "1"
  \/ (exists err,
        verifyAuth cfg (authorization event) "inventory:read" = Throw err) ->
  handleGet cfg event st = handleGet cfg (anonymous event) st.
Proof.
  intros H.
  assert (He : elevated cfg event = false).
  { apply not_true_is_false. intros He. apply elevated_iff in He as [Hq [c Hc]].
    destruct H as [H|[err H]]; [contradiction|congruence]. }
  unfold handleGet. now rewrite He.
Qed.

(** X10. While the store holds no inventory document, or an empty one,
    every GET is answered with [200] and the empty list. *)
Theorem handleGet_empty_store (event : Event) (st : Store) :
  getFault st = None ->
  blobs st !! KEY = None \/ blobs st !! KEY = Some EmptyString ->
  handleGet cfg event st
  = (Normal (resp 200 (JArray []) noCache), logged (CallGet KEY) st).
Proof.
  intros Hf Hb. unfold handleGet, store_get, logged. rewrite Hf.
  now destruct Hb as [-> | ->].
Qed.

(** X11. A fault of the store, or a stored text that does not parse, is
    answered with [500] and the message of the error, whoever asks. *)
Theorem handleGet_read_failure (event : Event) (st : Store) (err : JsError) :
  getFault st = Some err
  \/ (exists raw, getFault st = None /\ blobs st !! KEY = Some raw
                  /\ raw <> EmptyString /\ JSON_parse raw = Throw err) ->
  handleGet cfg event st
  = (Normal (resp 500 (errorDetail "Failed to read inventory" (message err)) []),
     logged (CallGet KEY) st).
Proof.
  intros [Hf|(raw & Hf & Hb & Hne & Hp)]; unfold handleGet.
  - unfold store_get, logged. now rewrite Hf.
  - rewrite (store_get_found st raw Hf Hb). cbn [truthy_env env_string].
    apply String.eqb_neq in Hne. rewrite Hne. cbn [negb]. now rewrite Hp.
Qed.

Lemma withoutDrafts_null (l : list value) :
  In JNull l -> Forall (fun i => i <> JUndefined) l ->
  withoutDrafts l
  = Throw (TypeError "Cannot read properties of null (reading 'status')").
Proof.
  unfold withoutDrafts. induction l as [|i t IH]; intros Hin Hu; [contradiction|].
  apply List.Forall_cons_iff in Hu as [Hi Ht]. cbn [filterC].
  destruct i; try contradiction; try reflexivity;
    (destruct Hin as [Hin|Hin]; [discriminate Hin|]);
    cbn; now rewrite (IH Hin Ht).
Qed.

(** X12. A [null] among the stored records breaks the public list, which
    reads the status of every record, and not the list with the drafts,
    which reads none. *)
Theorem handleGet_null_record (event : Event) (st : Store) (records : list value) :
  stored_document st (JArray records) ->
  In JNull records ->
  Forall (fun i => i <> JUndefined) records ->
  handleGet cfg event st
  = (if elevated cfg event
     then Normal (resp 200 (JArray records) noCache)
     else Normal (resp 500
            (errorDetail "Failed to read inventory"
               "Cannot read properties of null (reading 'status')") []),
     logged (CallGet KEY) st).
Proof.
  intros (raw & Hf & Hb & Hne & Hp) Hin Hu. unfold handleGet.
  rewrite (store_get_found st raw Hf Hb). cbn [truthy_env env_string].
  apply String.eqb_neq in Hne. rewrite Hne. cbn [negb]. rewrite Hp.
  destruct (elevated cfg event); [reflexivity|].
  now rewrite (withoutDrafts_null records Hin Hu).
Qed.

End StoreEffects.

Lemma handleGet_failed_auth_is_anonymous_witness :
  handleGet (rt := Demo.rt) Demo.config
    (Demo.get (Some "Bearer forged") (Some "1")) (Demo.store_with Demo.inventory)
  = handleGet (rt := Demo.rt) Demo.config
      (anonymous (Demo.get (Some "Bearer forged") (Some "1")))
      (Demo.store_with Demo.inventory).
Proof.
  apply (handleGet_failed_auth_is_anonymous (rt := Demo.rt) Demo.config).
  right. eexists. reflexivity.
Defined.

Lemma handleGet_empty_store_witness :
  handleGet (rt := Demo.rt) Demo.config (Demo.get Demo.reader (Some "1"))
    Demo.empty_store
  = (Normal (resp (rt := Demo.rt) 200 (JArray []) noCache),
     logged (CallGet KEY) Demo.empty_store).
Proof.
  apply (handleGet_empty_store (rt := Demo.rt) Demo.config); [reflexivity|].
  left. reflexivity.
Defined.

Lemma handleGet_read_failure_witness :
  handleGet (rt := Demo.rt) Demo.config (Demo.get None None)
    {| blobs := ∅; getFault := Some (mkError "Error" "store unavailable" None);
       setFault := None; calls := [] |}
  = (Normal (resp (rt := Demo.rt) 500
       (errorDetail "Failed to read inventory"
          (message (mkError "Error" "store unavailable" None))) []),
     logged (CallGet KEY)
       {| blobs := ∅; getFault := Some (mkError "Error" "store unavailable" None);
          setFault := None; calls := [] |}).
Proof.
  apply (handleGet_read_failure (rt := Demo.rt) Demo.config). now left.
Defined.

Lemma handleGet_null_record_witness :
  handleGet (rt := Demo.runtime [JArray [JObject Demo.mustang; JNull]])
    Demo.config (Demo.get None None)
    (Demo.store_with (JArray [JObject Demo.mustang; JNull]))
  = (if elevated (rt := Demo.runtime [JArray [JObject Demo.mustang; JNull]])
          Demo.config (Demo.get None None)
     then Normal (resp (rt := Demo.rt) 200
            (JArray [JObject Demo.mustang; JNull]) noCache)
     else Normal (resp (rt := Demo.rt) 500
            (errorDetail "Failed to read inventory"
               "Cannot read properties of null (reading 'status')") []),
     logged (CallGet KEY)
       (Demo.store_with (JArray [JObject Demo.mustang; JNull]))).
Proof.
  apply (handleGet_null_record
           (rt := Demo.runtime [JArray [JObject Demo.mustang; JNull]])
           Demo.config).
  - eexists. split; [reflexivity|]. split; [apply lookup_singleton_eq|].
    split; [discriminate|reflexivity].
  - right. now left.
  - repeat constructor; discriminate.
Defined.

(** ** The upsert on an empty start, and the ids it keeps *)

Section FreshBatch.

Local Abbreviation batch := (list (list (string * value))).

Lemma setField_absent {V : Type} (k : string) (v : V) (fs : list (string * V)) :
  ~ In k (map fst fs) -> setField k v fs = (fs ++ [(k, v)])%list.
Proof.
  induction fs as [|[k' v'] t IH]; intros H; [reflexivity|]. simpl.
  destruct (String.eqb k' k) eqn:E.
  - apply String.eqb_eq in E. subst k'. exfalso. apply H. now left.
  - f_equal. apply IH. intros Hin. apply H. now right.
Qed.

Lemma setFields_fresh {V : Type} (src fs : list (string * V)) :
  List.NoDup (map fst (fs ++ src)) -> setFields src fs = (fs ++ src)%list.
Proof.
  unfold setFields. revert fs.
  induction src as [|[k v] t IH]; intros fs H; simpl.
  - now rewrite List.app_nil_r.
  - rewrite setField_absent.
    + rewrite IH; rewrite <- List.app_assoc; [reflexivity|exact H].
    + rewrite List.map_app in H. apply List.NoDup_remove_2 in H.
      intros Hin. apply H. apply List.in_app_iff. now left.
Qed.

Lemma spread2_new (item : list (string * value)) :
  List.NoDup (map fst item) -> spread2 JUndefined (JObject item) = item.
Proof.
  intros H. unfold spread2. cbn [ownProps setFields fold_left].
  now apply (setFields_fresh item []).
Qed.

(** Items with new ids that differ are added as they come. *)
Lemma merge_fresh_batch (incoming : batch) (m : list (value * value)) :
  Forall normalized incoming ->
  List.NoDup (map fst m ++ map (getField "id") incoming) ->
  fold_left mergeStep incoming m
  = (m ++ map (fun item => (getField "id" item, JObject item)) incoming)%list.
Proof.
  intros Hn. revert m. induction Hn as [|item t Hi _ IH]; intros m Hd.
  - simpl. now rewrite List.app_nil_r.
  - cbn [fold_left map]. rewrite mergeStep_absent.
    + rewrite (spread2_new item (proj1 Hi)), IH.
      * now rewrite <- List.app_assoc.
      * rewrite List.map_app. cbn [map fst]. now rewrite <- List.app_assoc.
    + apply not_true_is_false. intros E.
      apply existsb_exists in E as [k [Hk Ek]]. apply sameValueZero_eq in Ek.
      subst k. cbn [map] in Hd. apply List.NoDup_remove_2 in Hd. apply Hd.
      apply List.in_app_iff. now left.
Qed.

Lemma keys_new_Map (k : value) (entries : list (value * value)) :
  In k (map fst (new_Map entries)) <-> In k (map fst entries).
Proof.
  unfold new_Map.
  assert (G : forall m,
    In k (map fst (fold_left (fun m kv => map_set (fst kv) (snd kv) m) entries m))
    <-> In k (map fst m) \/ In k (map fst entries)).
  { induction entries as [|[k' v'] t IH]; intros m; cbn [fold_left map fst snd].
    - simpl. tauto.
    - rewrite IH, keys_map_set.
      destruct (existsb _ (map fst m)) eqn:E.
      + apply existsb_exists in E as [k0 [Hk0 E0]]. apply sameValueZero_eq in E0.
        subst k0. simpl. split; [tauto|]. intros [H|[H|H]]; try tauto.
        subst. tauto.
      + rewrite List.in_app_iff. simpl. tauto. }
  rewrite G. simpl. tauto.
Qed.

Lemma newIds_incoming (seen : list value) (incoming : batch) (k : value) :
  In k (newIds seen incoming) -> In k (map (getField "id") incoming).
Proof.
  revert seen. induction incoming as [|item t IH]; intros seen H; [contradiction|].
  cbn [newIds] in H. destruct (existsb _ seen).
  - right. exact (IH _ H).
  - destruct H as [H|H]; [now left|right; exact (IH _ H)].
Qed.

Lemma newIds_complete (seen : list value) (incoming : batch)
    (item : list (string * value)) :
  In item incoming ->
  In (getField "id" item) seen \/ In (getField "id" item) (newIds seen incoming).
Proof.
  revert seen. induction incoming as [|x t IH]; intros seen H; [contradiction|].
  cbn [newIds]. destruct (existsb _ seen) eqn:E.
  - destruct H as [->|H]; [|exact (IH seen H)].
    apply existsb_exists in E as [k [Hk Ek]]. apply sameValueZero_eq in Ek.
    subst k. now left.
  - destruct H as [->|H]; [right; now left|].
    destruct (IH (seen ++ [getField "id" x])%list H) as [Hs|Hs].
    + apply List.in_app_iff in Hs as [Hs|[Hs|[]]]; [now left|].
      right. left. exact Hs.
    + right. now right.
Qed.

(** The ids after the merge: those of the map and those of the batch. *)
Lemma merge_keys (incoming : batch) (m : list (value * value)) (k : value) :
  distinct (map fst m) ->
  Forall normalized incoming ->
  In k (map fst (fold_left mergeStep incoming m))
  <-> In k (map fst m) \/ In k (map (getField "id") incoming).
Proof.
  intros Hd Hn. rewrite (merge_fold incoming m Hd (normalized_primitive _ Hn)).
  rewrite List.map_app, !List.map_map. cbn [fst]. rewrite List.map_id.
  rewrite List.in_app_iff. split.
  - intros [H|H]; [now left|right]. exact (newIds_incoming _ _ _ H).
  - intros [H|H]; [now left|].
    apply List.in_map_iff in H as [item [<- Hin]].
    exact (newIds_complete (map fst m) incoming item Hin).
Qed.

(** The ids of the merged records: those of the stored records and those
    of the batch. *)
Lemma merge_ids (recs : list value) (incoming : batch) (k : value) :
  Forall (fun r => primitive (idOf r) = true) recs ->
  Forall normalized incoming ->
  In k (map idOf
          (map snd (fold_left mergeStep incoming (new_Map (entriesOf recs)))))
  <-> In k (map idOf recs) \/ In k (map (getField "id") incoming).
Proof.
  intros Hp Hn.
  destruct (merge_keeps_ids incoming (new_Map (entriesOf recs)) Hn) as [_ Hm].
  { split; [apply new_Map_distinct|now apply new_Map_keeps_ids]. }
  assert (E : map idOf (map snd (fold_left mergeStep incoming
                                   (new_Map (entriesOf recs))))
              = map fst (fold_left mergeStep incoming (new_Map (entriesOf recs)))).
  { rewrite List.map_map. apply List.map_ext_in. intros e Hin.
    rewrite List.Forall_forall in Hm. now destruct (Hm e Hin). }
  rewrite E, (merge_keys incoming _ k (new_Map_distinct _) Hn).
  now rewrite keys_new_Map, keys_entriesOf.
Qed.

End FreshBatch.

Section UpsertStart.
Context {rt : Runtime} (cfg : Config).

Lemma loadExisting_nothing (st : Store) :
  (exists e, getFault st = Some e)
  \/ blobs st !! KEY = None
  \/ blobs st !! KEY = Some EmptyString
  \/ (exists raw e, blobs st !! KEY = Some raw /\ JSON_parse raw = Throw e) ->
  fst (loadExisting st) = JArray [].
Proof.
  unfold loadExisting, store_get.
  intros [[e He]|H]; [now rewrite He|].
  destruct (getFault st); [reflexivity|].
  destruct H as [->|[->|(raw & e & -> & Hp)]]; try reflexivity.
  cbn [truthy_env env_string]. destruct (negb _); [|reflexivity]. now rewrite Hp.
Qed.

(** X13. When the inventory document is absent, empty or unparsable, and
    also when the read of the store fails, an accepted batch whose ids
    differ becomes the whole stored collection, as it is after
    normalisation: whatever the store held under the key is replaced. *)
Theorem handlePost_without_document (event : Event) (st : Store)
    (incoming : list (list (string * value))) :
  valid_post cfg event incoming ->
  (exists e, getFault st = Some e)
  \/ blobs st !! KEY = None
  \/ blobs st !! KEY = Some EmptyString
  \/ (exists raw e, blobs st !! KEY = Some raw /\ JSON_parse raw = Throw e) ->
  setFault st = None ->
  List.NoDup (map (getField "id") incoming) ->
  handlePost cfg event st
  = (Normal (resp 200 (JArray (map JObject incoming)) noCache),
     written KEY (JSON_stringify_indent2 (JArray (map JObject incoming)))
             (logged (CallGet KEY) st)).
Proof.
  intros Hv Hl Hf Hd.
  rewrite (handlePost_stores cfg event st incoming [] Hv
             (loadExisting_nothing st Hl) eq_refl Hf).
  rewrite (merge_fresh_batch incoming (new_Map (entriesOf []))
             (valid_post_normalized cfg event incoming Hv) Hd).
  cbn [entriesOf map new_Map fold_left app]. now rewrite List.map_map.
Qed.

(** X14. When the stored records are readable and none has an object as
    its id, the ids of the collection that an accepted batch hands to the
    store are the ids of the stored records and the ids of the batch, all
    of them and no other: the upsert removes no id and invents none. *)
Theorem handlePost_ids (event : Event) (st : Store)
    (incoming : list (list (string * value))) (recs : list value) :
  valid_post cfg event incoming ->
  fst (loadExisting st) = JArray recs ->
  forallb readable recs = true ->
  Forall (fun r => primitive (idOf r) = true) recs ->
  exists merged,
    handlePost cfg event st = persist merged (logged (CallGet KEY) st)
    /\ forall k,
         In k (map idOf merged)
         <-> In k (map idOf recs) \/ In k (map (getField "id") incoming).
Proof.
  intros Hv He Hr Hp. eexists. split.
  - exact (handlePost_merges cfg event st incoming recs Hv He Hr).
  - intros k.
    exact (merge_ids recs incoming k Hp (valid_post_normalized cfg event incoming Hv)).
Qed.

(** C5, amended. The stored document is an array of records that can be
    read, none with an object or an array as its id.  Then the merge of an
    accepted batch completes, whatever ids the batch or the stored records
    repeat: the request is not turned away, the collection handed to the
    store has ids that differ, every id of the stored records and of the
    batch is among them, and when the store takes the write the answer is
    [200] with that collection. *)
Theorem handlePost_distinct_ids (event : Event) (st : Store)
    (incoming : list (list (string * value))) (recs : list value) :
  valid_post cfg event incoming ->
  fst (loadExisting st) = JArray recs ->
  forallb readable recs = true ->
  Forall (fun r => primitive (idOf r) = true) recs ->
  exists merged,
    mergeInventory (JArray recs) incoming = Normal merged
    /\ handlePost cfg event st = persist merged (logged (CallGet KEY) st)
    /\ List.NoDup (map idOf merged)
    /\ (forall k,
          In k (map idOf recs) \/ In k (map (getField "id") incoming) ->
          In k (map idOf merged))
    /\ (setFault st = None ->
        handlePost cfg event st
        = (Normal (resp 200 (JArray merged) noCache),
           written KEY (JSON_stringify_indent2 (JArray merged))
                   (logged (CallGet KEY) st))).
Proof.
  intros Hv He Hr Hp.
  pose proof (valid_post_normalized cfg event incoming Hv) as Hn.
  exists (map snd (fold_left mergeStep incoming (new_Map (entriesOf recs)))).
  split; [|split; [|split; [|split]]].
  - unfold mergeInventory. now rewrite (mapC_entries recs Hr).
  - exact (handlePost_merges cfg event st incoming recs Hv He Hr).
  - now apply merge_ids_NoDup.
  - intros k Hk. now apply merge_ids.
  - intros Hf. exact (handlePost_stores cfg event st incoming recs Hv He Hr Hf).
Qed.

End UpsertStart.

Lemma handlePost_distinct_ids_witness :
  handlePost (rt := Demo.rt) Demo.config (Demo.post Demo.writer Demo.twice)
    (Demo.store_with (JArray Demo.repeated))
  = (Normal (resp (rt := Demo.rt) 200
       (JArray [Demo.second_a; Demo.record_b; JObject Demo.blue_item]) noCache),
     written KEY
       (Demo.stringify_indent2
          (JArray [Demo.second_a; Demo.record_b; JObject Demo.blue_item]))
       (logged (CallGet KEY) (Demo.store_with (JArray Demo.repeated))))
  /\ List.NoDup
       (map idOf [Demo.second_a; Demo.record_b; JObject Demo.blue_item])
  /\ map idOf Demo.repeated = [JString "a"; JString "b"; JString "a"]
  /\ map (getField "id") [Demo.blue_item; Demo.plain_item]
     = [JString "a-1"; JString "a-1"].
Proof.
  destruct (handlePost_distinct_ids (rt := Demo.rt) Demo.config
              (Demo.post Demo.writer Demo.twice)
              (Demo.store_with (JArray Demo.repeated))
              [Demo.blue_item; Demo.plain_item] Demo.repeated twice_valid)
    as (merged & Hm & _ & Hd & _ & Hp).
  - vm_compute. reflexivity.
  - reflexivity.
  - repeat constructor.
  - vm_compute in Hm. injection Hm as <-.
    split; [exact (Hp eq_refl)|]. split; [exact Hd|]. split; reflexivity.
Defined.

Lemma handlePost_without_document_witness :
  handlePost (rt := Demo.rt) Demo.config
    (Demo.post Demo.writer Demo.update_and_new)
    {| blobs := {[ KEY := "[{" ]}; getFault := None; setFault := None;
       calls := [] |}
  = (Normal (resp (rt := Demo.rt) 200
       (JArray (map JObject
                  [Demo.beetle_normalized; Demo.mustang_sold_normalized]))
       noCache),
     written KEY
       (Demo.stringify_indent2
          (JArray (map JObject
                     [Demo.beetle_normalized; Demo.mustang_sold_normalized])))
       (logged (CallGet KEY)
          {| blobs := {[ KEY := "[{" ]}; getFault := None; setFault := None;
             calls := [] |})).
Proof.
  apply (handlePost_without_document (rt := Demo.rt) Demo.config _ _ _
           update_and_new_valid); [|reflexivity|].
  - right. right. right. eexists _, _. split; [apply lookup_singleton_eq|].
    reflexivity.
  - repeat (constructor; [simpl; intuition discriminate|]). constructor.
Defined.

Lemma handlePost_ids_witness :
  exists merged,
    handlePost (rt := Demo.rt) Demo.config
      (Demo.post Demo.writer Demo.update_and_new) (Demo.store_with Demo.inventory)
    = persist (rt := Demo.rt) merged
        (logged (CallGet KEY) (Demo.store_with Demo.inventory))
    /\ forall k,
         In k (map idOf merged)
         <-> In k (map idOf [JObject Demo.mustang; JObject Demo.civic])
             \/ In k (map (getField "id")
                        [Demo.beetle_normalized; Demo.mustang_sold_normalized]).
Proof.
  apply (handlePost_ids (rt := Demo.rt) Demo.config _ _ _ _
           update_and_new_valid); try reflexivity.
  repeat constructor.
Defined.

(** ** The same batch, posted again *)

Section Replay.
Context {V : Type}.

Lemma lookupField_app (f : string) (a b : list (string * V)) :
  lookupField f (a ++ b)
  = match lookupField f a with
    | Some v => Some v
    | None => lookupField f b
    end.
Proof.
  induction a as [|[k v] t IH]; [reflexivity|]. simpl.
  now destruct (String.eqb k f).
Qed.

Lemma In_lookupField (f : string) (l : list (string * V)) :
  In f (map fst l) -> exists v, lookupField f l = Some v.
Proof.
  induction l as [|[k v] t IH]; [intros []|]. simpl.
  destruct (String.eqb k f) eqn:E; [eauto|].
  intros [H|H]; [|exact (IH H)]. apply String.eqb_neq in E. contradiction.
Qed.

(** Assignments in a row: for each name the last one counts. *)
Lemma lookupField_assignments (f : string) (src fs : list (string * V)) :
  lookupField f (setFields src fs)
  = match lookupField f (rev src) with
    | Some v => Some v
    | None => lookupField f fs
    end.
Proof.
  unfold setFields. revert fs.
  induction src as [|[k v] t IH]; intros fs; [reflexivity|].
  cbn [fold_left fst snd rev]. rewrite IH, lookupField_app, lookupField_setField.
  destruct (lookupField f (rev t)); [reflexivity|]. simpl.
  now destruct (String.eqb k f).
Qed.

Lemma keys_setFields_present (src fs : list (string * V)) :
  (forall k, In k (map fst src) -> In k (map fst fs)) ->
  map fst (setFields src fs) = map fst fs.
Proof.
  unfold setFields. revert fs.
  induction src as [|[k v] t IH]; intros fs H; [reflexivity|].
  cbn [fold_left fst snd].
  assert (E : map fst (setField k v fs) = map fst fs).
  { rewrite keys_setField.
    assert (existsb (fun k' => String.eqb k' k) (map fst fs) = true) as ->;
      [|reflexivity].
    apply existsb_exists. exists k. split; [|apply String.eqb_refl].
    apply H. now left. }
  rewrite IH; [exact E|]. intros k0 Hk0. rewrite E. apply H. now right.
Qed.

Lemma fields_ext (a b : list (string * V)) :
  List.NoDup (map fst a) ->
  map fst a = map fst b ->
  (forall f, lookupField f a = lookupField f b) ->
  a = b.
Proof.
  revert b. induction a as [|[k v] t IH]; intros [|[k' v'] t'] Hn Hk Hl;
    try discriminate; [reflexivity|].
  simpl in Hk. injection Hk as <- Hk.
  apply List.NoDup_cons_iff in Hn as [Hk1 Hn].
  pose proof (Hl k) as Hv. simpl in Hv. rewrite String.eqb_refl in Hv.
  injection Hv as <-. f_equal. apply (IH t' Hn Hk). intros f.
  specialize (Hl f). simpl in Hl. destruct (String.eqb k f) eqn:E; [|exact Hl].
  apply String.eqb_eq in E. subst f.
  destruct (lookupField k t) eqn:E1.
  { contradiction (Hk1 (lookupField_In _ _ _ E1)). }
  destruct (lookupField k t') eqn:E2; [|reflexivity].
  exfalso. apply Hk1. change (In k (map fst t)). rewrite Hk.
  exact (lookupField_In _ _ _ E2).
Qed.

(** The same assignments made again change nothing. *)
Lemma setFields_twice (src fs : list (string * V)) :
  List.NoDup (map fst fs) ->
  setFields src (setFields src fs) = setFields src fs.
Proof.
  intros Hn. apply fields_ext.
  - now apply setFields_NoDup, setFields_NoDup.
  - apply keys_setFields_present. intros k Hk.
    assert (Hr : In k (map fst (rev src))).
    { rewrite List.map_rev. now apply List.in_rev in Hk. }
    destruct (In_lookupField k (rev src) Hr) as [v Hv].
    apply (lookupField_In k v). now rewrite lookupField_assignments, Hv.
  - intros f. rewrite !lookupField_assignments.
    now destruct (lookupField f (rev src)).
Qed.

End Replay.

Section ReplayMerge.

Local Abbreviation batch := (list (list (string * value))).

Lemma setFields_app {V : Type} (a b fs : list (string * V)) :
  setFields (a ++ b) fs = setFields b (setFields a fs).
Proof. unfold setFields. apply List.fold_left_app. Qed.

(** Items spread one after the other over an object. *)
Lemma spread_all (items : batch) (fs : list (string * value)) :
  List.NoDup (map fst fs) ->
  fold_left (fun acc item => JObject (spread2 acc (JObject item))) items (JObject fs)
  = JObject (setFields (List.concat items) fs).
Proof.
  revert fs. induction items as [|item t IH]; intros fs Hn; [reflexivity|].
  cbn [fold_left List.concat]. unfold spread2 at 2. cbn [ownProps].
  rewrite (setFields_fresh fs [] Hn). cbn [app].
  rewrite IH; [|now apply setFields_NoDup]. now rewrite setFields_app.
Qed.

Lemma spread_all_value (item : list (string * value)) (t : batch) (v : value) :
  fold_left (fun acc item => JObject (spread2 acc (JObject item))) (item :: t) v
  = JObject (setFields (List.concat (item :: t)) (setFields (ownProps v) [])).
Proof.
  cbn [fold_left List.concat]. unfold spread2. cbn [ownProps].
  rewrite spread_all; [|apply setFields_NoDup, setFields_NoDup; constructor].
  now rewrite setFields_app.
Qed.

Lemma absorb_twice (k v : value) (incoming : batch) :
  absorb k (absorb k v incoming) incoming = absorb k v incoming.
Proof.
  rewrite !absorb_withId. destruct (withId k incoming) as [|item t] eqn:E;
    [reflexivity|].
  rewrite (spread_all_value item t v).
  rewrite spread_all; [|apply setFields_NoDup, setFields_NoDup; constructor].
  f_equal. apply setFields_twice, setFields_NoDup. constructor.
Qed.

Lemma newIds_nil (seen : list value) (incoming : batch) :
  Forall (fun item =>
            existsb (fun k => sameValueZero k (getField "id" item)) seen = true)
         incoming ->
  newIds seen incoming = [].
Proof.
  induction 1 as [|item t Hi _ IH]; [reflexivity|]. cbn [newIds]. now rewrite Hi.
Qed.

(** Merging the batch into the result of merging it gives the result. *)
Lemma merge_twice (incoming : batch) (m : list (value * value)) :
  distinct (map fst m) ->
  Forall normalized incoming ->
  fold_left mergeStep incoming (fold_left mergeStep incoming m)
  = fold_left mergeStep incoming m.
Proof.
  intros Hd Hn. pose proof (normalized_primitive _ Hn) as Hp.
  assert (Hd' : distinct (map fst (fold_left mergeStep incoming m))).
  { clear Hp. revert m Hd. induction Hn as [|item t _ _ IH]; intros m Hd;
      [exact Hd|]. cbn [fold_left]. apply IH. now apply map_set_distinct. }
  rewrite (merge_fold incoming (fold_left mergeStep incoming m) Hd' Hp).
  rewrite newIds_nil.
  - cbn [map]. rewrite List.app_nil_r.
    rewrite (merge_fold incoming m Hd Hp) at 2.
    rewrite (merge_fold incoming m Hd Hp), List.map_app, !List.map_map.
    cbn [fst snd]. f_equal; apply List.map_ext; intros; now rewrite absorb_twice.
  - apply List.Forall_forall. intros item Hin. apply existsb_exists.
    exists (getField "id" item). split.
    + apply (merge_keys incoming m _ Hd Hn). right.
      apply List.in_map_iff. now exists item.
    + apply sameValueZero_refl. rewrite List.Forall_forall in Hp. now apply Hp.
Qed.

Lemma merge_readable (incoming : batch) (m : list (value * value)) :
  Forall (fun v => readable v = true) (map snd m) ->
  Forall (fun v => readable v = true) (map snd (fold_left mergeStep incoming m)).
Proof.
  revert m. induction incoming as [|item t IH]; intros m H; [exact H|].
  cbn [fold_left]. apply IH. unfold mergeStep. now apply map_set_values.
Qed.

(** Merging a batch is idempotent: when no stored record has an object as
    its id, the collection that [mergeInventory] gives, merged with the
    same batch again, is that collection. *)
Lemma mergeInventory_idempotent (recs merged : list value) (incoming : batch) :
  Forall normalized incoming ->
  Forall (fun r => primitive (idOf r) = true) recs ->
  mergeInventory (JArray recs) incoming = Normal merged ->
  mergeInventory (JArray merged) incoming = Normal merged.
Proof.
  intros Hn Hp Hm.
  assert (Hr : forallb readable recs = true).
  { destruct (forallb readable recs) eqn:E; [reflexivity|].
    destruct (mapC_unreadable recs E) as [e He]. unfold mergeInventory in Hm.
    rewrite He in Hm. discriminate. }
  unfold mergeInventory in Hm. rewrite (mapC_entries recs Hr) in Hm.
  cbn [andThen] in Hm. injection Hm as <-. unfold map_values.
  set (M := fold_left mergeStep incoming (new_Map (entriesOf recs))).
  destruct (merge_keeps_ids incoming (new_Map (entriesOf recs)) Hn) as [Hd Hk].
  { split; [apply new_Map_distinct|now apply new_Map_keeps_ids]. }
  fold M in Hd, Hk.
  assert (He : entriesOf (map snd M) = M).
  { unfold entriesOf. rewrite List.map_map. rewrite <- (List.map_id M) at 2.
    apply List.map_ext_in. intros [k v] Hin. rewrite List.Forall_forall in Hk.
    destruct (Hk _ Hin) as [E _]. cbn [fst snd] in *. now rewrite E. }
  assert (Hrd : forallb readable (map snd M) = true).
  { apply forallb_forall, List.Forall_forall. unfold M.
    apply merge_readable, new_Map_values. rewrite values_entriesOf.
    apply List.Forall_forall. now apply forallb_forall. }
  unfold mergeInventory. rewrite (mapC_entries _ Hrd), He. cbn [andThen].
  rewrite new_Map_distinct_keys.
  - unfold M at 1. unfold map_values.
    now rewrite (merge_twice incoming _ (new_Map_distinct _) Hn).
  - apply distinct_NoDup; [exact Hd|]. apply List.Forall_forall. intros k Hin.
    apply List.in_map_iff in Hin as [e [<- Hin]].
    rewrite List.Forall_forall in Hk. now destruct (Hk e Hin).
Qed.

End ReplayMerge.

Section ReplayPost.
Context {rt : Runtime} (cfg : Config).

(** X15. Posting an accepted batch a second time changes nothing: when no
    stored record has an object as its id, the store works, and the text
    written for the merged collection parses back into it, the second POST
    is answered with the same collection and writes the same text. *)
Theorem handlePost_replay (event : Event) (st : Store)
    (incoming : list (list (string * value))) (recs merged : list value) :
  valid_post cfg event incoming ->
  fst (loadExisting st) = JArray recs ->
  Forall (fun r => primitive (idOf r) = true) recs ->
  mergeInventory (JArray recs) incoming = Normal merged ->
  getFault st = None ->
  setFault st = None ->
  JSON_stringify_indent2 (JArray merged) <> EmptyString ->
  JSON_parse (JSON_stringify_indent2 (JArray merged)) = Normal (JArray merged) ->
  handlePost cfg event st
  = (Normal (resp 200 (JArray merged) noCache),
     written KEY (JSON_stringify_indent2 (JArray merged))
             (logged (CallGet KEY) st))
  /\ handlePost cfg event
       (written KEY (JSON_stringify_indent2 (JArray merged))
                (logged (CallGet KEY) st))
     = (Normal (resp 200 (JArray merged) noCache),
        written KEY (JSON_stringify_indent2 (JArray merged))
          (logged (CallGet KEY)
             (written KEY (JSON_stringify_indent2 (JArray merged))
                      (logged (CallGet KEY) st))))
  /\ blobs (written KEY (JSON_stringify_indent2 (JArray merged))
              (logged (CallGet KEY)
                 (written KEY (JSON_stringify_indent2 (JArray merged))
                          (logged (CallGet KEY) st))))
     = blobs (written KEY (JSON_stringify_indent2 (JArray merged))
                (logged (CallGet KEY) st)).
Proof.
  intros Hv He Hp Hm Hg Hs Hne Hrt.
  set (text := JSON_stringify_indent2 (JArray merged)) in *.
  set (st1 := written KEY text (logged (CallGet KEY) st)).
  split; [|split].
  - rewrite (handlePost_valid cfg event st incoming Hv), He, Hm,
      loadExisting_logged.
    now apply persist_succeeds.
  - assert (Hd : stored_document st1 (JArray merged)).
    { exists text. split; [exact Hg|]. split; [apply lookup_insert_eq|].
      now split. }
    rewrite (handlePost_valid cfg event st1 incoming Hv).
    rewrite (loadExisting_stored st1 _ Hd). cbn [fst snd].
    rewrite (mergeInventory_idempotent recs merged incoming
               (valid_post_normalized cfg event incoming Hv) Hp Hm).
    now apply persist_succeeds.
  - cbn [written blobs logged]. apply insert_insert_eq.
Qed.

End ReplayPost.

Lemma handlePost_replay_witness :
  handlePost
    (rt := Demo.runtime
       [Demo.inventory; Demo.update;
        JArray [JObject Demo.mustang_sold_normalized; JObject Demo.civic]])
    Demo.config (Demo.post Demo.writer Demo.update)
    (written KEY
       (Demo.stringify_indent2
          (JArray [JObject Demo.mustang_sold_normalized; JObject Demo.civic]))
       (logged (CallGet KEY) (Demo.store_with Demo.inventory)))
  = (Normal (resp (rt := Demo.rt) 200
       (JArray [JObject Demo.mustang_sold_normalized; JObject Demo.civic])
       noCache),
     written KEY
       (Demo.stringify_indent2
          (JArray [JObject Demo.mustang_sold_normalized; JObject Demo.civic]))
       (logged (CallGet KEY)
          (written KEY
             (Demo.stringify_indent2
                (JArray [JObject Demo.mustang_sold_normalized;
                         JObject Demo.civic]))
             (logged (CallGet KEY) (Demo.store_with Demo.inventory))))).
Proof.
  refine (proj1 (proj2 (handlePost_replay
    (rt := Demo.runtime
       [Demo.inventory; Demo.update;
        JArray [JObject Demo.mustang_sold_normalized; JObject Demo.civic]])
    Demo.config (Demo.post Demo.writer Demo.update)
    (Demo.store_with Demo.inventory) [Demo.mustang_sold_normalized]
    [JObject Demo.mustang; JObject Demo.civic]
    [JObject Demo.mustang_sold_normalized; JObject Demo.civic]
    _ _ _ _ _ _ _ _))); try reflexivity.
  - eexists _, _, _. repeat split; reflexivity.
  - repeat constructor.
  - discriminate.
Defined.

(** ** The answers of the inventory function *)

Section Answers.
Context {rt : Runtime} (cfg : Config).

Lemma resp_cors (code : Z) (payload : value) (extra : list (string * string)) :
  extra = [] \/ extra = noCache -> has_cors (resp code payload extra).
Proof. intros [-> | ->]; repeat split. Qed.

Lemma status_or_verifyAuth (authHeader : option string) (scope : string)
    (err : JsError) :
  verifyAuth cfg authHeader scope = Throw err ->
  status_or err 401 = 500 \/ status_or err 401 = 401.
Proof.
  intros H. destruct (verifyAuth_failures cfg _ _ _ H) as [-> | ->];
    [now left|now right].
Qed.

Lemma handleGet_answer (event : Event) (st st' : Store) (r : Response) :
  handleGet cfg event st = (Normal r, st') ->
  has_cors r /\ (statusCode r = 200 \/ statusCode r = 500).
Proof.
  unfold handleGet.
  destruct (store_get KEY st) as [[raw|err] st1];
    [|intros H; injection H as <- _; split; [now apply resp_cors; left|now right]].
  destruct (negb (truthy_env raw));
    [intros H; injection H as <- _; split; [now apply resp_cors; right|now left]|].
  destruct (JSON_parse _);
    [|intros H; injection H as <- _; split; [now apply resp_cors; left|now right]].
  destruct (elevated cfg event);
    [intros H; injection H as <- _; split; [now apply resp_cors; right|now left]|].
  destruct (withoutDrafts _); intros H; injection H as <- _; split;
    try (now apply resp_cors; right); try (now apply resp_cors; left);
    [now left|now right].
Qed.

Lemma handlePost_answer (event : Event) (st st' : Store) (r : Response) :
  handlePost cfg event st = (Normal r, st') ->
  has_cors r
  /\ (statusCode r = 200 \/ statusCode r = 400 \/ statusCode r = 401
      \/ statusCode r = 500).
Proof.
  unfold handlePost.
  destruct (verifyAuth cfg _ _) as [claims|err] eqn:Ha.
  2:{ intros H. injection H as <- _. split; [now apply resp_cors; left|].
      cbn [resp statusCode].
      destruct (status_or_verifyAuth _ _ _ Ha) as [-> | ->]; tauto. }
  destruct (JSON_parse (bodyText event));
    [|intros H; injection H as <- _; split; [now apply resp_cors; left|tauto]].
  destruct (selectIncoming _) as [[items|]|]; [| |discriminate].
  2:{ intros H; injection H as <- _; split; [now apply resp_cors; left|tauto]. }
  destruct (mapC normalizeItem items) as [incoming|]; [|discriminate].
  destruct (validationErrors incoming);
    [|intros H; injection H as <- _; split; [now apply resp_cors; left|tauto]].
  destruct (loadExisting st) as [existing st1].
  destruct (mergeInventory existing incoming) as [merged|]; [|discriminate].
  unfold persist. destruct (store_set KEY _ st1) as [[u|e] st2];
    intros H; injection H as <- _; split; try tauto;
    [now apply resp_cors; right|now apply resp_cors; left].
Qed.

(** X16. Every answer of the inventory function, for whatever method,
    carries the three CORS headers, and its status is 200, 400, 401, 405
    or 500: no request is answered with 403. *)
Theorem handler_answer (event : Event) (st st' : Store) (r : Response) :
  handler cfg event st = (Normal r, st') ->
  has_cors r
  /\ (statusCode r = 200 \/ statusCode r = 400 \/ statusCode r = 401
      \/ statusCode r = 405 \/ statusCode r = 500).
Proof.
  unfold handler.
  destruct (String.eqb (httpMethod event) "OPTIONS").
  { intros H. injection H as <- _. split; [repeat split|tauto]. }
  destruct (String.eqb (httpMethod event) "GET").
  { intros H. destruct (handleGet_answer _ _ _ _ H) as [Hc Hs]. tauto. }
  destruct (String.eqb (httpMethod event) "POST").
  { intros H. destruct (handlePost_answer _ _ _ _ H) as [Hc Hs]. tauto. }
  intros H. injection H as <- _. split; [now apply resp_cors; left|tauto].
Qed.

(** X17. The verifier lets nothing through that jose did not verify:
    when it returns, the configuration is set, the header starts with
    [bearer ] in any letter case, the claims returned are those that
    [jwtVerify] gave for the text between the first and the second space
    of the header, and the scope asked for, if any, is one of the pieces
    of their [scope] between single spaces. *)
Theorem verifyAuth_sound (authHeader : option string) (scopeNeeded : string)
    (claims : value) :
  verifyAuth cfg authHeader scopeNeeded = Normal claims ->
  truthy_env (AUTH0_DOMAIN cfg) = true
  /\ truthy_env (AUTH0_AUDIENCE cfg) = true
  /\ exists h token,
       authHeader = Some h
       /\ startsWith "bearer " (toLowerCase h) = true
       /\ nth_error (split_space h) 1 = Some token
       /\ jwtVerify token (env_string (ISSUER cfg))
                    (env_string (AUTH0_AUDIENCE cfg)) = Normal claims
       /\ (scopeNeeded = EmptyString
           \/ exists scopes, scopesOf claims = Normal scopes
                             /\ In scopeNeeded scopes).
Proof.
  unfold verifyAuth. intros H.
  destruct (truthy_env (AUTH0_DOMAIN cfg)); [|discriminate].
  destruct (truthy_env (AUTH0_AUDIENCE cfg)); [|discriminate].
  cbn [negb orb] in H. split; [reflexivity|]. split; [reflexivity|].
  destruct authHeader as [h|]; [|discriminate]. cbn [env_string] in H.
  destruct (truthy_env (Some h)); [|discriminate].
  destruct (startsWith "bearer " (toLowerCase h)) eqn:Hb; [|discriminate].
  cbn [negb orb] in H.
  destruct (verifyToken cfg _ scopeNeeded) as [p|] eqn:Ht; [|discriminate].
  injection H as ->. unfold verifyToken in Ht.
  destruct (nth_error (split_space h) 1) as [token|] eqn:Hn; [|discriminate].
  destruct (jwtVerify token _ _) as [p|] eqn:Hv; [|discriminate].
  cbn [andThen] in Ht. exists h, token. repeat split; try assumption.
  - destruct (String.eqb scopeNeeded EmptyString); cbn [negb] in Ht.
    + congruence.
    + destruct (scopesOf p); cbn [andThen] in Ht; [|discriminate].
      destruct (existsb _ _); [congruence|discriminate].
  - destruct (String.eqb scopeNeeded EmptyString) eqn:Es; cbn [negb] in Ht.
    + left. now apply String.eqb_eq.
    + right. destruct (scopesOf p) as [scopes|] eqn:Hsc; cbn [andThen] in Ht;
        [|discriminate].
      destruct (existsb _ scopes) eqn:Ex; [|discriminate].
      injection Ht as <-. exists scopes. split; [exact Hsc|].
      apply existsb_exists in Ex as [x [Hx Ex]]. apply String.eqb_eq in Ex.
      now subst x.
Qed.

(** X18. When the ids of a batch can all be normalised and some item
    fails the validation, the POST is answered with [400] and with every
    message of every item, each with the position of its item and in the
    order of the batch; the store is not touched. *)
Theorem handlePost_validation_details (event : Event) (st : Store)
    (claims payload : value) (items : list value)
    (incoming : list (list (string * value))) :
  verifyAuth cfg (authorization event) "inventory:write" = Normal claims ->
  JSON_parse (bodyText event) = Normal payload ->
  selectIncoming payload = Normal (Some items) ->
  mapC normalizeItem items = Normal incoming ->
  Exists (fun item => validateItem item <> []) incoming ->
  exists details,
    handlePost cfg event st
    = (Normal (resp 400
         (JObject [("error", JString "Validation failed");
                   ("details", JArray (map JString details))]) []), st)
    /\ details
       = List.concat
           (map (fun ix => map (fun msg => "item " +:+ string_of_nat (fst ix)
                                           +:+ ": " +:+ msg)
                               (validateItem (snd ix)))
                (indexed 0 incoming)).
Proof.
  intros Ha Hp Hs Hn Hex. exists (validationErrors incoming). split.
  - apply (handlePost_validation_failed cfg event st claims payload items);
      try assumption.
    intros Hnil. apply (validationErrorsFrom_nil 0) in Hnil.
    apply List.Exists_exists in Hex as [item [Hin Hne]].
    rewrite List.Forall_forall in Hnil. exact (Hne (Hnil item Hin)).
  - unfold validationErrors. generalize 0%nat. clear.
    induction incoming as [|item t IH]; intros n; [reflexivity|].
    cbn [validationErrorsFrom indexed map List.concat fst snd]. now rewrite IH.
Qed.

End Answers.

Lemma handler_answer_witness :
  has_cors
    (resp (rt := Demo.rt) 405 (errorBody "Method not allowed") [])
  /\ (statusCode (resp (rt := Demo.rt) 405 (errorBody "Method not allowed") [])
      = 200
      \/ statusCode (resp (rt := Demo.rt) 405 (errorBody "Method not allowed") [])
         = 400
      \/ statusCode (resp (rt := Demo.rt) 405 (errorBody "Method not allowed") [])
         = 401
      \/ statusCode (resp (rt := Demo.rt) 405 (errorBody "Method not allowed") [])
         = 405
      \/ statusCode (resp (rt := Demo.rt) 405 (errorBody "Method not allowed") [])
         = 500).
Proof.
  apply (handler_answer (rt := Demo.rt) Demo.config
           {| httpMethod := "DELETE"; authorization := None;
              includeDrafts := None; body := None |}
           Demo.empty_store Demo.empty_store).
  reflexivity.
Defined.

Lemma verifyAuth_sound_witness :
  truthy_env (AUTH0_DOMAIN Demo.config) = true
  /\ truthy_env (AUTH0_AUDIENCE Demo.config) = true
  /\ exists h token,
       Some "BEARER reader extra" = Some h
       /\ startsWith "bearer " (toLowerCase h) = true
       /\ nth_error (split_space h) 1 = Some token
       /\ jwtVerify (Runtime := Demo.rt) token (env_string (ISSUER Demo.config))
            (env_string (AUTH0_AUDIENCE Demo.config))
          = Normal (Demo.claims "inventory:read")
       /\ ("inventory:read" = EmptyString
           \/ exists scopes,
                scopesOf (Demo.claims "inventory:read") = Normal scopes
                /\ In "inventory:read" scopes).
Proof.
  apply (verifyAuth_sound (rt := Demo.rt) Demo.config
           (Some "BEARER reader extra") "inventory:read").
  reflexivity.
Defined.

Lemma handlePost_validation_details_witness :
  exists details,
    handlePost (rt := Demo.rt) Demo.config
      (Demo.post Demo.writer Demo.two_without_make) (Demo.store_with Demo.inventory)
    = (Normal (resp (rt := Demo.rt) 400
         (JObject [("error", JString "Validation failed");
                   ("details", JArray (map JString details))]) []),
       Demo.store_with Demo.inventory)
    /\ details
       = List.concat
           (map (fun ix => map (fun msg => "item " +:+ string_of_nat (fst ix)
                                           +:+ ": " +:+ msg)
                               (validateItem (snd ix)))
                (indexed 0 [[("id", JString "x"); ("model", JString "T")];
                            [("id", JString "y"); ("model", JString "S")]])).
Proof.
  apply (handlePost_validation_details (rt := Demo.rt) Demo.config _ _
           (Demo.claims "inventory:read inventory:write")
           Demo.two_without_make
           [JObject [("id", JString "x"); ("model", JString "T")];
            JObject [("id", JString "y"); ("model", JString "S")]]);
    try reflexivity.
  left. discriminate.
Defined.

(** ** The upload function *)

Section UploadProperties.
Context {rt : Runtime} {aa : ArrayAssign} (cfg : Config).

Lemma loadUploads_logged (st : Store) :
  snd (loadUploads st) = logged (CallGet UPLOADS_KEY) st.
Proof.
  unfold loadUploads, store_get, logged.
  destruct (getFault st); [reflexivity|].
  destruct (truthy_env (blobs st !! UPLOADS_KEY)); [|reflexivity].
  now destruct (JSON_parse _).
Qed.

Lemma loadUploads_nothing (st : Store) :
  (exists e, getFault st = Some e)
  \/ blobs st !! UPLOADS_KEY = None
  \/ blobs st !! UPLOADS_KEY = Some EmptyString
  \/ (exists raw e, blobs st !! UPLOADS_KEY = Some raw
                    /\ JSON_parse raw = Throw e) ->
  fst (loadUploads st) = JObject [].
Proof.
  unfold loadUploads, store_get.
  intros [[e He]|H]; [now rewrite He|].
  destruct (getFault st); [reflexivity|].
  destruct H as [->|[->|(raw & e & -> & Hp)]]; try reflexivity.
  cbn [truthy_env env_string]. destruct (negb _); [|reflexivity]. now rewrite Hp.
Qed.

(** What the function does once the request is let through. *)
Lemma uploadHandler_accepted (event : Event) (st : Store)
    (claims payload filename url : value) :
  httpMethod event = "POST" ->
  verifyAuth cfg (authorization event) "inventory:write" = Normal claims ->
  JSON_parse (bodyText event) = Normal payload ->
  destructure payload = Normal (filename, url) ->
  truthy filename = true -> truthy url = true ->
  uploadHandler cfg event st = recordUpload filename url st.
Proof.
  intros Hm Ha Hp Hd Hf Hu. unfold uploadHandler.
  now rewrite Hm, Ha, Hp, Hd, Hf, Hu.
Qed.

(** X19. The upload function checks the token before the method: a
    request of any method but OPTIONS whose authorization fails is
    answered with the status of the failure, a request that is let through
    and is not a POST with [405]; neither touches the store. *)
Theorem uploadHandler_order_of_checks (event : Event) (st : Store) :
  httpMethod event <> "OPTIONS" ->
  (forall err,
     verifyAuth cfg (authorization event) "inventory:write" = Throw err ->
     exists code,
       status err = Some code
       /\ uploadHandler cfg event st
          = (Normal (resp code (errorBody (message err)) []), st))
  /\ (forall claims,
        verifyAuth cfg (authorization event) "inventory:write" = Normal claims ->
        httpMethod event <> "POST" ->
        uploadHandler cfg event st
        = (Normal (resp 405 (errorBody "Method not allowed") []), st)).
Proof.
  intros Ho. apply String.eqb_neq in Ho. unfold uploadHandler. rewrite Ho. split.
  - intros err H. rewrite H.
    destruct (verifyAuth_failures cfg _ _ _ H) as [-> | ->];
      [exists 500|exists 401]; now split.
  - intros claims H Hp. rewrite H. apply String.eqb_neq in Hp. now rewrite Hp.
Qed.

(** X20. A POST that is let through with a body that does not parse, or
    whose [filename] or [url] is missing or falsy, is answered with [400];
    the store is not touched. *)
Theorem uploadHandler_bad_request (event : Event) (st : Store) (claims : value) :
  httpMethod event = "POST" ->
  verifyAuth cfg (authorization event) "inventory:write" = Normal claims ->
  ((exists e, JSON_parse (bodyText event) = Throw e) ->
   uploadHandler cfg event st
   = (Normal (resp 400 (errorBody "Invalid JSON") []), st))
  /\ (forall payload filename url,
        JSON_parse (bodyText event) = Normal payload ->
        destructure payload = Normal (filename, url) ->
        truthy filename = false \/ truthy url = false ->
        uploadHandler cfg event st
        = (Normal (resp 400 (errorBody "filename and url required") []), st)).
Proof.
  intros Hm Ha. unfold uploadHandler. rewrite Hm, Ha. cbn. split.
  - intros [e He]. now rewrite He.
  - intros payload filename url Hp Hd H. rewrite Hp, Hd.
    destruct H as [-> | ->]; [reflexivity|]. now rewrite orb_true_r.
Qed.

Lemma lookupField_insert_index (f name : string) (i : N) (v : value)
    (fs : list (string * value)) :
  lookupField name fs = None ->
  lookupField f (insert_index i name v fs)
  = if String.eqb name f then Some v else lookupField f fs.
Proof.
  induction fs as [|[k w] t IH]; intros Hn; [reflexivity|].
  cbn [lookupField] in Hn. destruct (String.eqb k name) eqn:Ek; [discriminate|].
  cbn [insert_index].
  destruct (array_index k) as [j|]; [|reflexivity].
  destruct (j <? i)%N; [|reflexivity].
  cbn [lookupField]. rewrite (IH Hn).
  destruct (String.eqb k f) eqn:Ef; [|reflexivity].
  apply String.eqb_eq in Ef. subst f.
  rewrite String.eqb_sym in Ek. now rewrite Ek.
Qed.

Lemma lookupField_assignField (f name : string) (v : value)
    (fs : list (string * value)) :
  name <> "__proto__" ->
  lookupField f (assignField name v fs)
  = if String.eqb name f then Some v else lookupField f fs.
Proof.
  intros Hn. unfold assignField. apply String.eqb_neq in Hn. rewrite Hn.
  destruct (lookupField name fs) eqn:El; [apply lookupField_setField|].
  destruct (array_index name);
    [now apply lookupField_insert_index|apply lookupField_setField].
Qed.

Lemma recordUpload_object (filename url : value) (name : string)
    (fs : list (string * value)) (st : Store) :
  toPropertyKey filename = Normal name ->
  fst (loadUploads st) = JObject fs ->
  recordUpload filename url st
  = match store_set UPLOADS_KEY
            (JSON_stringify_indent2 (JObject (assignField name url fs)))
            (logged (CallGet UPLOADS_KEY) st) with
    | (Throw e, st2) => (Throw e, st2)
    | (Normal _, st2) =>
        (Normal (resp 200 (JObject [("ok", JBool true); ("url", url)]) []), st2)
    end.
Proof.
  intros Hk Hl. unfold recordUpload. pose proof (loadUploads_logged st) as Hg.
  destruct (loadUploads st) as [uploads st1]. cbn [fst snd] in Hl, Hg. subst.
  cbn [assignProperty andThen]. now rewrite Hk.
Qed.

(** X21. An upload that is let through, onto an uploads document that is
    an object, is answered with [200] and stored: unless the name is
    [__proto__], the document written maps the name of the file to the
    url, whatever it mapped it to before, and maps every other name as
    before. *)
Theorem uploadHandler_records (event : Event) (st : Store)
    (claims payload filename url : value) (name : string)
    (fs : list (string * value)) :
  httpMethod event = "POST" ->
  verifyAuth cfg (authorization event) "inventory:write" = Normal claims ->
  JSON_parse (bodyText event) = Normal payload ->
  destructure payload = Normal (filename, url) ->
  truthy filename = true -> truthy url = true ->
  toPropertyKey filename = Normal name ->
  fst (loadUploads st) = JObject fs ->
  setFault st = None ->
  uploadHandler cfg event st
  = (Normal (resp 200 (JObject [("ok", JBool true); ("url", url)]) []),
     written UPLOADS_KEY
       (JSON_stringify_indent2 (JObject (assignField name url fs)))
       (logged (CallGet UPLOADS_KEY) st))
  /\ (name <> "__proto__" ->
      forall f,
        lookupField f (assignField name url fs)
        = if String.eqb name f then Some url else lookupField f fs).
Proof.
  intros Hm Ha Hp Hd Hf Hu Hk Hl Hs. split.
  - rewrite (uploadHandler_accepted event st claims payload filename url
               Hm Ha Hp Hd Hf Hu).
    rewrite (recordUpload_object filename url name fs st Hk Hl).
    unfold store_set, written, logged. cbn [setFault]. now rewrite Hs.
  - intros Hn f. now apply lookupField_assignField.
Qed.

(** X22. A file named [__proto__] is answered with [200] like any other,
    but unless the uploads document has a property of that name already,
    the document written is the one that was read: the upload is not
    recorded. *)
Theorem uploadHandler_proto_not_recorded (event : Event) (st : Store)
    (claims payload filename url : value) (fs : list (string * value)) :
  httpMethod event = "POST" ->
  verifyAuth cfg (authorization event) "inventory:write" = Normal claims ->
  JSON_parse (bodyText event) = Normal payload ->
  destructure payload = Normal (filename, url) ->
  truthy filename = true -> truthy url = true ->
  toPropertyKey filename = Normal "__proto__" ->
  fst (loadUploads st) = JObject fs ->
  lookupField "__proto__" fs = None ->
  setFault st = None ->
  uploadHandler cfg event st
  = (Normal (resp 200 (JObject [("ok", JBool true); ("url", url)]) []),
     written UPLOADS_KEY (JSON_stringify_indent2 (JObject fs))
             (logged (CallGet UPLOADS_KEY) st)).
Proof.
  intros Hm Ha Hp Hd Hf Hu Hk Hl Hno Hs.
  rewrite (uploadHandler_accepted event st claims payload filename url
             Hm Ha Hp Hd Hf Hu).
  rewrite (recordUpload_object filename url "__proto__" fs st Hk Hl).
  unfold assignField. rewrite Hno.
  unfold store_set, written, logged. cbn [setFault String.eqb Ascii.eqb Bool.eqb].
  now rewrite Hs.
Qed.

(** X23. What escapes the upload function as an exception: a body that
    is [null]; an uploads document that is [null]; a file name that is an
    object with a property [toString]; and a write that the store refuses,
    which the inventory function answers with [500].  Whatever was read,
    nothing is written. *)
Theorem uploadHandler_throws (event : Event) (st : Store) (claims : value) :
  httpMethod event = "POST" ->
  verifyAuth cfg (authorization event) "inventory:write" = Normal claims ->
  (JSON_parse (bodyText event) = Normal JNull ->
   uploadHandler cfg event st
   = (Throw (TypeError
        "Cannot destructure property 'filename' of 'body' as it is null."), st))
  /\ (forall payload filename url,
        JSON_parse (bodyText event) = Normal payload ->
        destructure payload = Normal (filename, url) ->
        truthy filename = true -> truthy url = true ->
        (fst (loadUploads st) = JNull ->
         exists err,
           err_name err = "TypeError"
           /\ uploadHandler cfg event st
              = (Throw err, logged (CallGet UPLOADS_KEY) st))
        /\ (forall fs held,
              fst (loadUploads st) = JObject fs ->
              filename = JObject held ->
              lookupField "toString" held <> None ->
              uploadHandler cfg event st
              = (Throw (TypeError "Cannot convert object to primitive value"),
                 logged (CallGet UPLOADS_KEY) st))
        /\ (forall fs name err,
              fst (loadUploads st) = JObject fs ->
              toPropertyKey filename = Normal name ->
              setFault st = Some err ->
              uploadHandler cfg event st
              = (Throw err,
                 logged (CallSet UPLOADS_KEY
                           (JSON_stringify_indent2
                              (JObject (assignField name url fs))))
                        (logged (CallGet UPLOADS_KEY) st)))).
Proof.
  intros Hm Ha. split.
  - intros Hp. unfold uploadHandler. now rewrite Hm, Ha, Hp.
  - intros payload filename url Hp Hd Hf Hu.
    rewrite (uploadHandler_accepted event st claims payload filename url
               Hm Ha Hp Hd Hf Hu).
    split; [|split].
    + unfold recordUpload. pose proof (loadUploads_logged st) as Hg.
      destruct (loadUploads st) as [uploads st1]. cbn [fst snd] in *. subst st1.
      intros ->. eexists. split; [|reflexivity]. reflexivity.
    + unfold recordUpload. pose proof (loadUploads_logged st) as Hg.
      destruct (loadUploads st) as [uploads st1]. cbn [fst snd] in *. subst st1.
      intros fs held -> -> Hh. cbn [assignProperty]. unfold toPropertyKey.
      cbn [ToString]. now destruct (lookupField "toString" held).
    + intros fs name err Hl Hk Hs.
      rewrite (recordUpload_object filename url name fs st Hk Hl).
      unfold store_set, logged. cbn [setFault]. now rewrite Hs.
Qed.

(** X24. When the uploads document is absent, empty or unparsable, and
    also when the read of the store fails, an upload that is let through
    writes a document that holds this upload alone. *)
Theorem uploadHandler_without_document (event : Event) (st : Store)
    (claims payload filename url : value) (name : string) :
  httpMethod event = "POST" ->
  verifyAuth cfg (authorization event) "inventory:write" = Normal claims ->
  JSON_parse (bodyText event) = Normal payload ->
  destructure payload = Normal (filename, url) ->
  truthy filename = true -> truthy url = true ->
  toPropertyKey filename = Normal name ->
  name <> "__proto__" ->
  (exists e, getFault st = Some e)
  \/ blobs st !! UPLOADS_KEY = None
  \/ blobs st !! UPLOADS_KEY = Some EmptyString
  \/ (exists raw e, blobs st !! UPLOADS_KEY = Some raw
                    /\ JSON_parse raw = Throw e) ->
  setFault st = None ->
  uploadHandler cfg event st
  = (Normal (resp 200 (JObject [("ok", JBool true); ("url", url)]) []),
     written UPLOADS_KEY
       (JSON_stringify_indent2 (JObject [(name, url)]))
       (logged (CallGet UPLOADS_KEY) st)).
Proof.
  intros Hm Ha Hp Hd Hf Hu Hk Hn Hl Hs.
  rewrite (uploadHandler_accepted event st claims payload filename url
             Hm Ha Hp Hd Hf Hu).
  rewrite (recordUpload_object filename url name [] st Hk
             (loadUploads_nothing st Hl)).
  unfold assignField. apply String.eqb_neq in Hn.
  cbn [lookupField]. rewrite Hn.
  unfold store_set, written, logged. cbn [setFault]. rewrite Hs.
  now destruct (array_index name).
Qed.

Lemma recordUpload_blobs (filename url : value) (st : Store) :
  delete UPLOADS_KEY (blobs (snd (recordUpload filename url st)))
  = delete UPLOADS_KEY (blobs st).
Proof.
  unfold recordUpload. pose proof (loadUploads_logged st) as Hg.
  destruct (loadUploads st) as [uploads st1]. cbn [snd] in Hg. subst st1.
  destruct (assignProperty uploads _ url); [|reflexivity].
  unfold store_set. destruct (setFault _); [reflexivity|].
  cbn [snd blobs logged]. apply delete_insert_eq.
Qed.

(** X25. The two functions share the store and each writes its own key
    only: whatever the request, the upload function leaves every text but
    the uploads document as it was, the inventory document among them, and
    a POST of the inventory function leaves every text but the inventory
    document as it was. *)
Theorem handlers_write_their_own_key (event : Event) (st : Store) :
  delete UPLOADS_KEY (blobs (snd (uploadHandler cfg event st)))
  = delete UPLOADS_KEY (blobs st)
  /\ blobs (snd (uploadHandler cfg event st)) !! KEY = blobs st !! KEY
  /\ delete KEY (blobs (snd (handlePost cfg event st))) = delete KEY (blobs st)
  /\ blobs (snd (handlePost cfg event st)) !! UPLOADS_KEY
     = blobs st !! UPLOADS_KEY.
Proof.
  assert (Hu : delete UPLOADS_KEY (blobs (snd (uploadHandler cfg event st)))
               = delete UPLOADS_KEY (blobs st)).
  { unfold uploadHandler.
    destruct (String.eqb (httpMethod event) "OPTIONS"); [reflexivity|].
    destruct (verifyAuth cfg _ _); [|reflexivity].
    destruct (negb _); [reflexivity|].
    destruct (JSON_parse _); [|reflexivity].
    destruct (destructure _) as [[filename url]|]; [|reflexivity].
    destruct (negb (truthy filename) || negb (truthy url)); [reflexivity|].
    apply recordUpload_blobs. }
  assert (Hp : delete KEY (blobs (snd (handlePost cfg event st)))
               = delete KEY (blobs st)).
  { destruct (handlePost_blobs cfg event st) as [->|[merged [_ ->]]];
      [reflexivity|apply delete_insert_eq]. }
  split; [exact Hu|]. split; [|split; [exact Hp|]].
  - rewrite <- (lookup_delete_ne (blobs (snd (uploadHandler cfg event st)))
                  UPLOADS_KEY KEY) by discriminate.
    rewrite Hu. now rewrite lookup_delete_ne by discriminate.
  - rewrite <- (lookup_delete_ne (blobs (snd (handlePost cfg event st)))
                  KEY UPLOADS_KEY) by discriminate.
    rewrite Hp. now rewrite lookup_delete_ne by discriminate.
Qed.

(** X26. Every answer of the upload function carries the three CORS
    headers, and its status is 200, 400, 401, 405 or 500. *)
Theorem uploadHandler_answer (event : Event) (st st' : Store) (r : Response) :
  uploadHandler cfg event st = (Normal r, st') ->
  has_cors r
  /\ (statusCode r = 200 \/ statusCode r = 400 \/ statusCode r = 401
      \/ statusCode r = 405 \/ statusCode r = 500).
Proof.
  unfold uploadHandler.
  destruct (String.eqb (httpMethod event) "OPTIONS").
  { intros H. injection H as <- _. split; [repeat split|tauto]. }
  destruct (verifyAuth cfg _ _) as [claims|err] eqn:Ha.
  2:{ intros H. injection H as <- _.
      destruct (verifyAuth_failures cfg _ _ _ Ha) as [-> | ->];
        (split; [now apply resp_cors; left|cbn; tauto]). }
  destruct (negb _).
  { intros H. injection H as <- _. split; [now apply resp_cors; left|tauto]. }
  destruct (JSON_parse _) as [payload|];
    [|intros H; injection H as <- _; split; [now apply resp_cors; left|tauto]].
  destruct (destructure payload) as [[filename url]|]; [|discriminate].
  destruct (negb (truthy filename) || negb (truthy url)).
  { intros H. injection H as <- _. split; [now apply resp_cors; left|tauto]. }
  unfold recordUpload. destruct (loadUploads st) as [uploads st1].
  destruct (assignProperty uploads filename url); [|discriminate].
  destruct (store_set _ _ st1) as [[u|e] st2]; [|discriminate].
  intros H. injection H as <- _. split; [now apply resp_cors; left|tauto].
Qed.

(** X27. While the domain or the audience of Auth0 is not configured,
    both functions fail closed: every POST of the inventory function and
    every request to the upload function other than OPTIONS is answered
    with [500] and leaves the store alone, and every GET is answered as if
    it came with no token. *)
Theorem not_configured_fails_closed (event : Event) (st : Store) :
  truthy_env (AUTH0_DOMAIN cfg) = false \/ truthy_env (AUTH0_AUDIENCE cfg) = false ->
  handlePost cfg event st
  = (Normal (resp 500 (errorBody "Auth not configured") []), st)
  /\ (httpMethod event <> "OPTIONS" ->
      uploadHandler cfg event st
      = (Normal (resp 500 (errorBody "Auth not configured") []), st))
  /\ handleGet cfg event st = handleGet cfg (anonymous event) st.
Proof.
  intros H. split; [|split].
  - unfold handlePost. now rewrite (verifyAuth_not_configured cfg _ _ H).
  - intros Ho. apply String.eqb_neq in Ho. unfold uploadHandler.
    now rewrite Ho, (verifyAuth_not_configured cfg _ _ H).
  - assert (He : elevated cfg event = false).
    { apply not_true_is_false. intros He.
      apply elevated_iff in He as [_ [c Hc]].
      rewrite (verifyAuth_not_configured cfg _ _ H) in Hc. discriminate. }
    unfold handleGet. now rewrite He.
Qed.

End UploadProperties.

(** ** The upload function on the demo store *)

Lemma uploadHandler_order_of_checks_witness :
  uploadHandler (rt := UploadDemo.rt) (aa := UploadDemo.arrays) Demo.config
    (UploadDemo.request "GET" None UploadDemo.photo)
    (UploadDemo.store_with UploadDemo.uploads)
  = (Normal (resp (rt := UploadDemo.rt) 401 (errorBody "Unauthorized") []),
     UploadDemo.store_with UploadDemo.uploads)
  /\ uploadHandler (rt := UploadDemo.rt) (aa := UploadDemo.arrays) Demo.config
       (UploadDemo.request "DELETE" Demo.writer UploadDemo.photo)
       (UploadDemo.store_with UploadDemo.uploads)
     = (Normal (resp (rt := UploadDemo.rt) 405
                     (errorBody "Method not allowed") []),
        UploadDemo.store_with UploadDemo.uploads).
Proof.
  split.
  - destruct (uploadHandler_order_of_checks (rt := UploadDemo.rt)
                (aa := UploadDemo.arrays) Demo.config
                (UploadDemo.request "GET" None UploadDemo.photo)
                (UploadDemo.store_with UploadDemo.uploads)) as [H _];
      [discriminate|].
    destruct (H (ErrorWithStatus "Unauthorized" 401)) as (code & Hc & Hr);
      [vm_compute; reflexivity|].
    injection Hc as <-. exact Hr.
  - destruct (uploadHandler_order_of_checks (rt := UploadDemo.rt)
                (aa := UploadDemo.arrays) Demo.config
                (UploadDemo.request "DELETE" Demo.writer UploadDemo.photo)
                (UploadDemo.store_with UploadDemo.uploads)) as [_ H];
      [discriminate|].
    apply (H (Demo.claims "inventory:read inventory:write"));
      [vm_compute; reflexivity|discriminate].
Defined.

Lemma uploadHandler_bad_request_witness :
  uploadHandler (rt := UploadDemo.rt) (aa := UploadDemo.arrays) Demo.config
    {| httpMethod := "POST"; authorization := Demo.writer;
       includeDrafts := None; body := Some "{" |}
    (UploadDemo.store_with UploadDemo.uploads)
  = (Normal (resp (rt := UploadDemo.rt) 400 (errorBody "Invalid JSON") []),
     UploadDemo.store_with UploadDemo.uploads)
  /\ uploadHandler (rt := UploadDemo.rt) (aa := UploadDemo.arrays) Demo.config
       (UploadDemo.request "POST" Demo.writer UploadDemo.no_url)
       (UploadDemo.store_with UploadDemo.uploads)
     = (Normal (resp (rt := UploadDemo.rt) 400
                     (errorBody "filename and url required") []),
        UploadDemo.store_with UploadDemo.uploads).
Proof.
  split.
  - destruct (uploadHandler_bad_request (rt := UploadDemo.rt)
                (aa := UploadDemo.arrays) Demo.config
                {| httpMethod := "POST"; authorization := Demo.writer;
                   includeDrafts := None; body := Some "{" |}
                (UploadDemo.store_with UploadDemo.uploads)
                (Demo.claims "inventory:read inventory:write"))
      as [H _]; [reflexivity|vm_compute; reflexivity|].
    apply H. eexists. vm_compute. reflexivity.
  - destruct (uploadHandler_bad_request (rt := UploadDemo.rt)
                (aa := UploadDemo.arrays) Demo.config
                (UploadDemo.request "POST" Demo.writer UploadDemo.no_url)
                (UploadDemo.store_with UploadDemo.uploads)
                (Demo.claims "inventory:read inventory:write"))
      as [_ H]; [reflexivity|vm_compute; reflexivity|].
    apply (H UploadDemo.no_url (JString "front.jpg") JUndefined);
      [vm_compute; reflexivity|reflexivity|now right].
Defined.

Lemma uploadHandler_records_witness :
  uploadHandler (rt := UploadDemo.rt) (aa := UploadDemo.arrays) Demo.config
    (UploadDemo.request "POST" Demo.writer UploadDemo.photo)
    (UploadDemo.store_with UploadDemo.uploads)
  = (Normal (resp (rt := UploadDemo.rt) 200
               (JObject [("ok", JBool true);
                         ("url", JString "https://cdn.example/front.jpg")]) []),
     written UPLOADS_KEY
       (Demo.stringify_indent2
          (JObject [("rear.jpg", JString "https://cdn.example/rear.jpg");
                    ("front.jpg", JString "https://cdn.example/front.jpg")]))
       (logged (CallGet UPLOADS_KEY) (UploadDemo.store_with UploadDemo.uploads)))
  /\ lookupField "rear.jpg"
       (assignField "front.jpg" (JString "https://cdn.example/front.jpg")
          [("rear.jpg", JString "https://cdn.example/rear.jpg");
           ("front.jpg", JString "https://cdn.example/old.jpg")])
     = Some (JString "https://cdn.example/rear.jpg").
Proof.
  destruct (uploadHandler_records (rt := UploadDemo.rt)
              (aa := UploadDemo.arrays) Demo.config
              (UploadDemo.request "POST" Demo.writer UploadDemo.photo)
              (UploadDemo.store_with UploadDemo.uploads)
              (Demo.claims "inventory:read inventory:write")
              UploadDemo.photo (JString "front.jpg")
              (JString "https://cdn.example/front.jpg") "front.jpg"
              [("rear.jpg", JString "https://cdn.example/rear.jpg");
               ("front.jpg", JString "https://cdn.example/old.jpg")])
    as [H1 H2];
    [reflexivity|vm_compute; reflexivity|vm_compute; reflexivity|reflexivity
    |reflexivity|reflexivity|reflexivity|vm_compute; reflexivity|reflexivity|].
  split; [exact H1|].
  rewrite H2 by discriminate. reflexivity.
Defined.

Lemma uploadHandler_proto_not_recorded_witness :
  uploadHandler (rt := UploadDemo.rt) (aa := UploadDemo.arrays) Demo.config
    (UploadDemo.request "POST" Demo.writer UploadDemo.proto_photo)
    (UploadDemo.store_with UploadDemo.uploads)
  = (Normal (resp (rt := UploadDemo.rt) 200
               (JObject [("ok", JBool true);
                         ("url", JString "https://cdn.example/front.jpg")]) []),
     written UPLOADS_KEY (Demo.stringify_indent2 UploadDemo.uploads)
       (logged (CallGet UPLOADS_KEY) (UploadDemo.store_with UploadDemo.uploads))).
Proof.
  apply (uploadHandler_proto_not_recorded (rt := UploadDemo.rt)
           (aa := UploadDemo.arrays) Demo.config
           (UploadDemo.request "POST" Demo.writer UploadDemo.proto_photo)
           (UploadDemo.store_with UploadDemo.uploads)
           (Demo.claims "inventory:read inventory:write")
           UploadDemo.proto_photo (JString "__proto__")
           (JString "https://cdn.example/front.jpg")
           [("rear.jpg", JString "https://cdn.example/rear.jpg");
            ("front.jpg", JString "https://cdn.example/old.jpg")]);
    [reflexivity|vm_compute; reflexivity|vm_compute; reflexivity|reflexivity
    |reflexivity|reflexivity|reflexivity|vm_compute; reflexivity|reflexivity
    |reflexivity].
Defined.

Lemma uploadHandler_throws_witness :
  uploadHandler (rt := UploadDemo.rt) (aa := UploadDemo.arrays) Demo.config
    (UploadDemo.request "POST" Demo.writer JNull)
    (UploadDemo.store_with UploadDemo.uploads)
  = (Throw (TypeError
       "Cannot destructure property 'filename' of 'body' as it is null."),
     UploadDemo.store_with UploadDemo.uploads)
  /\ (exists err,
        err_name err = "TypeError"
        /\ uploadHandler (rt := UploadDemo.rt) (aa := UploadDemo.arrays)
             Demo.config
             (UploadDemo.request "POST" Demo.writer UploadDemo.photo)
             (UploadDemo.store_with JNull)
           = (Throw err,
              logged (CallGet UPLOADS_KEY) (UploadDemo.store_with JNull)))
  /\ uploadHandler (rt := UploadDemo.rt) (aa := UploadDemo.arrays) Demo.config
       (UploadDemo.request "POST" Demo.writer UploadDemo.odd_name)
       (UploadDemo.store_with UploadDemo.uploads)
     = (Throw (TypeError "Cannot convert object to primitive value"),
        logged (CallGet UPLOADS_KEY) (UploadDemo.store_with UploadDemo.uploads))
  /\ fst (uploadHandler (rt := UploadDemo.rt) (aa := UploadDemo.arrays)
            Demo.config
            (UploadDemo.request "POST" Demo.writer UploadDemo.photo)
            {| blobs := blobs (UploadDemo.store_with UploadDemo.uploads);
               getFault := None;
               setFault := Some (mkError "BlobsInternalError" "fetch failed" None);
               calls := [] |})
     = Throw (mkError "BlobsInternalError" "fetch failed" None).
Proof.
  split; [|split; [|split]].
  - destruct (uploadHandler_throws (rt := UploadDemo.rt)
                (aa := UploadDemo.arrays) Demo.config
                (UploadDemo.request "POST" Demo.writer JNull)
                (UploadDemo.store_with UploadDemo.uploads)
                (Demo.claims "inventory:read inventory:write"))
      as [H _]; [reflexivity|vm_compute; reflexivity|].
    apply H. vm_compute. reflexivity.
  - destruct (uploadHandler_throws (rt := UploadDemo.rt)
                (aa := UploadDemo.arrays) Demo.config
                (UploadDemo.request "POST" Demo.writer UploadDemo.photo)
                (UploadDemo.store_with JNull)
                (Demo.claims "inventory:read inventory:write"))
      as [_ H]; [reflexivity|vm_compute; reflexivity|].
    destruct (H UploadDemo.photo (JString "front.jpg")
                (JString "https://cdn.example/front.jpg")) as [H1 _];
      [vm_compute; reflexivity|reflexivity|reflexivity|reflexivity|].
    apply H1. vm_compute. reflexivity.
  - destruct (uploadHandler_throws (rt := UploadDemo.rt)
                (aa := UploadDemo.arrays) Demo.config
                (UploadDemo.request "POST" Demo.writer UploadDemo.odd_name)
                (UploadDemo.store_with UploadDemo.uploads)
                (Demo.claims "inventory:read inventory:write"))
      as [_ H]; [reflexivity|vm_compute; reflexivity|].
    destruct (H UploadDemo.odd_name (JObject [("toString", JNumber 1)])
                (JString "https://cdn.example/front.jpg")) as [_ [H2 _]];
      [vm_compute; reflexivity|reflexivity|reflexivity|reflexivity|].
    apply (H2 [("rear.jpg", JString "https://cdn.example/rear.jpg");
               ("front.jpg", JString "https://cdn.example/old.jpg")]
              [("toString", JNumber 1)]);
      [vm_compute; reflexivity|reflexivity|discriminate].
  - destruct (uploadHandler_throws (rt := UploadDemo.rt)
                (aa := UploadDemo.arrays) Demo.config
                (UploadDemo.request "POST" Demo.writer UploadDemo.photo)
                {| blobs := blobs (UploadDemo.store_with UploadDemo.uploads);
                   getFault := None;
                   setFault := Some (mkError "BlobsInternalError"
                                             "fetch failed" None);
                   calls := [] |}
                (Demo.claims "inventory:read inventory:write"))
      as [_ H]; [reflexivity|vm_compute; reflexivity|].
    destruct (H UploadDemo.photo (JString "front.jpg")
                (JString "https://cdn.example/front.jpg")) as [_ [_ H3]];
      [vm_compute; reflexivity|reflexivity|reflexivity|reflexivity|].
    rewrite (H3 [("rear.jpg", JString "https://cdn.example/rear.jpg");
                 ("front.jpg", JString "https://cdn.example/old.jpg")]
                "front.jpg" (mkError "BlobsInternalError" "fetch failed" None));
      [reflexivity|vm_compute; reflexivity|reflexivity|reflexivity].
Defined.

Lemma uploadHandler_without_document_witness :
  uploadHandler (rt := UploadDemo.rt) (aa := UploadDemo.arrays) Demo.config
    (UploadDemo.request "POST" Demo.writer UploadDemo.photo)
    Demo.empty_store
  = (Normal (resp (rt := UploadDemo.rt) 200
               (JObject [("ok", JBool true);
                         ("url", JString "https://cdn.example/front.jpg")]) []),
     written UPLOADS_KEY
       (Demo.stringify_indent2
          (JObject [("front.jpg", JString "https://cdn.example/front.jpg")]))
       (logged (CallGet UPLOADS_KEY) Demo.empty_store)).
Proof.
  apply (uploadHandler_without_document (rt := UploadDemo.rt)
           (aa := UploadDemo.arrays) Demo.config
           (UploadDemo.request "POST" Demo.writer UploadDemo.photo)
           Demo.empty_store
           (Demo.claims "inventory:read inventory:write")
           UploadDemo.photo (JString "front.jpg")
           (JString "https://cdn.example/front.jpg") "front.jpg");
    [reflexivity|vm_compute; reflexivity|vm_compute; reflexivity|reflexivity
    |reflexivity|reflexivity|reflexivity|discriminate
    |right; left; reflexivity|reflexivity].
Defined.

Lemma uploadHandler_answer_witness :
  has_cors
    (resp (rt := UploadDemo.rt) 400 (errorBody "filename and url required") [])
  /\ (statusCode (resp (rt := UploadDemo.rt) 400
                       (errorBody "filename and url required") []) = 200
      \/ statusCode (resp (rt := UploadDemo.rt) 400
                          (errorBody "filename and url required") []) = 400
      \/ statusCode (resp (rt := UploadDemo.rt) 400
                          (errorBody "filename and url required") []) = 401
      \/ statusCode (resp (rt := UploadDemo.rt) 400
                          (errorBody "filename and url required") []) = 405
      \/ statusCode (resp (rt := UploadDemo.rt) 400
                          (errorBody "filename and url required") []) = 500).
Proof.
  apply (uploadHandler_answer (rt := UploadDemo.rt) (aa := UploadDemo.arrays)
           Demo.config
           (UploadDemo.request "POST" Demo.writer UploadDemo.no_url)
           (UploadDemo.store_with UploadDemo.uploads)
           (UploadDemo.store_with UploadDemo.uploads)).
  vm_compute. reflexivity.
Defined.

Lemma not_configured_fails_closed_witness :
  handlePost (rt := Demo.rt)
    {| AUTH0_DOMAIN := None; AUTH0_AUDIENCE := Some Demo.audience |}
    (Demo.post Demo.writer Demo.update) (Demo.store_with Demo.inventory)
  = (Normal (resp (rt := Demo.rt) 500 (errorBody "Auth not configured") []),
     Demo.store_with Demo.inventory)
  /\ uploadHandler (rt := Demo.rt) (aa := UploadDemo.arrays)
       {| AUTH0_DOMAIN := None; AUTH0_AUDIENCE := Some Demo.audience |}
       (Demo.post Demo.writer Demo.update) (Demo.store_with Demo.inventory)
     = (Normal (resp (rt := Demo.rt) 500 (errorBody "Auth not configured") []),
        Demo.store_with Demo.inventory).
Proof.
  destruct (not_configured_fails_closed (rt := Demo.rt)
              (aa := UploadDemo.arrays)
              {| AUTH0_DOMAIN := None; AUTH0_AUDIENCE := Some Demo.audience |}
              (Demo.post Demo.writer Demo.update)
              (Demo.store_with Demo.inventory)) as (H1 & H2 & _);
    [left; reflexivity|].
  split; [exact H1|apply H2; discriminate].
Defined.
